(** * update-dotnet-sdk: release resolution, update classification and the
      update run, embedded from [src/DotNetSdkUpdater.ts] and [src/main.ts].

    Conventions of the embedding.
    - A JavaScript string is a [string]; the callers of the functions below
      only compare, split and concatenate strings, so code units are bytes.
    - A JavaScript number holding an integer is a [Z] ([Num]) or [NaN]; the
      embedding is exact for magnitudes below 2^53 ([Js.exact]), where
      doubles are: from 2^53 on a double rounds what [parseInt] reads,
      [patch++] stops advancing and, from 10^21 on, a number is printed with
      an exponent, none of which [Num] follows.
    - A function that can throw returns a [result].
    - The collaborators of a run (file system, git, HTTP, the hosting API,
      the Actions toolkit) are events of a program tree ([Prog]); a [World]
      answers them, and [exec] logs each call with its answer. *)

From Stdlib Require Import ZArith List String Ascii Bool Lia.
From Stdlib Require Import Sorting.Sorted Sorting.Permutation.
Import ListNotations.
Local Open Scope string_scope.
Local Open Scope Z_scope.

(** ** JavaScript strings and numbers *)

Module Js.

(** Template literals and [+] on strings. *)
Definition template (parts : list string) : string := String.concat EmptyString parts.

(** [Array.prototype.join]. *)
Definition join (sep : string) (lines : list string) : string :=
  String.concat sep lines.

Definition LF : string := String (ascii_of_nat 10) EmptyString.

(** White space of the ASCII range: TAB, LF, VT, FF, CR and SP. *)
Definition isWhiteSpace (c : ascii) : bool :=
  let n := nat_of_ascii c in
  (Nat.leb 9 n && Nat.leb n 13) || Nat.eqb n 32.

Fixpoint trimStart (s : string) : string :=
  match s with
  | String c rest => if isWhiteSpace c then trimStart rest else s
  | EmptyString => EmptyString
  end.

(** [String.prototype.trimEnd]: a character is dropped when it is white
    space and everything after it was dropped. *)
Fixpoint trimEnd (s : string) : string :=
  match s with
  | String c rest =>
      match trimEnd rest with
      | EmptyString => if isWhiteSpace c then EmptyString else String c EmptyString
      | kept => String c kept
      end
  | EmptyString => EmptyString
  end.

(** [s.split(sep)] for a separator of one character; the result is never
    empty. *)
Fixpoint split (sep : ascii) (s : string) : list string :=
  match s with
  | EmptyString => [EmptyString]
  | String c rest =>
      if Ascii.eqb c sep then EmptyString :: split sep rest
      else match split sep rest with
           | part :: parts => String c part :: parts
           | [] => [String c EmptyString]
           end
  end.

(** [s.includes(c)] for a needle of one character. *)
Fixpoint includes (c : ascii) (s : string) : bool :=
  match s with
  | String d rest => Ascii.eqb d c || includes c rest
  | EmptyString => false
  end.

(** A string is truthy when it is not empty. *)
Definition truthy (s : string) : bool := negb (s =? EmptyString)%string.

Definition toLowerChar (c : ascii) : ascii :=
  let n := nat_of_ascii c in
  if Nat.leb 65 n && Nat.leb n 90 then ascii_of_nat (n + 32) else c.

Fixpoint toLowerCase (s : string) : string :=
  match s with
  | String c rest => String (toLowerChar c) (toLowerCase rest)
  | EmptyString => EmptyString
  end.

(** [s.replace(/c/g, '')]. *)
Fixpoint removeAll (c : ascii) (s : string) : string :=
  match s with
  | String d rest => if Ascii.eqb d c then removeAll c rest else String d (removeAll c rest)
  | EmptyString => EmptyString
  end.

(** Numbers that hold an integer, or NaN. *)
Inductive num : Type :=
| NaN
| Num (z : Z).

(** The numbers on which [Num] and a double agree: NaN, and the integers
    of magnitude below 2^53. *)
Definition exact (x : num) : Prop :=
  match x with
  | NaN => True
  | Num z => - 2 ^ 53 < z < 2 ^ 53
  end.

Definition digitValue (c : ascii) : option Z :=
  let n := nat_of_ascii c in
  if Nat.leb 48 n && Nat.leb n 57 then Some (Z.of_nat (n - 48)) else None.

Fixpoint leadingDigits (s : string) : list Z :=
  match s with
  | String c rest =>
      match digitValue c with
      | Some d => d :: leadingDigits rest
      | None => []
      end
  | EmptyString => []
  end.

Definition digitsValue (ds : list Z) : Z :=
  fold_left (fun acc d => 10 * acc + d) ds 0.

(** [parseInt(s, 10)]: leading white space is skipped, a sign is read,
    then the longest run of decimal digits; no digit gives NaN. The
    argument [None] is [undefined], whose string form has no digit. The
    value is the integer the digits denote; the code gets that integer when
    it is [exact], and the double nearest to it otherwise. *)
Definition parseInt (arg : option string) : num :=
  match arg with
  | None => NaN
  | Some s =>
      let t := trimStart s in
      let '(negative, body) :=
        match t with
        | String "-" rest => (true, rest)
        | String "+" rest => (false, rest)
        | _ => (false, t)
        end in
      match leadingDigits body with
      | [] => NaN
      | ds => Num (if negative then - digitsValue ds else digitsValue ds)
      end
  end.

Definition digitChar (d : Z) : ascii := ascii_of_nat (48 + Z.to_nat d).

Fixpoint decimalDigits (fuel : nat) (n : Z) (acc : string) : string :=
  match fuel with
  | O => acc
  | S fuel' =>
      let acc' := String (digitChar (n mod 10)) acc in
      if n / 10 =? 0 then acc' else decimalDigits fuel' (n / 10) acc'
  end.

(** Decimal form of a natural number; the fuel is its bit length. *)
Definition natToString (n : Z) : string :=
  decimalDigits (S (Z.to_nat (Z.log2 n))) n EmptyString.

(** Number-to-string conversion, as a template literal applies it: the
    decimal digits, which is what the code prints for an [exact] number
    (from 10^21 on the code prints an exponent). *)
Definition toString (x : num) : string :=
  match x with
  | NaN => "NaN"
  | Num z => if z <? 0 then String "-" (natToString (- z)) else natToString z
  end.

(** [a > b] on numbers: false as soon as one side is NaN. *)
Definition gt (a b : num) : bool :=
  match a, b with
  | Num x, Num y => x >? y
  | _, _ => false
  end.

(** [a - b] on numbers. *)
Definition sub (a b : num) : num :=
  match a, b with
  | Num x, Num y => Num (x - y)
  | _, _ => NaN
  end.

(** Errors the code throws or lets escape. *)
Inductive error : Type :=
| Error (message : string)
| TypeError (message : string).

Definition message (e : error) : string :=
  match e with
  | Error m => m
  | TypeError m => m
  end.

End Js.

(** Outcome of a function that may throw. *)
Inductive result (A : Type) : Type :=
| Return (a : A)
| Throws (e : Js.error).
Arguments Return {A} a.
Arguments Throws {A} e.


(** ** The release feed ([releases.json]) and the values derived from it *)

Module Runtime.
Record t : Type := make {
  version : string;
  version_display : string;
}.
End Runtime.

Module Sdk.
Record t : Type := make {
  version : string;
  version_display : string;
  runtime_version : string;
}.
End Sdk.

Module Cve.
Record t : Type := make {
  cve_id : string;
  cve_url : string;
}.
End Cve.

(** ['cve-list'] and ['sdks'] are [null] in part of the published feeds:
    [None] stands for [null]. *)
Module Release.
Record t : Type := make {
  release_date : string;
  release_version : string;
  security : bool;
  cve_list : option (list Cve.t);
  release_notes : string;
  runtime : Runtime.t;
  sdk : Sdk.t;
  sdks : option (list Sdk.t);
  aspnetcore_runtime : Runtime.t;
}.
End Release.

Module ReleaseChannel.
Record t : Type := make {
  channel_version : string;
  latest_release : string;
  latest_release_date : string;
  latest_runtime : string;
  latest_sdk : string;
  release_type : string;
  support_phase : string;
  eol_date : string;
  lifecycle_policy : string;
  releases : list Release.t;
}.
End ReleaseChannel.

Module CveInfo.
Record t : Type := make {
  id : string;
  url : string;
}.
End CveInfo.

Module ReleaseInfo.
Record t : Type := make {
  releaseNotes : string;
  runtimeVersion : string;
  sdkVersion : string;
  security : bool;
  securityIssues : list CveInfo.t;
}.
End ReleaseInfo.

Module SdkVersions.
Record t : Type := make {
  current : ReleaseInfo.t;
  latest : ReleaseInfo.t;
  security : bool;
  securityIssues : list CveInfo.t;
}.
End SdkVersions.

(** ** Version Matcher: [getReleaseForSdk] and [mapCves] *)

Definition mapCves (cves : list Cve.t) : list CveInfo.t :=
  map (fun issue => CveInfo.make (Cve.cve_id issue) (Cve.cve_url issue)) cves.

(** First filter of [getReleaseForSdk]: releases whose primary descriptor
    has the requested version. *)
Definition primaryMatches (sdkVersion : string) (channel : ReleaseChannel.t) : list Release.t :=
  filter (fun info => (Sdk.version (Release.sdk info) =? sdkVersion)%string)
         (ReleaseChannel.releases channel).

(** Callback of the second filter, on one release: whether the release is
    kept, and the value of [foundSdk] after the call. The [for] loop returns
    at the first descriptor of [info.sdks] that matches. *)
Definition alternateStep (sdkVersion : string) (info : Release.t) (foundSdk : option Sdk.t)
  : bool * option Sdk.t :=
  match Release.sdks info with
  | Some sdks =>
      match find (fun sdk => (Sdk.version sdk =? sdkVersion)%string) sdks with
      | Some sdk => (true, Some sdk)
      | None => (false, foundSdk)
      end
  | None => (false, foundSdk)
  end.

(** The second filter: the callback runs on every release in order, and
    each hit overwrites [foundSdk]. *)
Fixpoint alternateMatches (sdkVersion : string) (releases : list Release.t) (foundSdk : option Sdk.t)
  : list Release.t * option Sdk.t :=
  match releases with
  | [] => ([], foundSdk)
  | info :: rest =>
      let '(keep, foundSdk1) := alternateStep sdkVersion info foundSdk in
      let '(kept, foundSdk2) := alternateMatches sdkVersion rest foundSdk1 in
      (if keep then info :: kept else kept, foundSdk2)
  end.

Definition releaseNotFound (sdkVersion : string) : Js.error :=
  Js.Error (Js.template ["Failed to find release for .NET SDK version "; sdkVersion]).

Definition getReleaseForSdk (sdkVersion : string) (channel : ReleaseChannel.t)
  : result ReleaseInfo.t :=
  let '(releasesForSdk, foundSdk) :=
    match primaryMatches sdkVersion channel with
    | [only] => ([only], Some (Release.sdk only))   (* length === 1 *)
    | [] => alternateMatches sdkVersion (ReleaseChannel.releases channel) None   (* length < 1 *)
    | several => (several, None)
    end in
  match releasesForSdk, foundSdk with
  | release :: _, Some found =>
      Return (ReleaseInfo.make
                (Release.release_notes release)
                (Runtime.version (Release.runtime release))
                (Sdk.version found)
                (Release.security release)
                (if Release.security release
                 then match Release.cve_list release with
                      | Some issues => mapCves issues
                      | None => []
                      end
                 else []))
  | _, _ => Throws (releaseNotFound sdkVersion)
  end.

(** ** Release Delta Resolver: [getLatestRelease] *)

(** State of the patch loop: the two aggregate fields of [result], and
    whether [result.securityIssues] is still the array object of
    [latest.securityIssues] ([concat] allocates a new array). *)
Record Aggregate : Type := mkAggregate {
  agg_security : bool;
  agg_issues : list CveInfo.t;
  agg_shared : bool;
}.

Definition findByRuntime (version : string) (channel : ReleaseChannel.t) : option Release.t :=
  find (fun p => (Runtime.version (Release.runtime p) =? version)%string)
       (ReleaseChannel.releases channel).

Definition patchVersion (versionMajor versionMinor : Js.num) (patch : Z) : string :=
  Js.template [Js.toString versionMajor; "."; Js.toString versionMinor; "."; Js.toString (Js.Num patch)].

(** Body of the [for] loop for one value of [patch]. *)
Definition gapStep (channel : ReleaseChannel.t) (versionMajor versionMinor : Js.num)
  (acc : Aggregate) (patch : Z) : Aggregate :=
  match findByRuntime (patchVersion versionMajor versionMinor patch) channel with
  | Some release =>
      let security := agg_security acc || Release.security release in
      match Release.cve_list release with
      | Some cves => mkAggregate security (agg_issues acc ++ mapCves cves) false
      | None => mkAggregate security (agg_issues acc) (agg_shared acc)
      end
  | None => acc
  end.

(** Values taken by [patch] in
    [for (let patch = currentPatch; patch < latestPatch; patch++)]. *)
Definition loopPatches (currentPatch latestPatch : Z) : list Z :=
  map (fun i => currentPatch + Z.of_nat i) (seq 0 (Z.to_nat (latestPatch - currentPatch))).

Definition gapScan (channel : ReleaseChannel.t) (versionMajor versionMinor : Js.num)
  (currentPatch latestPatch : Z) (seed : Aggregate) : Aggregate :=
  fold_left (gapStep channel versionMajor versionMinor) (loopPatches currentPatch latestPatch) seed.

Definition undefinedIncludes : Js.error :=
  Js.TypeError "Cannot read properties of undefined (reading 'includes')".

Section Sorting.

Context {A : Type}.
Variable compareFn : A -> A -> Z.

Fixpoint insertSorted (x : A) (l : list A) : list A :=
  match l with
  | [] => [x]
  | y :: rest => if compareFn x y <=? 0 then x :: l else y :: insertSorted x rest
  end.

(** [Array.prototype.sort(compareFn)]: the sort is stable, so for a
    consistent comparator every conforming engine returns what this
    insertion sort returns. *)
Definition sort (l : list A) : list A := fold_right insertSorted [] l.

End Sorting.

Section WithLocale.

(** [String.prototype.localeCompare] depends on the locale of the host. *)
Variable localeCompare : string -> string -> Z.

Definition compareIds (a b : CveInfo.t) : Z := localeCompare (CveInfo.id a) (CveInfo.id b).

(** The patch step of [getLatestRelease], once both patch segments exist
    and carry no ['-']: the aggregate after the [if (patchDelta > 1)]. *)
Definition aggregateOver (channel : ReleaseChannel.t) (versionMajor versionMinor : Js.num)
  (currentPatch latestPatch : Js.num) (seed : Aggregate) : Aggregate :=
  if Js.gt (Js.sub latestPatch currentPatch) (Js.Num 1)
  then match currentPatch, latestPatch with
       | Js.Num c, Js.Num l => gapScan channel versionMajor versionMinor c l seed
       | _, _ => seed
       end
  else seed.

(** [result] as returned: the list was sorted in place, so when no [concat]
    ran the same sorted array is also [latest.securityIssues]. *)
Definition finish (current latest : ReleaseInfo.t) (acc : Aggregate) : SdkVersions.t :=
  let sorted := sort compareIds (agg_issues acc) in
  let latest' :=
    if agg_shared acc
    then ReleaseInfo.make (ReleaseInfo.releaseNotes latest) (ReleaseInfo.runtimeVersion latest)
           (ReleaseInfo.sdkVersion latest) (ReleaseInfo.security latest) sorted
    else latest in
  SdkVersions.make current latest' (agg_security acc) sorted.

Definition getLatestRelease (currentSdkVersion : string) (channel : ReleaseChannel.t)
  : result SdkVersions.t :=
  match getReleaseForSdk currentSdkVersion channel with
  | Throws e => Throws e
  | Return current =>
  match getReleaseForSdk (ReleaseChannel.latest_sdk channel) channel with
  | Throws e => Throws e
  | Return latest =>
      let seed := mkAggregate (ReleaseInfo.security latest) (ReleaseInfo.securityIssues latest) true in
      let currentParts := Js.split "." (ReleaseInfo.runtimeVersion current) in
      let latestParts := Js.split "." (ReleaseInfo.runtimeVersion latest) in
      let versionMajor := Js.parseInt (nth_error currentParts 0) in
      let versionMinor := Js.parseInt (nth_error currentParts 1) in
      match nth_error currentParts 2 with
      | None => Throws undefinedIncludes
      | Some currentPart2 =>
          if Js.includes "-" currentPart2 then Return (finish current latest seed)
          else
            match nth_error latestParts 2 with
            | None => Throws undefinedIncludes
            | Some latestPart2 =>
                if Js.includes "-" latestPart2 then Return (finish current latest seed)
                else
                  let currentPatch := Js.parseInt (Some currentPart2) in
                  let latestPatch := Js.parseInt (Some latestPart2) in
                  Return (finish current latest
                            (aggregateOver channel versionMajor versionMinor
                               currentPatch latestPatch seed))
            end
      end
  end
  end.

End WithLocale.

(** ** Update Classifier: [generateCommitMessage] and [generatePullRequestBody] *)

Definition updateKind (currentSdkVersion latestSdkVersion : string) : string :=
  let currentVersion := Js.split "." currentSdkVersion in
  let latestVersion := Js.split "." latestSdkVersion in
  if Js.gt (Js.parseInt (nth_error latestVersion 0)) (Js.parseInt (nth_error currentVersion 0))
  then "major"
  else if Js.gt (Js.parseInt (nth_error latestVersion 1)) (Js.parseInt (nth_error currentVersion 1))
  then "minor"
  else "patch".

Definition generateCommitMessage (currentSdkVersion latestSdkVersion : string) : string :=
  let messageLines :=
    [ "Update .NET SDK";
      EmptyString;
      Js.template ["Update .NET SDK to version "; latestSdkVersion; "."];
      EmptyString;
      "---";
      "updated-dependencies:";
      "- dependency-name: Microsoft.NET.Sdk";
      "  dependency-type: direct:production";
      Js.template ["  update-type: version-update:semver-"; updateKind currentSdkVersion latestSdkVersion];
      "...";
      EmptyString;
      EmptyString ] in
  Js.join Js.LF messageLines.

Definition orUndefined (s : option string) : string :=
  match s with
  | Some v => v
  | None => "undefined"
  end.

(** Modelled from the spec: [UpdateOptions.ts] is not among the sources; the
    fields are those of the object literal of [run] in [main.ts]. *)
Module UpdateOptions.
Record t : Type := make {
  accessToken : string;
  apiUrl : string;
  branch : string;
  channel : string;
  commitMessage : string;
  commitMessagePrefix : string;
  dryRun : bool;
  generateStepSummary : bool;
  globalJsonPath : string;
  labels : string;
  quality : string;
  repo : option string;
  runId : string;
  serverUrl : string;
  userEmail : string;
  userName : string;
}.
Definition with_channel (o : t) (v : string) : t :=
  make (accessToken o) (apiUrl o) (branch o) v (commitMessage o) (commitMessagePrefix o)
    (dryRun o) (generateStepSummary o) (globalJsonPath o) (labels o) (quality o) (repo o)
    (runId o) (serverUrl o) (userEmail o) (userName o).
Definition with_branch (o : t) (v : string) : t :=
  make (accessToken o) (apiUrl o) v (channel o) (commitMessage o) (commitMessagePrefix o)
    (dryRun o) (generateStepSummary o) (globalJsonPath o) (labels o) (quality o) (repo o)
    (runId o) (serverUrl o) (userEmail o) (userName o).
Definition with_commitMessage (o : t) (v : string) : t :=
  make (accessToken o) (apiUrl o) (branch o) (channel o) v (commitMessagePrefix o)
    (dryRun o) (generateStepSummary o) (globalJsonPath o) (labels o) (quality o) (repo o)
    (runId o) (serverUrl o) (userEmail o) (userName o).
End UpdateOptions.

(** Modelled from the spec: [UpdateResult.ts] is not among the sources; the
    fields are those [tryUpdateSdk] writes and [run] reads. [branchName] is
    read by [run] and absent from the literal of [tryUpdateSdk]: [None] is
    [undefined]. *)
Module UpdateResult.
Record t : Type := make {
  branchName : option string;
  pullRequestNumber : Z;
  pullRequestUrl : string;
  updated : bool;
  security : bool;
  version : string;
}.
End UpdateResult.

Definition generatePullRequestBody (update : SdkVersions.t) (options : UpdateOptions.t) : string :=
  let latest := SdkVersions.latest update in
  let current := SdkVersions.current update in
  let body0 := Js.template ["Updates the .NET SDK to version `"; ReleaseInfo.sdkVersion latest; "`, "] in
  let body1 :=
    if (ReleaseInfo.runtimeVersion latest =? ReleaseInfo.runtimeVersion current)%string
    then Js.template [body0; "which includes version [``"; ReleaseInfo.runtimeVersion latest; "``](";
                      ReleaseInfo.releaseNotes latest; ") of the .NET runtime."]
    else Js.template [body0; "which also updates the .NET runtime from version [``";
                      ReleaseInfo.runtimeVersion current; "``]("; ReleaseInfo.releaseNotes current;
                      ") to version [``"; ReleaseInfo.runtimeVersion latest; "``](";
                      ReleaseInfo.releaseNotes latest; ")."] in
  let body2 :=
    if SdkVersions.security update && (0 <? Z.of_nat (List.length (SdkVersions.securityIssues update)))
    then fold_left
           (fun body issue =>
              Js.template [body; Js.LF; "  * ["; CveInfo.id issue; "]("; CveInfo.url issue; ")"])
           (SdkVersions.securityIssues update)
           (Js.template [body1; Js.LF; Js.LF; "This release includes fixes for the following security issue(s):"])
    else body1 in
  Js.template [body2; Js.LF; Js.LF;
               "This pull request was auto-generated by [GitHub Actions]("; UpdateOptions.serverUrl options;
               "/"; orUndefined (UpdateOptions.repo options); "/actions/runs/"; UpdateOptions.runId options; ")."].

(** ** The collaborators of a run *)

(** The manifest as [JSON.parse] returns it: the [sdk] member with its
    [version], and the other members, which the rewrite carries over. *)
Module GlobalJson.
Record sdk_t : Type := make_sdk {
  version : option string;
}.
Record t : Type := make {
  sdk : option sdk_t;
  others : string;
}.
End GlobalJson.

(** What the listeners of [exec.exec] collected. *)
Record ExecOutput : Type := mkExecOutput {
  stdout : string;
  stderr : string;
}.

(** Response of [HttpClient.getJson]. *)
Record JsonResponse : Type := mkJsonResponse {
  statusCode : Z;
  response_result : option ReleaseChannel.t;
}.

(** Request and response of [octokit.rest.pulls.create]; [raw] is the
    response as [JSON.stringify] prints it. *)
Record PullRequestRequest : Type := mkPullRequestRequest {
  req_owner : string;
  req_repo : option string;
  req_title : string;
  req_head : string;
  req_base : string;
  req_body : string;
  req_maintainer_can_modify : bool;
  req_draft : bool;
}.

Record PullRequestData : Type := mkPullRequestData {
  data_number : Z;
  data_title : string;
  data_html_url : string;
  raw : string;
}.

(** [new Context()] of [@actions/github]. *)
Record Context : Type := mkContext {
  ctx_apiUrl : string;
  ctx_runId : Z;
  ctx_serverUrl : string;
}.

(** A value passed to [core.setOutput]. *)
Inductive value : Type :=
| VUndefined
| VString (s : string)
| VNumber (z : Z)
| VBoolean (b : bool).

Definition optionalString (s : option string) : value :=
  match s with
  | Some v => VString v
  | None => VUndefined
  end.

(** One constructor per call that leaves the program. [ReadGlobalJson] is
    [JSON.parse(fs.readFileSync(path))]; [WriteFileSync] carries the
    document whose pretty-printed text is written. *)
Inductive Event : Type -> Type :=
| ReadGlobalJson (path : string) : Event GlobalJson.t
| WriteFileSync (path : string) (document : GlobalJson.t) : Event unit
| ExistsSync (path : string) : Event bool
| PathResolve (path : string) : Event string
| Exec (commandLine : string) (args : list string) (cwd : string) (ignoreReturnCode : bool) : Event ExecOutput
| GetJson (requestUrl : string) : Event JsonResponse
| GetOctokit (token : string) (baseUrl : string) : Event unit
| PullsCreate (request : PullRequestRequest) : Event PullRequestData
| AddLabels (owner : string) (repo : option string) (issue_number : Z) (labels : list string) : Event unit
| NewContext : Event Context
| GetEnv (name : string) : Event (option string)
| GetInput (name : string) (required : bool) : Event string
| SetOutput (name : string) (v : value) : Event unit
| SetFailed (message : string) : Event unit
| CoreInfo (message : string) : Event unit
| CoreDebug (message : string) : Event unit
| CoreError (message : string) : Event unit.

(** A call returns or throws. *)
Inductive Reply (X : Type) : Type :=
| Returned (x : X)
| Raised (e : Js.error).
Arguments Returned {X} x.
Arguments Raised {X} e.

(** Programs: trees of calls, ending in a value or an uncaught error. *)
Inductive Prog (A : Type) : Type :=
| Ret (a : A)
| Fail (e : Js.error)
| Vis (X : Type) (e : Event X) (k : Reply X -> Prog A).
Arguments Ret {A} a.
Arguments Fail {A} e.
Arguments Vis {A X} e k.

Fixpoint bind {A B : Type} (p : Prog A) (f : A -> Prog B) : Prog B :=
  match p with
  | Ret a => f a
  | Fail e => Fail e
  | Vis e k => Vis e (fun r => bind (k r) f)
  end.

(** [try { p } catch (error) { handler }]. *)
Fixpoint tryCatch {A : Type} (p : Prog A) (handler : Js.error -> Prog A) : Prog A :=
  match p with
  | Ret a => Ret a
  | Fail e => handler e
  | Vis e k => Vis e (fun r => tryCatch (k r) handler)
  end.

Definition call {X : Type} (e : Event X) : Prog X :=
  Vis e (fun r => match r with
                  | Returned x => Ret x
                  | Raised err => Fail err
                  end).

Declare Scope prog_scope.
Delimit Scope prog_scope with prog.
Notation "x <- p ;; q" := (bind p (fun x => q))
  (at level 61, p at next level, right associativity) : prog_scope.
Notation "p ;; q" := (bind p (fun _ => q))
  (at level 61, right associativity) : prog_scope.
Local Open Scope prog_scope.

(** A call that was made, and a call with the answer it got. *)
Inductive Call : Type :=
| Called (X : Type) (e : Event X).
Arguments Called {X} e.

Inductive Interaction : Type :=
| Interacted (X : Type) (e : Event X) (r : Reply X).
Arguments Interacted {X} e r.

Definition callOf (i : Interaction) : Call :=
  match i with
  | Interacted e _ => Called e
  end.

(** The world answers a call from the calls made before it. *)
Definition World : Type := forall X : Type, list Call -> Event X -> Reply X.

(** Runs a program: the interactions, oldest first, and the outcome. *)
Fixpoint exec {A : Type} (w : World) (log : list Interaction) (p : Prog A)
  : list Interaction * result A :=
  match p with
  | Ret a => (log, Return a)
  | Fail e => (log, Throws e)
  | Vis e k =>
      let r := w _ (map callOf log) e in
      exec w (log ++ [Interacted e r]) (k r)
  end.

(** The logging functions of [@actions/core] write a line and return. *)
Definition info (message : string) : Prog unit := Vis (CoreInfo message) (fun _ => Ret tt).
Definition debug (message : string) : Prog unit := Vis (CoreDebug message) (fun _ => Ret tt).
Definition error (message : string) : Prog unit := Vis (CoreError message) (fun _ => Ret tt).

(** [String(error)] and [`${error}`]. *)
Definition errorToString (e : Js.error) : string :=
  match e with
  | Js.Error m => Js.template ["Error: "; m]
  | Js.TypeError m => Js.template ["TypeError: "; m]
  end.

Definition when (b : bool) (p : Prog unit) : Prog unit := if b then p else Ret tt.

(** ** Update Orchestrator: the methods of [DotNetSdkUpdater] *)

Section Updater.

Variable localeCompare : string -> string -> Z.

(** [path.dirname], which depends on the platform. *)
Variable dirname : string -> string.

Definition repoPath (options : UpdateOptions.t) : string :=
  dirname (UpdateOptions.globalJsonPath options).

Definition execGit (options : UpdateOptions.t) (args : list string) (ignoreErrors : bool)
  : Prog string :=
  Vis (Exec "git" args (repoPath options) ignoreErrors)
    (fun r =>
       match r with
       | Raised err =>
           Fail (Js.Error (Js.template ["The command 'git "; Js.join " " args; "' failed: ";
                                        errorToString err]))
       | Returned out =>
           if Js.truthy (stderr out) && negb ignoreErrors
           then Fail (Js.Error (stderr out))
           else
             debug (Js.template ["git std-out: "; stdout out]) ;;
             when (Js.truthy (stderr out)) (debug (Js.template ["git std-err: "; stderr out])) ;;
             Ret (Js.trimEnd (stdout out))
       end).

Definition releasesUrl (channel : string) : string :=
  Js.template ["https://raw.githubusercontent.com/dotnet/core/main/release-notes/"; channel;
               "/releases.json"].

Definition getDotNetReleaseChannel (channel : string) : Prog ReleaseChannel.t :=
  debug (Js.template ["Downloading .NET "; channel; " release notes JSON from ";
                      releasesUrl channel; "..."]) ;;
  response <- call (GetJson (releasesUrl channel)) ;;
  if statusCode response >=? 400
  then Fail (Js.Error (Js.template ["Failed to get releases JSON for channel "; channel;
                                    " - HTTP status "; Js.toString (Js.Num (statusCode response))]))
  else match response_result response with
       | None => Fail (Js.Error (Js.template ["Failed to get releases JSON for channel "; channel; "."]))
       | Some channelData => Ret channelData
       end.

(** The value [createPullRequest] resolves to. *)
Record PullRequest : Type := mkPullRequest {
  pr_number : Z;
  pr_url : string;
}.

(** The client is built by [github.getOctokit] before the dry-run test; the
    requests that follow go through it. *)
Definition createPullRequest (options : UpdateOptions.t) (base : string) (update : SdkVersions.t)
  : Prog PullRequest :=
  let title := Js.template ["Update .NET SDK to "; ReleaseInfo.sdkVersion (SdkVersions.latest update)] in
  let body := generatePullRequestBody update options in
  call (GetOctokit (UpdateOptions.accessToken options) (UpdateOptions.apiUrl options)) ;;
  let split :=
    Js.split "/" (match UpdateOptions.repo options with Some r => r | None => "/" end) in
  let owner := nth 0 split EmptyString in
  let repo := nth_error split 1 in
  let request :=
    mkPullRequestRequest owner repo title (UpdateOptions.branch options) base body true false in
  if UpdateOptions.dryRun options
  then
    info (Js.template ["Skipped creating GitHub Pull Request for branch ";
                       UpdateOptions.branch options; " to "; base]) ;;
    Ret (mkPullRequest 0 EmptyString)
  else
    response <- call (PullsCreate request) ;;
    debug (raw response) ;;
    info (Js.template ["Created pull request #"; Js.toString (Js.Num (data_number response)); ": ";
                       data_title response]) ;;
    info (Js.template ["View the pull request at "; data_html_url response]) ;;
    let result := mkPullRequest (data_number response) (data_html_url response) in
    when (Js.truthy (UpdateOptions.labels options))
      (let labelsToApply := Js.split "," (UpdateOptions.labels options) in
       when (0 <? Z.of_nat (List.length labelsToApply))
         (tryCatch
            (call (AddLabels owner repo (pr_number result) labelsToApply))
            (fun err =>
               error (Js.template ["Failed to apply label(s) to Pull Request #";
                                   Js.toString (Js.Num (pr_number result))]) ;;
               error (errorToString err)))) ;;
    Ret result.

Definition setSdkVersion (globalJson : GlobalJson.t) (v : string) : result GlobalJson.t :=
  match GlobalJson.sdk globalJson with
  | Some _ => Return (GlobalJson.make (Some (GlobalJson.make_sdk (Some v))) (GlobalJson.others globalJson))
  | None => Throws (Js.TypeError "Cannot set properties of undefined (setting 'version')")
  end.

(** [applySdkUpdate] resolves to the base branch, or to [undefined] when
    the branch exists already; the options it assigned are returned with
    it. *)
Definition applySdkUpdate (options : UpdateOptions.t) (globalJson : GlobalJson.t)
  (versions : SdkVersions.t) : Prog (option string * UpdateOptions.t) :=
  let path := UpdateOptions.globalJsonPath options in
  let latestSdk := ReleaseInfo.sdkVersion (SdkVersions.latest versions) in
  info (Js.template ["Updating .NET SDK version in '"; path; "' to "; latestSdk; "..."]) ;;
  base <- execGit options ["rev-parse"; "--abbrev-ref"; "HEAD"] false ;;
  match setSdkVersion globalJson latestSdk with
  | Throws e => Fail e
  | Return json =>
  call (WriteFileSync path json) ;;
  info (Js.template ["Updated SDK version in '"; path; "' to "; latestSdk]) ;;
  let options1 :=
    if Js.truthy (UpdateOptions.branch options) then options
    else UpdateOptions.with_branch options
           (Js.toLowerCase (Js.template ["update-dotnet-sdk-"; latestSdk])) in
  let options2 :=
    if Js.truthy (UpdateOptions.commitMessage options1) then options1
    else UpdateOptions.with_commitMessage options1
           (generateCommitMessage (ReleaseInfo.sdkVersion (SdkVersions.current versions)) latestSdk) in
  let userName := UpdateOptions.userName options2 in
  let userEmail := UpdateOptions.userEmail options2 in
  let branch := UpdateOptions.branch options2 in
  let message := UpdateOptions.commitMessage options2 in
  let hasRepo :=
    match UpdateOptions.repo options2 with
    | Some r => Js.truthy r
    | None => false
    end in
  let repo := orUndefined (UpdateOptions.repo options2) in
  when (Js.truthy userName)
    (execGit options2 ["config"; "user.name"; userName] false ;;
     info (Js.template ["Updated git user name to '"; userName; "'"])) ;;
  when (Js.truthy userEmail)
    (execGit options2 ["config"; "user.email"; userEmail] false ;;
     info (Js.template ["Updated git user email to '"; userEmail; "'"])) ;;
  when hasRepo
    (execGit options2 ["remote"; "set-url"; "origin";
                       Js.template [UpdateOptions.serverUrl options2; "/"; repo; ".git"]] false ;;
     execGit options2 ["fetch"; "origin"] true ;;
     Ret tt) ;;
  debug (Js.template ["Branch: "; branch]) ;;
  debug (Js.template ["Commit message: "; message]) ;;
  debug (Js.template ["User name: "; userName]) ;;
  debug (Js.template ["User email: "; userEmail]) ;;
  branchExists <- execGit options2 ["rev-parse"; "--verify"; "--quiet";
                                    Js.template ["remotes/origin/"; branch]] true ;;
  if Js.truthy branchExists
  then
    info (Js.template ["The "; branch; " branch already exists"]) ;;
    Ret (None, options2)
  else
    execGit options2 ["checkout"; "-b"; branch] true ;;
    info (Js.template ["Created git branch "; branch]) ;;
    execGit options2 ["add"; path] false ;;
    info (Js.template ["Staged git commit for '"; path; "'"]) ;;
    execGit options2 ["commit"; "-m"; message; "-s"] false ;;
    sha1 <- execGit options2 ["log"; "--format='%H'"; "-n"; "1"] false ;;
    let shortSha1 := String.substring 0 7 (Js.removeAll "'" sha1) in
    info (Js.template ["Committed .NET SDK update to git ("; shortSha1; ")"]) ;;
    when (negb (UpdateOptions.dryRun options2) && hasRepo)
      (execGit options2 ["push"; "-u"; "origin"; branch] true ;;
       info (Js.template ["Pushed changes to repository ("; repo; ")"])) ;;
    Ret (Some base, options2)
  end.

Definition manifestVersion (globalJson : GlobalJson.t) : string :=
  match GlobalJson.sdk globalJson with
  | Some s =>
      match GlobalJson.version s with
      | Some v => v
      | None => EmptyString
      end
  | None => EmptyString
  end.

(** [tryUpdateSdk], with the options of the updater after the call. *)
Definition tryUpdateSdk (options : UpdateOptions.t) : Prog (UpdateResult.t * UpdateOptions.t) :=
  globalJson <- call (ReadGlobalJson (UpdateOptions.globalJsonPath options)) ;;
  let sdkVersion := manifestVersion globalJson in
  if negb (Js.truthy sdkVersion)
  then Fail (Js.Error (Js.template [".NET SDK version cannot be found in '";
                                    UpdateOptions.globalJsonPath options; "'."]))
  else
  optionsC <-
    (if negb (Js.truthy (UpdateOptions.channel options))
     then
       let versionParts := Js.split "." sdkVersion in
       if Z.of_nat (List.length versionParts) <? 2
       then Fail (Js.Error (Js.template [".NET SDK version '"; sdkVersion; "' is not valid."]))
       else Ret (UpdateOptions.with_channel options
                   (Js.template [nth 0 versionParts EmptyString; "."; nth 1 versionParts EmptyString]))
     else Ret options) ;;
  releaseChannel <- getDotNetReleaseChannel (UpdateOptions.channel optionsC) ;;
  match getLatestRelease localeCompare sdkVersion releaseChannel with
  | Throws e => Fail e
  | Return update =>
  let current := SdkVersions.current update in
  let latest := SdkVersions.latest update in
  let result :=
    UpdateResult.make None 0 EmptyString false false (ReleaseInfo.sdkVersion current) in
  info (Js.template ["Current .NET SDK version is "; ReleaseInfo.sdkVersion current]) ;;
  info (Js.template ["Current .NET runtime version is "; ReleaseInfo.runtimeVersion current]) ;;
  info (Js.template ["Latest .NET SDK version for channel '"; UpdateOptions.channel optionsC;
                     "' is "; ReleaseInfo.sdkVersion latest; " (runtime version ";
                     ReleaseInfo.runtimeVersion latest; ")"]) ;;
  if negb (ReleaseInfo.sdkVersion current =? ReleaseInfo.sdkVersion latest)%string
  then
    applied <- applySdkUpdate optionsC globalJson update ;;
    let '(baseBranch, optionsA) := applied in
    match baseBranch with
    | Some base =>
        if Js.truthy base
        then
          pullRequest <- createPullRequest optionsA base update ;;
          Ret (UpdateResult.make
                 (UpdateResult.branchName result)
                 (pr_number pullRequest)
                 (pr_url pullRequest)
                 true
                 (SdkVersions.security update)
                 (ReleaseInfo.sdkVersion latest),
               optionsA)
        else Ret (result, optionsA)
    | None => Ret (result, optionsA)
    end
  else
    info "The current .NET SDK version is up-to-date" ;;
    Ret (result, optionsC)
  end.

(** ** [run] of [main.ts] *)

Definition getInput (name : string) (required : bool) : Prog string :=
  call (GetInput name required).

Definition setOutput (name : string) (v : value) : Prog unit :=
  call (SetOutput name v).

Definition run : Prog unit :=
  tryCatch
    (accessToken <- getInput "repo-token" true ;;
     globalJsonFileName <- getInput "global-json-file" true ;;
     globalJsonPath <- call (PathResolve globalJsonFileName) ;;
     found <- call (ExistsSync globalJsonPath) ;;
     if negb found
     then call (SetFailed (Js.template ["The global.json file '"; globalJsonPath; "' cannot be found."]))
     else
       context <- call NewContext ;;
       branch <- getInput "branch-name" false ;;
       channel <- getInput "channel" false ;;
       commitMessage <- getInput "commit-message" false ;;
       commitMessagePrefix <- getInput "commit-message-prefix" false ;;
       dryRun <- getInput "dry-run" false ;;
       generateStepSummary <- getInput "generate-step-summary" false ;;
       labels <- getInput "labels" false ;;
       quality <- getInput "quality" false ;;
       repo <- call (GetEnv "GITHUB_REPOSITORY") ;;
       userEmail <- getInput "user-email" false ;;
       userName <- getInput "user-name" false ;;
       let options :=
         UpdateOptions.make accessToken (ctx_apiUrl context) branch channel commitMessage
           commitMessagePrefix (dryRun =? "true")%string (generateStepSummary =? "true")%string
           globalJsonPath labels quality repo (Js.toString (Js.Num (ctx_runId context)))
           (ctx_serverUrl context) userEmail userName in
       updated <- tryUpdateSdk options ;;
       let result := fst updated in
       setOutput "branch-name" (optionalString (UpdateResult.branchName result)) ;;
       setOutput "pull-request-number" (VNumber (UpdateResult.pullRequestNumber result)) ;;
       setOutput "pull-request-html-url" (VString (UpdateResult.pullRequestUrl result)) ;;
       setOutput "sdk-updated" (VBoolean (UpdateResult.updated result)) ;;
       setOutput "sdk-version" (VString (UpdateResult.version result)) ;;
       setOutput "security" (VBoolean (UpdateResult.security result)))
    (fun err =>
       error "Failed to check for updates to .NET SDK" ;;
       error (errorToString err) ;;
       call (SetFailed (Js.message err))).

End Updater.

(** ** Definitions used to state the properties *)

Local Open Scope list_scope.

Definition hasAlternate (sdkVersion : string) (info : Release.t) : bool :=
  match Release.sdks info with
  | Some sdks => existsb (fun sdk => (Sdk.version sdk =? sdkVersion)%string) sdks
  | None => false
  end.

(** The channel with every alternate-descriptor list set to [null]. *)
Definition withoutAlternates (channel : ReleaseChannel.t) : ReleaseChannel.t :=
  ReleaseChannel.make
    (ReleaseChannel.channel_version channel) (ReleaseChannel.latest_release channel)
    (ReleaseChannel.latest_release_date channel) (ReleaseChannel.latest_runtime channel)
    (ReleaseChannel.latest_sdk channel) (ReleaseChannel.release_type channel)
    (ReleaseChannel.support_phase channel) (ReleaseChannel.eol_date channel)
    (ReleaseChannel.lifecycle_policy channel)
    (map (fun r => Release.make (Release.release_date r) (Release.release_version r)
                     (Release.security r) (Release.cve_list r) (Release.release_notes r)
                     (Release.runtime r) (Release.sdk r) None (Release.aspnetcore_runtime r))
         (ReleaseChannel.releases channel)).

(** The [ReleaseInfo] built from a release and the descriptor found. *)
Definition infoOf (release : Release.t) (found : Sdk.t) : ReleaseInfo.t :=
  ReleaseInfo.make (Release.release_notes release) (Runtime.version (Release.runtime release))
    (Sdk.version found) (Release.security release)
    (if Release.security release
     then match Release.cve_list release with
          | Some issues => mapCves issues
          | None => []
          end
     else []).

(** Small channels for the examples. *)
Definition mkSdk (v : string) : Sdk.t := Sdk.make v v EmptyString.

Definition mkRelease (runtimeVersion sdkVersion : string) (alternates : option (list string))
  (security : bool) (cves : option (list string)) : Release.t :=
  Release.make EmptyString runtimeVersion security
    (option_map (map (fun c => Cve.make c (Js.template ["https://cve.example/"; c]))) cves)
    (Js.template ["https://notes.example/"; runtimeVersion])
    (Runtime.make runtimeVersion runtimeVersion)
    (mkSdk sdkVersion)
    (option_map (map mkSdk) alternates)
    (Runtime.make runtimeVersion runtimeVersion).

Definition mkChannel (latestSdk : string) (releases : list Release.t) : ReleaseChannel.t :=
  ReleaseChannel.make "8.0" EmptyString EmptyString EmptyString latestSdk "lts" "active"
    EmptyString EmptyString releases.

Definition channelC4 : ReleaseChannel.t :=
  mkChannel "8.0.201"
    [ mkRelease "8.0.2" "8.0.201" (Some ["8.0.201"; "8.0.102"]) true (Some ["CVE-2024-0002"]);
      mkRelease "8.0.1" "8.0.101" (Some ["8.0.101"; "8.0.102"]) false None ].


Definition channelC10 : ReleaseChannel.t :=
  mkChannel "8.0.100"
    [ mkRelease "8.0.1" "8.0.100" (Some ["8.0.100"]) false None;
      mkRelease "8.0.0" "8.0.100" None false None ].

(** Decimal digits as a list, to reason about [Js.natToString]. *)
Definition digitString (ds : list Z) : string :=
  fold_right (fun d s => String (Js.digitChar d) s) EmptyString ds.

Fixpoint digitList (fuel : nat) (n : Z) (acc : list Z) : list Z :=
  match fuel with
  | O => acc
  | S fuel' =>
      let acc' := (n mod 10) :: acc in
      if n / 10 =? 0 then acc' else digitList fuel' (n / 10) acc'
  end.

Definition isDigit (d : Z) : Prop := 0 <= d < 10.


(** The integer value of a dot-separated segment. *)
Definition segment (i : nat) (version : string) : Js.num :=
  Js.parseInt (nth_error (Js.split "." version) i).

(** A version string printed from three integers. *)
Definition dotted (major minor patch : Z) : string :=
  patchVersion (Js.Num major) (Js.Num minor) patch.



(** Comparison by code units, standing for [localeCompare] in the examples:
    the identifiers compared there differ in digits only. *)
Definition ordinalCompare (a b : string) : Z :=
  match String.compare a b with
  | Lt => -1
  | Eq => 0
  | Gt => 1
  end.

(** The patch number of a runtime version whose third segment exists and
    has no ['-']. *)
Definition stablePatch (runtimeVersion : string) : option Js.num :=
  match nth_error (Js.split "." runtimeVersion) 2 with
  | Some part => if Js.includes "-" part then None else Some (Js.parseInt (Some part))
  | None => None
  end.

(** The bounds of the patch loop when it runs: both patch numbers are
    stable integers and their difference exceeds 1. *)
Definition patchRange (current latest : ReleaseInfo.t) : option (Z * Z) :=
  match stablePatch (ReleaseInfo.runtimeVersion current),
        stablePatch (ReleaseInfo.runtimeVersion latest) with
  | Some (Js.Num c), Some (Js.Num l) => if l - c >? 1 then Some (c, l) else None
  | _, _ => None
  end.

(** The runtime version synthesized for a patch number between [current]
    and [latest]. *)
Definition gapVersion (current : ReleaseInfo.t) (patch : Z) : string :=
  patchVersion (segment 0 (ReleaseInfo.runtimeVersion current))
               (segment 1 (ReleaseInfo.runtimeVersion current)) patch.

Definition seedOf (latest : ReleaseInfo.t) : Aggregate :=
  mkAggregate (ReleaseInfo.security latest) (ReleaseInfo.securityIssues latest) true.

(** The advisories a release adds to the aggregate when the scan finds it. *)
Definition advisoriesOf (release : Release.t) : list CveInfo.t :=
  match Release.cve_list release with
  | Some cves => mapCves cves
  | None => []
  end.

Definition foundAt (channel : ReleaseChannel.t) (current : ReleaseInfo.t) (patch : Z)
  : list Release.t :=
  match findByRuntime (gapVersion current patch) channel with
  | Some release => [release]
  | None => []
  end.

(** The releases the gap scan finds, in the order of the scan; none when
    the loop does not run. *)
Definition scannedReleases (channel : ReleaseChannel.t) (current latest : ReleaseInfo.t)
  : list Release.t :=
  match patchRange current latest with
  | Some (c, l) => flat_map (foundAt channel current) (loopPatches c l)
  | None => []
  end.

(** A runtime version whose first three segments are numbers on which the
    embedding and the code agree. *)
Definition exactVersion (runtimeVersion : string) : Prop :=
  Js.exact (segment 0 runtimeVersion) /\
  Js.exact (segment 1 runtimeVersion) /\
  Js.exact (segment 2 runtimeVersion).

Definition sortedByIds (localeCompare : string -> string -> Z) (l : list CveInfo.t) : Prop :=
  Sorted (fun a b => localeCompare (CveInfo.id a) (CveInfo.id b) <= 0) l.

(** Current 8.0.100 (runtime 8.0.0, security release), latest 8.0.102
    (runtime 8.0.2): a patch delta of 2. *)
Definition channelC1 : ReleaseChannel.t :=
  mkChannel "8.0.102"
    [ mkRelease "8.0.2" "8.0.102" None false None;
      mkRelease "8.0.1" "8.0.101" None false None;
      mkRelease "8.0.0" "8.0.100" None true (Some ["CVE-2024-0001"]) ].

(** Current 8.0.100 is a security release, latest 8.0.101 is not: a patch
    delta of 1. *)
Definition channelC2 : ReleaseChannel.t :=
  mkChannel "8.0.101"
    [ mkRelease "8.0.1" "8.0.101" None false None;
      mkRelease "8.0.0" "8.0.100" None true (Some ["CVE-2024-0001"]) ].

(** The latest release 8.0.3 and the skipped release 8.0.2 both list
    CVE-2024-0007; the skipped release 8.0.1 lists CVE-2024-0003. *)
Definition channelC3 : ReleaseChannel.t :=
  mkChannel "8.0.103"
    [ mkRelease "8.0.3" "8.0.103" None true (Some ["CVE-2024-0007"]);
      mkRelease "8.0.2" "8.0.102" None true (Some ["CVE-2024-0007"]);
      mkRelease "8.0.1" "8.0.101" None true (Some ["CVE-2024-0003"]);
      mkRelease "8.0.0" "8.0.100" None false None ].

Definition advisory (identifier : string) : CveInfo.t :=
  CveInfo.make identifier (Js.template ["https://cve.example/"; identifier]).

(** ** Observations on the log of a run *)

Definition gitCommand {X : Type} (e : Event X) : option (list string) :=
  match e with
  | Exec commandLine args _ _ => if (commandLine =? "git")%string then Some args else None
  | _ => None
  end.

Definition isGit {X : Type} (subcommand : string) (e : Event X) : bool :=
  match gitCommand e with
  | Some (first :: _) => (first =? subcommand)%string
  | _ => false
  end.

(** [git rev-parse --verify --quiet <ref>], the branch-existence check. *)
Definition isBranchCheck {X : Type} (e : Event X) : bool :=
  match gitCommand e with
  | Some [a; b; c; _] => (a =? "rev-parse")%string && (b =? "--verify")%string && (c =? "--quiet")%string
  | _ => false
  end.

Definition execStdout {X : Type} (e : Event X) : Reply X -> option string :=
  match e in Event T return Reply T -> option string with
  | Exec _ _ _ _ => fun r => match r with
                             | Returned out => Some (stdout out)
                             | Raised _ => None
                             end
  | _ => fun _ => None
  end.

(** The branch-existence check answered with the name of a commit: the
    remote branch exists. *)
Definition branchFound (i : Interaction) : bool :=
  match i with
  | Interacted e r =>
      isBranchCheck e &&
      match execStdout e r with
      | Some out => Js.truthy (Js.trimEnd out)
      | None => false
      end
  end.

Definition isPullsCreate {X : Type} (e : Event X) : bool :=
  match e with
  | PullsCreate _ => true
  | _ => false
  end.

Definition isWrite {X : Type} (e : Event X) : bool :=
  match e with
  | WriteFileSync _ _ => true
  | _ => false
  end.

Definition isExec {X : Type} (e : Event X) : bool :=
  match e with
  | Exec _ _ _ _ => true
  | _ => false
  end.

(** A checkout, a commit, a push or the creation of a pull request. *)
Definition updateStep (i : Interaction) : bool :=
  match i with
  | Interacted e _ =>
      isGit "checkout" e || isGit "commit" e || isGit "push" e || isPullsCreate e
  end.

(** A write to a file, a command, or a call of the hosting API. *)
Definition mutation (i : Interaction) : bool :=
  match i with
  | Interacted e _ =>
      isWrite e || isExec e || isPullsCreate e ||
      match e with
      | AddLabels _ _ _ _ => true
      | _ => false
      end
  end.

(** Properties of a program over all the answers it can get. *)
Section Paths.

Context {A : Type}.

(** No interaction of any run is [bad]. *)
Fixpoint never (bad : Interaction -> bool) (p : Prog A) : Prop :=
  match p with
  | Ret _ => True
  | Fail _ => True
  | Vis e k => forall r, bad (Interacted e r) = false /\ never bad (k r)
  end.

(** Every run that returns, returns a value in [Q]. *)
Fixpoint returns (Q : A -> Prop) (p : Prog A) : Prop :=
  match p with
  | Ret a => Q a
  | Fail _ => True
  | Vis e k => forall r, returns Q (k r)
  end.

(** Every run returns a value in [Q] and makes no update step. *)
Fixpoint clean (Q : A -> Prop) (p : Prog A) : Prop :=
  match p with
  | Ret a => Q a
  | Fail _ => False
  | Vis e k => forall r, updateStep (Interacted e r) = false /\ clean Q (k r)
  end.

(** A run that finds the branch makes no update step, before or after, and
    returns a value in [Q]. *)
Fixpoint stopsWhenFound (Q : A -> Prop) (p : Prog A) : Prop :=
  match p with
  | Ret _ => True
  | Fail _ => True
  | Vis e k =>
      forall r,
        if branchFound (Interacted e r)
        then updateStep (Interacted e r) = false /\ clean Q (k r)
        else if updateStep (Interacted e r)
             then never branchFound (k r)
             else stopsWhenFound Q (k r)
  end.

End Paths.

Definition quiet {A : Type} (p : Prog A) : Prop :=
  never (fun i => branchFound i || updateStep i) p.

(** A run of the action on the manifest [8.0.100] in the channel of C2,
    whose latest SDK is 8.0.101. [branchExists] is what the world prints for
    the branch-existence check. *)
Definition manifestC : GlobalJson.t :=
  GlobalJson.make (Some (GlobalJson.make_sdk (Some "8.0.100"))) EmptyString.

Definition worldC (feed : ReleaseChannel.t) (branchExists : string) : World :=
  fun X _ e =>
    match e in Event T return Reply T with
    | ReadGlobalJson _ => Returned manifestC
    | WriteFileSync _ _ => Returned tt
    | ExistsSync _ => Returned true
    | PathResolve path => Returned (Js.template ["/repo/"; path])
    | Exec _ args _ _ =>
        if isBranchCheck (Exec "git" args EmptyString true)
        then Returned (mkExecOutput branchExists EmptyString)
        else if isGit "rev-parse" (Exec "git" args EmptyString true)
        then Returned (mkExecOutput (Js.template ["main"; Js.LF]) EmptyString)
        else Returned (mkExecOutput EmptyString EmptyString)
    | GetJson _ => Returned (mkJsonResponse 200 (Some feed))
    | GetOctokit _ _ => Returned tt
    | PullsCreate request =>
        Returned (mkPullRequestData 7 (req_title request) "https://github.example/o/r/pull/7" "{}")
    | AddLabels _ _ _ _ => Returned tt
    | NewContext => Returned (mkContext "https://api.github.example" 42 "https://github.example")
    | GetEnv _ => Returned (Some "o/r")
    | GetInput name _ =>
        Returned (if (name =? "global-json-file")%string then "global.json"
                  else if (name =? "repo-token")%string then "token"
                  else EmptyString)
    | SetOutput _ _ => Returned tt
    | SetFailed _ => Returned tt
    | CoreInfo _ => Returned tt
    | CoreDebug _ => Returned tt
    | CoreError _ => Returned tt
    end.

Definition optionsC : UpdateOptions.t :=
  UpdateOptions.make "token" "https://api.github.example" EmptyString EmptyString EmptyString
    EmptyString false false "/repo/global.json" EmptyString EmptyString (Some "o/r") "42"
    "https://github.example" EmptyString EmptyString.

(** A stand-in for [path.dirname] on POSIX paths of the examples. *)
Definition dirnameC (path : string) : string := "/repo".

Definition outputs (i : Interaction) : list (string * value) :=
  match i with
  | Interacted e _ =>
      match e with
      | SetOutput name v => [(name, v)]
      | _ => []
      end
  end.

Definition gitCommands (i : Interaction) : list (list string) :=
  match i with
  | Interacted e _ =>
      match gitCommand e with
      | Some args => [args]
      | None => []
      end
  end.

(** The channel [tryUpdateSdk] fetches: the configured one, or the first
    two segments of the manifest's version. *)
Definition resolvedChannel (options : UpdateOptions.t) (sdkVersion : string) : string :=
  if Js.truthy (UpdateOptions.channel options) then UpdateOptions.channel options
  else Js.template [nth 0 (Js.split "." sdkVersion) EmptyString; ".";
                    nth 1 (Js.split "." sdkVersion) EmptyString].

(** The calls made before the feed is fetched. *)
Definition fetchHistory (options : UpdateOptions.t) (channel : string) : list Call :=
  [ Called (ReadGlobalJson (UpdateOptions.globalJsonPath options));
    Called (CoreDebug (Js.template ["Downloading .NET "; channel; " release notes JSON from ";
                                    releasesUrl channel; "..."])) ].

(** The feed of C2 with 8.0.100 as its latest SDK. *)
Definition channelC7 : ReleaseChannel.t :=
  mkChannel "8.0.100" (ReleaseChannel.releases channelC2).

(** The output ['branch-name'] set to a value other than [undefined]. *)
Definition branchNameSet (i : Interaction) : bool :=
  match i with
  | Interacted e _ =>
      match e with
      | SetOutput name v =>
          (name =? "branch-name")%string &&
          match v with
          | VUndefined => false
          | _ => true
          end
      | _ => false
      end
  end.

(** ** Further definitions used to state properties *)

(** The fields of a [ReleaseInfo] other than its advisory list. *)
Definition sameRelease (a b : ReleaseInfo.t) : Prop :=
  ReleaseInfo.releaseNotes a = ReleaseInfo.releaseNotes b /\
  ReleaseInfo.runtimeVersion a = ReleaseInfo.runtimeVersion b /\
  ReleaseInfo.sdkVersion a = ReleaseInfo.sdkVersion b /\
  ReleaseInfo.security a = ReleaseInfo.security b.

(** Whether the scan, at this patch, finds a release that has a
    ['cve-list']. *)
Definition appendsAt (channel : ReleaseChannel.t) (current : ReleaseInfo.t) (patch : Z) : bool :=
  match findByRuntime (gapVersion current patch) channel with
  | Some release =>
      match Release.cve_list release with
      | Some _ => true
      | None => false
      end
  | None => false
  end.

(** The parts of the text of a pull request. *)
Definition bodyIntro (update : SdkVersions.t) : string :=
  let latest := SdkVersions.latest update in
  let current := SdkVersions.current update in
  if (ReleaseInfo.runtimeVersion latest =? ReleaseInfo.runtimeVersion current)%string
  then Js.template ["Updates the .NET SDK to version `"; ReleaseInfo.sdkVersion latest; "`, ";
                    "which includes version [``"; ReleaseInfo.runtimeVersion latest; "``](";
                    ReleaseInfo.releaseNotes latest; ") of the .NET runtime."]
  else Js.template ["Updates the .NET SDK to version `"; ReleaseInfo.sdkVersion latest; "`, ";
                    "which also updates the .NET runtime from version [``";
                    ReleaseInfo.runtimeVersion current; "``]("; ReleaseInfo.releaseNotes current;
                    ") to version [``"; ReleaseInfo.runtimeVersion latest; "``](";
                    ReleaseInfo.releaseNotes latest; ")."].

Definition bodyBullet (issue : CveInfo.t) : string :=
  Js.template [Js.LF; "  * ["; CveInfo.id issue; "]("; CveInfo.url issue; ")"].

Definition bodyAdvisories (issues : list CveInfo.t) : string :=
  String.append
    (Js.template [Js.LF; Js.LF; "This release includes fixes for the following security issue(s):"])
    (fold_right (fun issue rest => String.append (bodyBullet issue) rest) EmptyString issues).

Definition bodyFooter (options : UpdateOptions.t) : string :=
  Js.template [Js.LF; Js.LF;
               "This pull request was auto-generated by [GitHub Actions]("; UpdateOptions.serverUrl options;
               "/"; orUndefined (UpdateOptions.repo options); "/actions/runs/"; UpdateOptions.runId options; ")."].

Definition withIssues (update : SdkVersions.t) (issues : list CveInfo.t) : SdkVersions.t :=
  SdkVersions.make (SdkVersions.current update) (SdkVersions.latest update)
    (SdkVersions.security update) issues.

(** Runtime versions with fewer than three segments, and a pre-release one. *)
Definition channelX2 : ReleaseChannel.t :=
  mkChannel "8.0.101"
    [ mkRelease "8.0" "8.0.101" None false None;
      mkRelease "8.0.0-rc.1" "8.0.100" None false None;
      mkRelease "8" "8.0.99" None false None ].

Definition runtimeOf (release : Release.t) : string :=
  Runtime.version (Release.runtime release).

(** ** Order of the interactions of a run *)

Definition execOutput {X : Type} (e : Event X) : Reply X -> option ExecOutput :=
  match e in Event T return Reply T -> option ExecOutput with
  | Exec _ _ _ _ => fun r => match r with
                             | Returned out => Some out
                             | Raised _ => None
                             end
  | _ => fun _ => None
  end.

Definition jsonResponse {X : Type} (e : Event X) : Reply X -> option JsonResponse :=
  match e in Event T return Reply T -> option JsonResponse with
  | GetJson _ => fun r => match r with
                          | Returned response => Some response
                          | Raised _ => None
                          end
  | _ => fun _ => None
  end.

(** The feed was fetched: a status below 400 and a document. *)
Definition feedObtained (i : Interaction) : bool :=
  match i with
  | Interacted e r =>
      match jsonResponse e r with
      | Some response =>
          (statusCode response <? 400) &&
          match response_result response with
          | Some _ => true
          | None => false
          end
      | None => false
      end
  end.

(** [git rev-parse --abbrev-ref HEAD] returned and printed nothing on its
    error stream. *)
Definition headResolved (i : Interaction) : bool :=
  match i with
  | Interacted e r =>
      match gitCommand e with
      | Some [a; b; c] => (a =? "rev-parse")%string && (b =? "--abbrev-ref")%string && (c =? "HEAD")%string
      | _ => false
      end &&
      match execOutput e r with
      | Some out => negb (Js.truthy (stderr out))
      | None => false
      end
  end.

(** The branch-existence check returned and printed no commit. *)
Definition branchAbsent (i : Interaction) : bool :=
  match i with
  | Interacted e r =>
      isBranchCheck e &&
      match execOutput e r with
      | Some out => negb (Js.truthy (Js.trimEnd (stdout out)))
      | None => false
      end
  end.

(** [git commit] returned and printed nothing on its error stream. *)
Definition committed (i : Interaction) : bool :=
  match i with
  | Interacted e r =>
      isGit "commit" e &&
      match execOutput e r with
      | Some out => negb (Js.truthy (stderr out))
      | None => false
      end
  end.

Definition writes (i : Interaction) : bool :=
  match i with
  | Interacted e _ => isWrite e
  end.

(** A push, the creation of a pull request or the labelling of one. *)
Definition publishes (i : Interaction) : bool :=
  match i with
  | Interacted e _ =>
      isGit "push" e || isPullsCreate e ||
      match e with
      | AddLabels _ _ _ _ => true
      | _ => false
      end
  end.

(** A command that reaches the remote repository or its configuration. *)
Definition touchesRemote (i : Interaction) : bool :=
  match i with
  | Interacted e _ => isGit "remote" e || isGit "fetch" e || isGit "push" e
  end.

(** Along every run of [p], no interaction is [guarded] up to and
    including the first [trigger]; a run that returns without a trigger
    returns a value in [Q]. *)
Fixpoint before {A : Type} (trigger guarded : Interaction -> bool) (Q : A -> Prop) (p : Prog A)
  : Prop :=
  match p with
  | Ret a => Q a
  | Fail _ => True
  | Vis e k =>
      forall r,
        guarded (Interacted e r) = false /\
        if trigger (Interacted e r) then True else before trigger guarded Q (k r)
  end.

(** On a log: no [guarded] interaction before the first [trigger]. *)
Fixpoint noneBefore (trigger guarded : Interaction -> bool) (log : list Interaction) : bool :=
  match log with
  | [] => true
  | i :: rest => if trigger i then true else negb (guarded i) && noneBefore trigger guarded rest
  end.

(** ** Configuration of a run *)

(** Whether a repository is configured ([GITHUB_REPOSITORY] is set and not
    empty). *)
Definition hasRepository (options : UpdateOptions.t) : bool :=
  match UpdateOptions.repo options with
  | Some r => Js.truthy r
  | None => false
  end.

(** The branch and the commit message [applySdkUpdate] works with: the
    configured ones, or the ones derived from the versions. *)
Definition effectiveBranch (options : UpdateOptions.t) (versions : SdkVersions.t) : string :=
  if Js.truthy (UpdateOptions.branch options) then UpdateOptions.branch options
  else Js.toLowerCase
         (Js.template ["update-dotnet-sdk-"; ReleaseInfo.sdkVersion (SdkVersions.latest versions)]).

Definition effectiveMessage (options : UpdateOptions.t) (versions : SdkVersions.t) : string :=
  if Js.truthy (UpdateOptions.commitMessage options) then UpdateOptions.commitMessage options
  else generateCommitMessage (ReleaseInfo.sdkVersion (SdkVersions.current versions))
         (ReleaseInfo.sdkVersion (SdkVersions.latest versions)).

Fixpoint sameArgs (a b : list string) : bool :=
  match a, b with
  | [], [] => true
  | x :: a', y :: b' => (x =? y)%string && sameArgs a' b'
  | _, _ => false
  end.

(** A branch check, checkout, commit or push that is not the one planned
    for this branch and this message. *)
Definition offPlan (branch message : string) (i : Interaction) : bool :=
  match i with
  | Interacted e _ =>
      match gitCommand e with
      | Some args =>
          if isBranchCheck e
          then negb (sameArgs args ["rev-parse"; "--verify"; "--quiet";
                                    Js.template ["remotes/origin/"; branch]])
          else if isGit "checkout" e then negb (sameArgs args ["checkout"; "-b"; branch])
          else if isGit "commit" e then negb (sameArgs args ["commit"; "-m"; message; "-s"])
          else if isGit "push" e then negb (sameArgs args ["push"; "-u"; "origin"; branch])
          else false
      | None => false
      end
  end.

Definition withDryRun (o : UpdateOptions.t) (dry : bool) : UpdateOptions.t :=
  UpdateOptions.make (UpdateOptions.accessToken o) (UpdateOptions.apiUrl o) (UpdateOptions.branch o)
    (UpdateOptions.channel o) (UpdateOptions.commitMessage o) (UpdateOptions.commitMessagePrefix o)
    dry (UpdateOptions.generateStepSummary o) (UpdateOptions.globalJsonPath o)
    (UpdateOptions.labels o) (UpdateOptions.quality o) (UpdateOptions.repo o)
    (UpdateOptions.runId o) (UpdateOptions.serverUrl o) (UpdateOptions.userEmail o)
    (UpdateOptions.userName o).

Definition withRepo (o : UpdateOptions.t) (repo : option string) : UpdateOptions.t :=
  UpdateOptions.make (UpdateOptions.accessToken o) (UpdateOptions.apiUrl o) (UpdateOptions.branch o)
    (UpdateOptions.channel o) (UpdateOptions.commitMessage o) (UpdateOptions.commitMessagePrefix o)
    (UpdateOptions.dryRun o) (UpdateOptions.generateStepSummary o) (UpdateOptions.globalJsonPath o)
    (UpdateOptions.labels o) (UpdateOptions.quality o) repo
    (UpdateOptions.runId o) (UpdateOptions.serverUrl o) (UpdateOptions.userEmail o)
    (UpdateOptions.userName o).

(** The update from 8.0.100 to 8.0.101 of the channel of C2. *)
Definition updateC : SdkVersions.t :=
  SdkVersions.make
    (ReleaseInfo.make "https://notes.example/8.0.0" "8.0.0" "8.0.100" true [advisory "CVE-2024-0001"])
    (ReleaseInfo.make "https://notes.example/8.0.1" "8.0.1" "8.0.101" false [])
    false [].

(** ** Failures of a run *)

(** A call of [core.setFailed] that threw. *)
Definition raisedSetFailed (i : Interaction) : bool :=
  match i with
  | Interacted e r =>
      match e in Event T return Reply T -> bool with
      | SetFailed _ => fun r => match r with
                                | Raised _ => true
                                | Returned _ => false
                                end
      | _ => fun _ => false
      end r
  end.

(** Every run of [p] returns, unless a call of [core.setFailed] throws. *)
Fixpoint settles {A : Type} (p : Prog A) : Prop :=
  match p with
  | Ret _ => True
  | Fail _ => False
  | Vis e k => forall r, raisedSetFailed (Interacted e r) = true \/ settles (k r)
  end.

(** The world of the examples, with another manifest. *)
Definition worldManifest (globalJson : GlobalJson.t) : World :=
  fun X history e =>
    match e in Event T return Reply T -> Reply T with
    | ReadGlobalJson _ => fun _ => Returned globalJson
    | _ => fun r => r
    end (worldC channelC2 EmptyString X history e).

(** The world of the examples, without the manifest file. *)
Definition worldMissing : World :=
  fun X history e =>
    match e in Event T return Reply T -> Reply T with
    | ExistsSync _ => fun _ => Returned false
    | _ => fun r => r
    end (worldC channelC2 EmptyString X history e).

(** The world of the examples, where labelling a pull request fails. *)
Definition worldNoLabels : World :=
  fun X history e =>
    match e in Event T return Reply T -> Reply T with
    | AddLabels _ _ _ _ => fun _ => Raised (Js.Error "Validation Failed")
    | _ => fun r => r
    end (worldC channelC2 EmptyString X history e).

(** The pull requests asked for. *)
Definition pullRequests (i : Interaction) : list PullRequestRequest :=
  match i with
  | Interacted e _ =>
      match e with
      | PullsCreate request => [request]
      | _ => []
      end
  end.

(** The requests to label an issue. *)
Definition labelRequests (i : Interaction) : list (Z * list string) :=
  match i with
  | Interacted e _ =>
      match e with
      | AddLabels _ _ issue_number labels => [(issue_number, labels)]
      | _ => []
      end
  end.

Definition withLabels (o : UpdateOptions.t) (labels : string) : UpdateOptions.t :=
  UpdateOptions.make (UpdateOptions.accessToken o) (UpdateOptions.apiUrl o) (UpdateOptions.branch o)
    (UpdateOptions.channel o) (UpdateOptions.commitMessage o) (UpdateOptions.commitMessagePrefix o)
    (UpdateOptions.dryRun o) (UpdateOptions.generateStepSummary o) (UpdateOptions.globalJsonPath o)
    labels (UpdateOptions.quality o) (UpdateOptions.repo o)
    (UpdateOptions.runId o) (UpdateOptions.serverUrl o) (UpdateOptions.userEmail o)
    (UpdateOptions.userName o).

(** The first calls of [run], up to the test that the manifest exists. *)
Definition startCalls (file path : string) : list Call :=
  [ Called (GetInput "repo-token" true);
    Called (GetInput "global-json-file" true);
    Called (PathResolve file);
    Called (ExistsSync path) ].

(** A fetch of another URL than [url]. *)
Definition otherFetch (url : string) (i : Interaction) : bool :=
  match i with
  | Interacted e _ =>
      match e with
      | GetJson requestUrl => negb (requestUrl =? url)%string
      | _ => false
      end
  end.

(** * Properties *)

(** ** JavaScript strings and numbers, on examples *)

Example split_version : Js.split "." "8.0.101" = ["8"; "0"; "101"].
Proof. reflexivity. Qed.

Example split_empty : Js.split "." EmptyString = [EmptyString].
Proof. reflexivity. Qed.

Example parseInt_examples :
  Js.parseInt (Some "101") = Js.Num 101 /\
  Js.parseInt (Some "0-preview") = Js.Num 0 /\
  Js.parseInt (Some "rc") = Js.NaN /\
  Js.parseInt (Some " -7x") = Js.Num (-7) /\
  Js.parseInt None = Js.NaN.
Proof. repeat split; reflexivity. Qed.

Example toString_examples :
  Js.toString (Js.Num 0) = "0" /\ Js.toString (Js.Num 404) = "404" /\
  Js.toString (Js.Num (-12)) = "-12" /\ Js.toString Js.NaN = "NaN".
Proof. repeat split; reflexivity. Qed.

Example trimEnd_examples :
  Js.trimEnd (String.append "abc " Js.LF) = "abc" /\ Js.trimEnd (String.append " " Js.LF) = EmptyString /\ Js.trimEnd "a b" = "a b".
Proof. repeat split; reflexivity. Qed.

(** ** Decimal strings *)

Lemma isDigit_cases d : isDigit d ->
  d = 0 \/ d = 1 \/ d = 2 \/ d = 3 \/ d = 4 \/ d = 5 \/ d = 6 \/ d = 7 \/ d = 8 \/ d = 9.
Proof. unfold isDigit. lia. Qed.

Ltac digit_cases H :=
  apply isDigit_cases in H;
  repeat (destruct H as [H|H]); subst; reflexivity.

Lemma digitValue_digitChar d : isDigit d -> Js.digitValue (Js.digitChar d) = Some d.
Proof. intros H. digit_cases H. Qed.

Lemma digitChar_not_dot d : isDigit d -> Ascii.eqb (Js.digitChar d) "." = false.
Proof. intros H. digit_cases H. Qed.

Lemma digitChar_not_space d : isDigit d -> Js.isWhiteSpace (Js.digitChar d) = false.
Proof. intros H. digit_cases H. Qed.

Lemma digitChar_not_sign d : isDigit d ->
  Ascii.eqb (Js.digitChar d) "-" = false /\ Ascii.eqb (Js.digitChar d) "+" = false.
Proof. intros H. split; digit_cases H. Qed.

Lemma decimalDigits_digitList fuel : forall n acc,
  Js.decimalDigits fuel n (digitString acc) = digitString (digitList fuel n acc).
Proof.
  induction fuel as [|fuel IH]; intros n acc; simpl; [reflexivity|].
  destruct (n / 10 =? 0); [reflexivity|].
  apply (IH (n / 10) (n mod 10 :: acc)).
Qed.

Lemma digitList_digits fuel : forall n acc,
  Forall isDigit acc -> Forall isDigit (digitList fuel n acc).
Proof.
  induction fuel as [|fuel IH]; intros n acc Hacc; simpl; [exact Hacc|].
  assert (Forall isDigit (n mod 10 :: acc)).
  { constructor; [|exact Hacc]. unfold isDigit. apply Z.mod_pos_bound. lia. }
  destruct (n / 10 =? 0); auto.
Qed.

Lemma digitList_keeps_nonempty fuel : forall n acc,
  acc <> [] -> digitList fuel n acc <> [].
Proof.
  induction fuel as [|fuel IH]; intros n acc Hacc; simpl; [exact Hacc|].
  destruct (n / 10 =? 0); [discriminate|]. apply IH. discriminate.
Qed.

Lemma digitList_nonempty fuel n : digitList (S fuel) n [] <> [].
Proof.
  simpl. destruct (n / 10 =? 0); [discriminate|].
  apply digitList_keeps_nonempty. discriminate.
Qed.

Lemma digitList_value fuel : forall n acc,
  0 <= n < 2 ^ Z.of_nat fuel ->
  fold_left (fun a d => 10 * a + d) (digitList fuel n acc) 0 =
  fold_left (fun a d => 10 * a + d) acc n.
Proof.
  induction fuel as [|fuel IH]; intros n acc Hn.
  - simpl in *. assert (n = 0) by lia. now subst.
  - cbn [digitList]. assert (Hdm : n = 10 * (n / 10) + n mod 10) by (apply Z.div_mod; lia).
    destruct (n / 10 =? 0) eqn:Hq.
    + apply Z.eqb_eq in Hq. cbn [fold_left]. f_equal. lia.
    + rewrite IH.
      * cbn [fold_left]. f_equal. symmetry. exact Hdm.
      * rewrite Nat2Z.inj_succ, Z.pow_succ_r in Hn by lia.
        split; [apply Z.div_pos; lia|].
        apply Z.div_lt_upper_bound; lia.
Qed.

Lemma log2_fuel n : 0 <= n -> 0 <= n < 2 ^ Z.of_nat (S (Z.to_nat (Z.log2 n))).
Proof.
  intros Hn. rewrite Nat2Z.inj_succ, Z2Nat.id by apply Z.log2_nonneg.
  destruct (Z.eq_dec n 0) as [->|Hne]; [simpl; lia|].
  assert (0 < n) as Hpos by lia. pose proof (Z.log2_spec n Hpos). lia.
Qed.

Lemma natToString_digits n :
  Js.natToString n = digitString (digitList (S (Z.to_nat (Z.log2 n))) n []).
Proof. unfold Js.natToString. apply (decimalDigits_digitList _ n []). Qed.

Lemma leadingDigits_digitString ds :
  Forall isDigit ds -> Js.leadingDigits (digitString ds) = ds.
Proof.
  induction 1 as [|d ds Hd _ IH]; [reflexivity|].
  change (digitString (d :: ds)) with (String (Js.digitChar d) (digitString ds)).
  cbn [Js.leadingDigits].
  rewrite (digitValue_digitChar d Hd). now rewrite IH.
Qed.

Lemma includes_dot_digitString ds :
  Forall isDigit ds -> Js.includes "." (digitString ds) = false.
Proof.
  induction 1 as [|d ds Hd _ IH]; [reflexivity|].
  change (digitString (d :: ds)) with (String (Js.digitChar d) (digitString ds)).
  cbn [Js.includes].
  rewrite (digitChar_not_dot d Hd). exact IH.
Qed.

Lemma parseInt_unsigned c rest :
  Js.isWhiteSpace c = false -> Ascii.eqb c "-" = false -> Ascii.eqb c "+" = false ->
  Js.parseInt (Some (String c rest)) =
    match Js.leadingDigits (String c rest) with
    | [] => Js.NaN
    | ds => Js.Num (Js.digitsValue ds)
    end.
Proof.
  intros Hspace Hminus Hplus. unfold Js.parseInt. cbn [Js.trimStart]. rewrite Hspace.
  destruct c as [b0 b1 b2 b3 b4 b5 b6 b7].
  destruct b0, b1, b2, b3, b4, b5, b6, b7; try discriminate Hminus; try discriminate Hplus;
    reflexivity.
Qed.

Lemma parseInt_minus rest :
  Js.parseInt (Some (String "-" rest)) =
    match Js.leadingDigits rest with
    | [] => Js.NaN
    | ds => Js.Num (- Js.digitsValue ds)
    end.
Proof. reflexivity. Qed.

Lemma natToString_value n : 0 <= n ->
  exists d ds,
    Js.natToString n = String (Js.digitChar d) (digitString ds) /\
    isDigit d /\ Forall isDigit ds /\ Js.digitsValue (d :: ds) = n.
Proof.
  intros Hn. rewrite natToString_digits.
  pose proof (digitList_digits (S (Z.to_nat (Z.log2 n))) n [] (Forall_nil _)) as Hds.
  pose proof (digitList_nonempty (Z.to_nat (Z.log2 n)) n) as Hne.
  pose proof (digitList_value (S (Z.to_nat (Z.log2 n))) n [] (log2_fuel n Hn)) as Hv.
  destruct (digitList (S (Z.to_nat (Z.log2 n))) n []) as [|d ds]; [congruence|].
  inversion Hds as [|? ? Hd Hrest]; subst.
  exists d, ds. repeat split; try assumption; apply Hd.
Qed.

Lemma leadingDigits_natToString n : 0 <= n ->
  exists d ds, Js.leadingDigits (Js.natToString n) = d :: ds /\ Js.digitsValue (d :: ds) = n.
Proof.
  intros Hn. destruct (natToString_value n Hn) as [d [ds [Hs [Hd [Hds Hv]]]]].
  exists d, ds. split; [|exact Hv]. rewrite Hs.
  change (String (Js.digitChar d) (digitString ds)) with (digitString (d :: ds)).
  apply leadingDigits_digitString. now constructor.
Qed.

Lemma parseInt_natToString n : 0 <= n -> Js.parseInt (Some (Js.natToString n)) = Js.Num n.
Proof.
  intros Hn. destruct (leadingDigits_natToString n Hn) as [d' [ds' [Hlead Hval]]].
  destruct (natToString_value n Hn) as [d [ds [Hs [Hd _]]]].
  destruct (digitChar_not_sign d Hd) as [Hminus Hplus].
  rewrite Hs in *. rewrite parseInt_unsigned by (auto using digitChar_not_space).
  rewrite Hlead. now rewrite Hval.
Qed.

(** [parseInt] reads back what the number-to-string conversion printed. *)
Lemma parseInt_toString z : Js.parseInt (Some (Js.toString (Js.Num z))) = Js.Num z.
Proof.
  unfold Js.toString. destruct (z <? 0) eqn:Hneg.
  - apply Z.ltb_lt in Hneg. rewrite parseInt_minus.
    destruct (leadingDigits_natToString (- z)) as [d [ds [Hlead Hval]]]; [lia|].
    rewrite Hlead, Hval. f_equal. lia.
  - apply Z.ltb_ge in Hneg. now apply parseInt_natToString.
Qed.

Lemma includes_dot_toString x : Js.includes "." (Js.toString x) = false.
Proof.
  destruct x as [|z]; [reflexivity|]. unfold Js.toString.
  destruct (z <? 0); cbn [Js.includes]; rewrite natToString_digits;
    rewrite includes_dot_digitString; try reflexivity;
    apply digitList_digits; constructor.
Qed.

Lemma split_no_dot s : Js.includes "." s = false -> Js.split "." s = [s].
Proof.
  induction s as [|c s IH]; simpl; [reflexivity|].
  intros H. apply orb_false_iff in H. destruct H as [Hc Hs].
  rewrite Hc, (IH Hs). reflexivity.
Qed.

Lemma split_dot_app a b :
  Js.includes "." a = false ->
  Js.split "." (String.append a (String "." b)) = a :: Js.split "." b.
Proof.
  induction a as [|c a IH]; simpl; [reflexivity|].
  intros H. apply orb_false_iff in H. destruct H as [Hc Ha].
  rewrite Hc, (IH Ha). reflexivity.
Qed.

Lemma append_assoc a b c :
  String.append (String.append a b) c = String.append a (String.append b c).
Proof. induction a as [|x a IH]; simpl; [reflexivity|]. now rewrite IH. Qed.

Lemma template_dotted a b c :
  Js.template [a; "."; b; "."; c] = String.append a (String "." (String.append b (String "." c))).
Proof. reflexivity. Qed.

Lemma split_patchVersion major minor patch :
  Js.split "." (patchVersion major minor patch) =
    [Js.toString major; Js.toString minor; Js.toString (Js.Num patch)].
Proof.
  unfold patchVersion. rewrite template_dotted.
  rewrite !split_dot_app by apply includes_dot_toString.
  now rewrite split_no_dot by apply includes_dot_toString.
Qed.

(** ** Version Matcher *)

Lemma alternateStep_hit v info f :
  hasAlternate v info = true ->
  exists d sdks, alternateStep v info f = (true, Some d) /\
                 Release.sdks info = Some sdks /\ In d sdks /\ Sdk.version d = v.
Proof.
  unfold hasAlternate, alternateStep. destruct (Release.sdks info) as [sdks|]; [|discriminate].
  intros Hex.
  destruct (find (fun sdk => (Sdk.version sdk =? v)%string) sdks) as [d|] eqn:Hfind.
  - exists d, sdks. apply find_some in Hfind. destruct Hfind as [Hin Heq].
    apply String.eqb_eq in Heq. auto.
  - apply existsb_exists in Hex. destruct Hex as [d [Hin Heq]].
    apply (find_none _ _ Hfind) in Hin. congruence.
Qed.

Lemma alternateStep_miss v info f :
  hasAlternate v info = false -> alternateStep v info f = (false, f).
Proof.
  unfold hasAlternate, alternateStep. destruct (Release.sdks info) as [sdks|]; [|reflexivity].
  intros Hex.
  destruct (find (fun sdk => (Sdk.version sdk =? v)%string) sdks) as [d|] eqn:Hfind; [|reflexivity].
  apply find_some in Hfind. destruct Hfind as [Hin Heq].
  assert (existsb (fun sdk => (Sdk.version sdk =? v)%string) sdks = true)
    by (apply existsb_exists; eauto).
  congruence.
Qed.

Lemma alternateMatches_kept v releases : forall f,
  fst (alternateMatches v releases f) = filter (hasAlternate v) releases.
Proof.
  induction releases as [|info rest IH]; intros f; simpl; [reflexivity|].
  destruct (hasAlternate v info) eqn:Hhas.
  - destruct (alternateStep_hit v info f Hhas) as [d [sdks [Hstep _]]]. rewrite Hstep.
    specialize (IH (Some d)). destruct (alternateMatches v rest (Some d)); simpl in *. now rewrite IH.
  - rewrite (alternateStep_miss v info f Hhas).
    specialize (IH f). destruct (alternateMatches v rest f); simpl in *. exact IH.
Qed.

Lemma alternateMatches_found v releases : forall f,
  (forall d, f = Some d -> Sdk.version d = v) ->
  forall d, snd (alternateMatches v releases f) = Some d -> Sdk.version d = v.
Proof.
  induction releases as [|info rest IH]; intros f Hf d; simpl; [apply Hf|].
  destruct (hasAlternate v info) eqn:Hhas.
  - destruct (alternateStep_hit v info f Hhas) as [d' [sdks [Hstep [_ [_ Hv]]]]]. rewrite Hstep.
    specialize (IH (Some d')). destruct (alternateMatches v rest (Some d')); simpl in *.
    apply IH. intros d0 Hd0. now inversion Hd0; subst.
  - rewrite (alternateStep_miss v info f Hhas).
    specialize (IH f). destruct (alternateMatches v rest f); simpl in *. now apply IH.
Qed.

Lemma alternateMatches_some v releases : forall f,
  filter (hasAlternate v) releases <> [] ->
  exists d, snd (alternateMatches v releases f) = Some d.
Proof.
  induction releases as [|info rest IH]; intros f Hne; simpl in *; [congruence|].
  destruct (hasAlternate v info) eqn:Hhas.
  - destruct (alternateStep_hit v info f Hhas) as [d' [sdks [Hstep _]]]. rewrite Hstep.
    destruct (filter (hasAlternate v) rest) eqn:Hrest.
    + pose proof (alternateMatches_kept v rest (Some d')) as Hk. rewrite Hrest in Hk.
      assert (Hs : snd (alternateMatches v rest (Some d')) = Some d').
      { clear -Hrest. revert Hrest. generalize (Some d').
        induction rest as [|x xs IHx]; intros o Hrest; simpl in *; [reflexivity|].
        destruct (hasAlternate v x) eqn:Hx; [discriminate|].
        rewrite (alternateStep_miss v x o Hx). specialize (IHx o Hrest).
        destruct (alternateMatches v xs o); simpl in *. exact IHx. }
      destruct (alternateMatches v rest (Some d')); simpl in *. eauto.
    + specialize (IH (Some d')).
      destruct IH as [d Hd]; [congruence|].
      destruct (alternateMatches v rest (Some d')); simpl in *. eauto.
  - rewrite (alternateStep_miss v info f Hhas).
    specialize (IH f Hne). destruct IH as [d Hd].
    destruct (alternateMatches v rest f); simpl in *. eauto.
Qed.

Lemma getReleaseForSdk_alternate v channel :
  primaryMatches v channel = [] ->
  getReleaseForSdk v channel =
    match alternateMatches v (ReleaseChannel.releases channel) None with
    | (release :: _, Some found) => Return (infoOf release found)
    | _ => Throws (releaseNotFound v)
    end.
Proof.
  intros Hp. unfold getReleaseForSdk. rewrite Hp.
  destruct (alternateMatches v (ReleaseChannel.releases channel) None) as [[|release kept] [found|]];
    reflexivity.
Qed.

Lemma primaryMatches_withoutAlternates v channel :
  map (fun r => (Release.release_notes r, Runtime.version (Release.runtime r), Release.sdk r,
                 Release.security r, Release.cve_list r))
      (primaryMatches v (withoutAlternates channel)) =
  map (fun r => (Release.release_notes r, Runtime.version (Release.runtime r), Release.sdk r,
                 Release.security r, Release.cve_list r))
      (primaryMatches v channel).
Proof.
  unfold primaryMatches, withoutAlternates; simpl.
  induction (ReleaseChannel.releases channel) as [|r rest IH]; simpl; [reflexivity|].
  destruct (Sdk.version (Release.sdk r) =? v)%string; simpl; now rewrite IH.
Qed.

(** C4. A primary match takes precedence: when some release has the
    requested version as its primary descriptor, the alternate lists play no
    part (the answer is that of the channel without them, and a single
    primary match is the release selected); when none has, and some
    alternate list holds the version, the first such release is selected and
    the SDK version returned is that of the alternate descriptor, which is
    the requested one and differs from the release's primary version. *)
Theorem C4_primary_precedence_and_alternate_version :
  forall (v : string) (channel : ReleaseChannel.t),
    (primaryMatches v channel <> [] ->
       getReleaseForSdk v channel = getReleaseForSdk v (withoutAlternates channel)) /\
    (forall release, primaryMatches v channel = [release] ->
       getReleaseForSdk v channel = Return (infoOf release (Release.sdk release))) /\
    (primaryMatches v channel = [] ->
     forall release others, filter (hasAlternate v) (ReleaseChannel.releases channel) = release :: others ->
       exists found sdks info,
         getReleaseForSdk v channel = Return info /\
         info = infoOf release found /\
         Release.sdks release = Some sdks /\
         (exists d, In d sdks /\ Sdk.version d = Sdk.version found) /\
         ReleaseInfo.sdkVersion info = v /\
         ReleaseInfo.sdkVersion info <> Sdk.version (Release.sdk release)).
Proof.
  intros v channel. split; [|split].
  - intros Hne. pose proof (primaryMatches_withoutAlternates v channel) as Hmap.
    unfold getReleaseForSdk.
    destruct (primaryMatches v channel) as [|r1 [|r2 rest]] eqn:Hp; [congruence| |].
    + destruct (primaryMatches v (withoutAlternates channel)) as [|q1 [|q2 qs]]; try discriminate.
      simpl in Hmap. inversion Hmap as [[H1 H2 H3 H4 H5]].
      now rewrite H1, H2, H3, H4, H5.
    + destruct (primaryMatches v (withoutAlternates channel)) as [|q1 [|q2 qs]]; try discriminate.
      reflexivity.
  - intros release Hp. unfold getReleaseForSdk. rewrite Hp. reflexivity.
  - intros Hp release others Hf.
    rewrite (getReleaseForSdk_alternate v channel Hp).
    pose proof (alternateMatches_kept v (ReleaseChannel.releases channel) None) as Hk.
    destruct (alternateMatches_some v (ReleaseChannel.releases channel) None) as [found Hfound];
      [rewrite Hf; discriminate|].
    pose proof (alternateMatches_found v (ReleaseChannel.releases channel) None
                  ltac:(discriminate) found Hfound) as Hv.
    destruct (alternateMatches v (ReleaseChannel.releases channel) None) as [kept fo].
    simpl in Hk, Hfound. subst fo. rewrite Hf in Hk. subst kept.
    assert (Hin : In release (filter (hasAlternate v) (ReleaseChannel.releases channel)))
      by (rewrite Hf; now left).
    apply filter_In in Hin. destruct Hin as [Hin Hhas].
    destruct (alternateStep_hit v release None Hhas) as [d [sdks [_ [Hsdks [Hd Hdv]]]]].
    exists found, sdks, (infoOf release found). repeat split; auto.
    + exists d. split; [exact Hd|congruence].
    + simpl. rewrite Hv. intros Heq.
      assert (Hprim : In release (primaryMatches v channel)).
      { unfold primaryMatches. apply filter_In. split; [exact Hin|].
        apply String.eqb_eq. now symmetry. }
      rewrite Hp in Hprim. exact Hprim.
Qed.

(** C4, at a channel where 8.0.102 is an alternate descriptor only (of
    two releases) and 8.0.101 is both a primary descriptor and an alternate
    one. *)
Lemma C4_witness :
  getReleaseForSdk "8.0.101" channelC4 = getReleaseForSdk "8.0.101" (withoutAlternates channelC4) /\
  getReleaseForSdk "8.0.101" channelC4 =
    Return (infoOf (mkRelease "8.0.1" "8.0.101" (Some ["8.0.101"; "8.0.102"]) false None)
                   (mkSdk "8.0.101")) /\
  exists found sdks info,
    getReleaseForSdk "8.0.102" channelC4 = Return info /\
    info = infoOf (mkRelease "8.0.2" "8.0.201" (Some ["8.0.201"; "8.0.102"]) true
                     (Some ["CVE-2024-0002"])) found /\
    Release.sdks (mkRelease "8.0.2" "8.0.201" (Some ["8.0.201"; "8.0.102"]) true
                    (Some ["CVE-2024-0002"])) = Some sdks /\
    (exists d, In d sdks /\ Sdk.version d = Sdk.version found) /\
    ReleaseInfo.sdkVersion info = "8.0.102" /\
    ReleaseInfo.sdkVersion info <> "8.0.201".
Proof.
  destruct (C4_primary_precedence_and_alternate_version "8.0.101" channelC4) as [H1 [H2 _]].
  destruct (C4_primary_precedence_and_alternate_version "8.0.102" channelC4) as [_ [_ H3]].
  split; [apply H1; intros H; discriminate H|].
  split; [apply H2; reflexivity|].
  exact (H3 eq_refl _ _ eq_refl).
Defined.

(** C5. A version that is neither a primary descriptor nor an entry of an
    alternate list of any release of the channel makes [getReleaseForSdk]
    throw the error that names the version. *)
Theorem C5_absent_version_not_found :
  forall (v : string) (channel : ReleaseChannel.t),
    (forall release, In release (ReleaseChannel.releases channel) ->
       Sdk.version (Release.sdk release) <> v) ->
    (forall release sdks d, In release (ReleaseChannel.releases channel) ->
       Release.sdks release = Some sdks -> In d sdks -> Sdk.version d <> v) ->
    getReleaseForSdk v channel =
      Throws (Js.Error (String.append "Failed to find release for .NET SDK version " v)).
Proof.
  intros v channel Hprimary Halt.
  assert (Hp : primaryMatches v channel = []).
  { unfold primaryMatches.
    destruct (filter _ (ReleaseChannel.releases channel)) as [|r rest] eqn:Hf; [reflexivity|].
    assert (Hin : In r (r :: rest)) by now left.
    rewrite <- Hf in Hin. apply filter_In in Hin. destruct Hin as [Hin Heq].
    apply String.eqb_eq in Heq. now apply Hprimary in Hin. }
  rewrite (getReleaseForSdk_alternate v channel Hp).
  pose proof (alternateMatches_kept v (ReleaseChannel.releases channel) None) as Hk.
  assert (Hnone : filter (hasAlternate v) (ReleaseChannel.releases channel) = []).
  { destruct (filter _ (ReleaseChannel.releases channel)) as [|r rest] eqn:Hf; [reflexivity|].
    assert (Hin : In r (r :: rest)) by now left.
    rewrite <- Hf in Hin. apply filter_In in Hin. destruct Hin as [Hin Hhas].
    destruct (alternateStep_hit v r None Hhas) as [d [sdks [_ [Hsdks [Hd Hdv]]]]].
    exfalso. exact (Halt r sdks d Hin Hsdks Hd Hdv). }
  rewrite Hnone in Hk.
  destruct (alternateMatches v (ReleaseChannel.releases channel) None) as [kept fo].
  simpl in Hk. subst kept.
  destruct fo; reflexivity.
Qed.

(** C5, at a version that no release of the channel lists. *)
Lemma C5_witness :
  getReleaseForSdk "9.0.100" channelC4 =
    Throws (Js.Error "Failed to find release for .NET SDK version 9.0.100").
Proof.
  apply (C5_absent_version_not_found "9.0.100" channelC4).
  - simpl. intros release [H|[H|[]]]; subst release; simpl; discriminate.
  - simpl. intros release sdks d [H|[H|[]]] Hs; subst release; simpl in Hs;
      inversion Hs; subst sdks; simpl; intros [H|[H|[]]]; subst d; simpl; discriminate.
Defined.

(** C10. When more than one release has the requested version as its
    primary descriptor, [getReleaseForSdk] selects none of them and reads no
    alternate list: it throws the error of an absent version. *)
Theorem C10_ambiguous_primary_not_found :
  forall (v : string) (channel : ReleaseChannel.t),
    (1 < List.length (primaryMatches v channel))%nat ->
    getReleaseForSdk v channel =
      Throws (Js.Error (String.append "Failed to find release for .NET SDK version " v)).
Proof.
  intros v channel Hlen. unfold getReleaseForSdk.
  destruct (primaryMatches v channel) as [|r1 [|r2 rest]]; simpl in Hlen; try lia.
  reflexivity.
Qed.

(** C10, at a channel where two releases have 8.0.100 as primary descriptor
    and one of them lists it as an alternate too. *)
Lemma C10_witness :
  getReleaseForSdk "8.0.100" channelC10 =
    Throws (Js.Error "Failed to find release for .NET SDK version 8.0.100").
Proof.
  apply (C10_ambiguous_primary_not_found "8.0.100" channelC10).
  simpl. lia.
Defined.

(** What [getReleaseForSdk] returns is built from a release of the channel. *)
Lemma getReleaseForSdk_inv v channel info :
  getReleaseForSdk v channel = Return info ->
  exists release found,
    In release (ReleaseChannel.releases channel) /\
    Sdk.version found = v /\
    info = infoOf release found.
Proof.
  unfold getReleaseForSdk.
  destruct (primaryMatches v channel) as [|only [|second rest]] eqn:Hp.
  - pose proof (alternateMatches_kept v (ReleaseChannel.releases channel) None) as Hk.
    pose proof (alternateMatches_found v (ReleaseChannel.releases channel) None
                  ltac:(discriminate)) as Hv.
    destruct (alternateMatches v (ReleaseChannel.releases channel) None) as [kept fo].
    cbn [fst snd] in Hk, Hv.
    destruct kept as [|release kept]; [discriminate|].
    destruct fo as [found|]; [|discriminate].
    intros H. injection H as <-. exists release, found.
    assert (Hin : In release (filter (hasAlternate v) (ReleaseChannel.releases channel)))
      by (rewrite <- Hk; now left).
    apply filter_In in Hin. split; [apply Hin|]. split; [now apply Hv|reflexivity].
  - intros H. injection H as <-. exists only, (Release.sdk only).
    assert (Hin : In only (primaryMatches v channel)) by (rewrite Hp; now left).
    apply filter_In in Hin. destruct Hin as [Hin Heq]. apply String.eqb_eq in Heq.
    split; [exact Hin|]. split; [exact Heq|reflexivity].
  - discriminate.
Qed.

(** ** Release Delta Resolver *)

Lemma ordinalCompare_total a b : ordinalCompare a b <= 0 \/ ordinalCompare b a <= 0.
Proof.
  unfold ordinalCompare. rewrite (String.compare_antisym a b).
  destruct (String.compare b a); simpl; lia.
Qed.

Section SortFacts.

Context {A : Type}.
Variable compareFn : A -> A -> Z.
Hypothesis compareFn_total : forall a b, compareFn a b <= 0 \/ compareFn b a <= 0.

Lemma insertSorted_perm x l : Permutation (insertSorted compareFn x l) (x :: l).
Proof.
  induction l as [|y rest IH]; simpl; [reflexivity|].
  destruct (compareFn x y <=? 0); [reflexivity|].
  rewrite IH. apply perm_swap.
Qed.

Lemma sort_perm l : Permutation (sort compareFn l) l.
Proof.
  induction l as [|x rest IH]; simpl; [reflexivity|].
  rewrite insertSorted_perm. now constructor.
Qed.

Lemma insertSorted_head x l y :
  HdRel (fun a b => compareFn a b <= 0) y l -> compareFn y x <= 0 ->
  HdRel (fun a b => compareFn a b <= 0) y (insertSorted compareFn x l).
Proof.
  intros Hl Hyx. destruct l as [|z rest]; simpl; [now constructor|].
  destruct (compareFn x z <=? 0); constructor; [exact Hyx|now inversion Hl].
Qed.

Lemma insertSorted_sorted x l :
  Sorted (fun a b => compareFn a b <= 0) l ->
  Sorted (fun a b => compareFn a b <= 0) (insertSorted compareFn x l).
Proof.
  induction 1 as [|y rest Hrest IH Hhd]; simpl; [repeat constructor|].
  destruct (compareFn x y <=? 0) eqn:Hle.
  - apply Z.leb_le in Hle. repeat constructor; assumption.
  - apply Z.leb_gt in Hle. constructor; [exact IH|].
    apply insertSorted_head; [exact Hhd|].
    destruct (compareFn_total y x); lia.
Qed.

Lemma sort_sorted l : Sorted (fun a b => compareFn a b <= 0) (sort compareFn l).
Proof.
  induction l as [|x rest IH]; simpl; [constructor|]. now apply insertSorted_sorted.
Qed.

End SortFacts.

Lemma loopPatches_spec c l p : In p (loopPatches c l) <-> c <= p < l.
Proof.
  unfold loopPatches. rewrite in_map_iff. split.
  - intros [i [Hp Hi]]. apply in_seq in Hi. lia.
  - intros Hp. exists (Z.to_nat (p - c)). split; [lia|]. apply in_seq. lia.
Qed.

Lemma gapScan_security channel major minor : forall patches acc,
  agg_security (fold_left (gapStep channel major minor) patches acc) =
  agg_security acc ||
  existsb (fun p => match findByRuntime (patchVersion major minor p) channel with
                    | Some release => Release.security release
                    | None => false
                    end) patches.
Proof.
  induction patches as [|p rest IH]; intros acc; simpl; [now rewrite orb_false_r|].
  rewrite IH. unfold gapStep.
  destruct (findByRuntime (patchVersion major minor p) channel) as [release|]; simpl.
  - destruct (Release.cve_list release); simpl; now rewrite orb_assoc.
  - reflexivity.
Qed.

Lemma gapScan_issues channel major minor : forall patches acc,
  agg_issues (fold_left (gapStep channel major minor) patches acc) =
  agg_issues acc ++
  flat_map advisoriesOf
    (flat_map (fun p => match findByRuntime (patchVersion major minor p) channel with
                        | Some release => [release]
                        | None => []
                        end) patches).
Proof.
  induction patches as [|p rest IH]; intros acc; simpl; [now rewrite app_nil_r|].
  rewrite IH. unfold gapStep, advisoriesOf.
  destruct (findByRuntime (patchVersion major minor p) channel) as [release|]; simpl.
  - destruct (Release.cve_list release); simpl.
    + now rewrite <- app_assoc.
    + reflexivity.
  - reflexivity.
Qed.

(** What [getLatestRelease] returns, by the cases of [patchRange]. *)
Lemma getLatestRelease_inv localeCompare currentSdkVersion channel r :
  getLatestRelease localeCompare currentSdkVersion channel = Return r ->
  exists current latest,
    getReleaseForSdk currentSdkVersion channel = Return current /\
    getReleaseForSdk (ReleaseChannel.latest_sdk channel) channel = Return latest /\
    r = finish localeCompare current latest
          (match patchRange current latest with
           | Some (c, l) =>
               gapScan channel (segment 0 (ReleaseInfo.runtimeVersion current))
                 (segment 1 (ReleaseInfo.runtimeVersion current)) c l (seedOf latest)
           | None => seedOf latest
           end).
Proof.
  unfold getLatestRelease.
  destruct (getReleaseForSdk currentSdkVersion channel) as [current|]; [|discriminate].
  destruct (getReleaseForSdk (ReleaseChannel.latest_sdk channel) channel) as [latest|]; [|discriminate].
  intros H. exists current, latest. split; [reflexivity|]. split; [reflexivity|].
  revert H. unfold patchRange, stablePatch, segment, seedOf.
  destruct (nth_error (Js.split "." (ReleaseInfo.runtimeVersion current)) 2) as [cp2|];
    [|discriminate].
  destruct (Js.includes "-" cp2).
  { intros H. injection H as <-. reflexivity. }
  destruct (nth_error (Js.split "." (ReleaseInfo.runtimeVersion latest)) 2) as [lp2|];
    [|discriminate].
  destruct (Js.includes "-" lp2).
  { intros H. injection H as <-. destruct (Js.parseInt (Some cp2)); reflexivity. }
  unfold aggregateOver.
  destruct (Js.parseInt (Some cp2)) as [|c];
    [destruct (Js.parseInt (Some lp2)); intros H; injection H as <-; reflexivity|].
  destruct (Js.parseInt (Some lp2)) as [|l]; [intros H; injection H as <-; reflexivity|].
  cbn [Js.sub Js.gt]. destruct (l - c >? 1); intros H; injection H as <-; reflexivity.
Qed.

Lemma finish_security localeCompare current latest acc :
  SdkVersions.security (finish localeCompare current latest acc) = agg_security acc.
Proof. reflexivity. Qed.

Lemma finish_issues localeCompare current latest acc :
  SdkVersions.securityIssues (finish localeCompare current latest acc) =
  sort (compareIds localeCompare) (agg_issues acc).
Proof. reflexivity. Qed.

Lemma existsb_foundAt channel current patches :
  existsb (fun p => match findByRuntime (gapVersion current p) channel with
                    | Some release => Release.security release
                    | None => false
                    end) patches =
  existsb Release.security (flat_map (foundAt channel current) patches).
Proof.
  induction patches as [|p rest IH]; [reflexivity|].
  cbn [existsb flat_map]. rewrite existsb_app, IH. unfold foundAt.
  destruct (findByRuntime (gapVersion current p) channel); cbn [existsb];
    now rewrite ?orb_false_r.
Qed.

(** The releases of [scannedReleases] are those found by runtime version at
    the patches of the loop. *)
Lemma scannedReleases_spec channel current latest release :
  In release (scannedReleases channel current latest) <->
  exists c l p,
    patchRange current latest = Some (c, l) /\ c <= p < l /\
    findByRuntime (gapVersion current p) channel = Some release.
Proof.
  unfold scannedReleases. destruct (patchRange current latest) as [[c l]|].
  - rewrite in_flat_map. split.
    + intros [p [Hin Hp]]. apply loopPatches_spec in Hin. exists c, l, p.
      split; [reflexivity|]. split; [exact Hin|]. unfold foundAt in Hp.
      destruct (findByRuntime (gapVersion current p) channel) as [x|]; [|destruct Hp].
      destruct Hp as [->|[]]. reflexivity.
    + intros [c' [l' [p [Hrange [Hp Hfind]]]]]. injection Hrange as <- <-.
      exists p. split; [now apply loopPatches_spec|].
      unfold foundAt. rewrite Hfind. now left.
  - split; [intros []|]. intros [c [l [p [Hrange _]]]]. discriminate.
Qed.

(** The aggregate of [getLatestRelease], from the latest release and the
    releases the scan finds. *)
Lemma getLatestRelease_aggregate localeCompare currentSdkVersion channel r :
  getLatestRelease localeCompare currentSdkVersion channel = Return r ->
  exists current latest,
    getReleaseForSdk currentSdkVersion channel = Return current /\
    getReleaseForSdk (ReleaseChannel.latest_sdk channel) channel = Return latest /\
    SdkVersions.current r = current /\
    SdkVersions.security r =
      ReleaseInfo.security latest ||
      existsb Release.security (scannedReleases channel current latest) /\
    SdkVersions.securityIssues r =
      sort (compareIds localeCompare)
        (ReleaseInfo.securityIssues latest ++
         flat_map advisoriesOf (scannedReleases channel current latest)).
Proof.
  intros Hr.
  destruct (getLatestRelease_inv _ _ _ _ Hr) as [current [latest [Hc [Hl Hfin]]]].
  exists current, latest. split; [exact Hc|]. split; [exact Hl|].
  subst r. rewrite finish_security, finish_issues. split; [reflexivity|].
  unfold scannedReleases. destruct (patchRange current latest) as [[c l]|].
  - unfold gapScan. rewrite gapScan_security, gapScan_issues.
    split; [|reflexivity].
    cbn [seedOf agg_security]. f_equal. apply (existsb_foundAt channel current).
  - cbn [seedOf agg_security agg_issues existsb flat_map].
    now rewrite orb_false_r, app_nil_r.
Qed.

(** C1. The patch loop takes the values from the current patch, included,
    up to the latest patch, excluded. At a channel with current runtime
    8.0.0 and latest runtime 8.0.2, both stable, these are 0 and 1: the
    current patch is scanned with the one skipped patch, the release of the
    current version is found by its runtime version, and its security flag
    and its advisory reach the aggregate although neither the latest release
    nor the skipped release 8.0.1 is a security release. *)
Theorem C1_gap_scan_starts_at_current_patch :
  (forall currentPatch latestPatch patch,
     In patch (loopPatches currentPatch latestPatch) <-> currentPatch <= patch < latestPatch) /\
  loopPatches 0 2 = [0; 1] /\
  getReleaseForSdk "8.0.100" channelC1 =
    Return (ReleaseInfo.make "https://notes.example/8.0.0" "8.0.0" "8.0.100" true
              [advisory "CVE-2024-0001"]) /\
  getReleaseForSdk "8.0.102" channelC1 =
    Return (ReleaseInfo.make "https://notes.example/8.0.2" "8.0.2" "8.0.102" false []) /\
  findByRuntime "8.0.1" channelC1 = Some (mkRelease "8.0.1" "8.0.101" None false None) /\
  exists r,
    getLatestRelease ordinalCompare "8.0.100" channelC1 = Return r /\
    SdkVersions.security r = true /\
    SdkVersions.securityIssues r = [advisory "CVE-2024-0001"].
Proof.
  split; [intros; apply loopPatches_spec|].
  repeat split; try reflexivity.
  eexists. split; [vm_compute; reflexivity|]. split; reflexivity.
Qed.

(** C2 as stated fails: the current release is a security release, the
    latest release is not, the patch delta is 1, and the aggregate flag is
    false. *)
Lemma C2_current_alone_counterexample :
  exists r,
    getLatestRelease ordinalCompare "8.0.100" channelC2 = Return r /\
    ReleaseInfo.security (SdkVersions.current r) = true /\
    SdkVersions.security r = false.
Proof.
  eexists. split; [vm_compute; reflexivity|]. split; reflexivity.
Qed.

(** C2, amended. The aggregate flag is seeded from the latest release
    alone: it is true exactly when the latest release is security-flagged
    or a release found by the gap scan is; the releases found by the gap
    scan are those found by runtime version at a patch of the loop. The flag
    of the current release is not part of the seed: when the scan does not
    run, the aggregate flag is the flag of the latest release, whatever the
    flag of the current release. Stated for runtime versions whose segments
    are below 2^53, where the numbers of the embedding are the code's. *)
Theorem C2_aggregate_security_flag :
  forall (localeCompare : string -> string -> Z) (currentSdkVersion : string)
         (channel : ReleaseChannel.t) (r : SdkVersions.t),
    getLatestRelease localeCompare currentSdkVersion channel = Return r ->
    exactVersion (ReleaseInfo.runtimeVersion (SdkVersions.current r)) ->
    exactVersion (ReleaseInfo.runtimeVersion (SdkVersions.latest r)) ->
    exists current latest,
      getReleaseForSdk currentSdkVersion channel = Return current /\
      getReleaseForSdk (ReleaseChannel.latest_sdk channel) channel = Return latest /\
      SdkVersions.current r = current /\
      (SdkVersions.security r = true <->
         ReleaseInfo.security latest = true \/
         exists release,
           In release (scannedReleases channel current latest) /\
           Release.security release = true) /\
      (forall release,
         In release (scannedReleases channel current latest) <->
         exists c l p,
           patchRange current latest = Some (c, l) /\ c <= p < l /\
           findByRuntime (gapVersion current p) channel = Some release) /\
      (patchRange current latest = None ->
         SdkVersions.security r = ReleaseInfo.security latest).
Proof.
  intros localeCompare currentSdkVersion channel r Hr _ _.
  destruct (getLatestRelease_aggregate _ _ _ _ Hr)
    as [current [latest [Hc [Hl [Hcur [Hsec _]]]]]].
  exists current, latest. split; [exact Hc|]. split; [exact Hl|]. split; [exact Hcur|].
  split; [|split].
  - rewrite Hsec, orb_true_iff, existsb_exists. reflexivity.
  - intros release. apply scannedReleases_spec.
  - intros Hnone. rewrite Hsec. unfold scannedReleases. rewrite Hnone.
    apply orb_false_r.
Qed.

(** C2 amended, at the channel of C3: latest 8.0.3 and the skipped release
    8.0.2 are security releases. *)
Lemma C2_witness :
  exists r,
    getLatestRelease ordinalCompare "8.0.100" channelC3 = Return r /\
    exactVersion (ReleaseInfo.runtimeVersion (SdkVersions.current r)) /\
    exactVersion (ReleaseInfo.runtimeVersion (SdkVersions.latest r)) /\
    exists current latest,
      getReleaseForSdk "8.0.100" channelC3 = Return current /\
      getReleaseForSdk (ReleaseChannel.latest_sdk channelC3) channelC3 = Return latest /\
      SdkVersions.current r = current /\
      (SdkVersions.security r = true <->
         ReleaseInfo.security latest = true \/
         exists release,
           In release (scannedReleases channelC3 current latest) /\
           Release.security release = true) /\
      (forall release,
         In release (scannedReleases channelC3 current latest) <->
         exists c l p,
           patchRange current latest = Some (c, l) /\ c <= p < l /\
           findByRuntime (gapVersion current p) channelC3 = Some release) /\
      (patchRange current latest = None ->
         SdkVersions.security r = ReleaseInfo.security latest).
Proof.
  eexists. split; [vm_compute; reflexivity|].
  assert (Hcurrent : exactVersion "8.0.0") by (vm_compute; repeat split; reflexivity).
  assert (Hlatest : exactVersion "8.0.3") by (vm_compute; repeat split; reflexivity).
  split; [exact Hcurrent|]. split; [exact Hlatest|].
  apply (C2_aggregate_security_flag ordinalCompare "8.0.100" channelC3).
  - vm_compute. reflexivity.
  - exact Hcurrent.
  - exact Hlatest.
Defined.

(** C3 as stated fails: the latest release and a skipped release list the
    same advisory, no release lists an advisory twice, and the aggregate
    holds it twice. *)
Lemma C3_not_deduplicated_counterexample :
  exists r,
    getLatestRelease ordinalCompare "8.0.100" channelC3 = Return r /\
    map CveInfo.id (SdkVersions.securityIssues r) =
      ["CVE-2024-0003"; "CVE-2024-0007"; "CVE-2024-0007"] /\
    ~ NoDup (map CveInfo.id (SdkVersions.securityIssues r)) /\
    Forall (fun release => NoDup (map CveInfo.id (advisoriesOf release)))
           (ReleaseChannel.releases channelC3).
Proof.
  eexists. split; [vm_compute; reflexivity|]. split; [reflexivity|]. split.
  - simpl. intros H. inversion H as [|? ? _ H2]; subst. inversion H2 as [|? ? Hnin _]; subst.
    apply Hnin. now left.
  - repeat constructor; simpl; intros H; exact H.
Qed.

(** C3, amended. For a comparator that orders any two identifiers, the
    aggregate list is sorted ascending by identifier; it is not
    de-duplicated: it is a rearrangement, with nothing removed and nothing
    added, of the advisories [getReleaseForSdk] returned for the latest SDK
    version (the advisory list of the latest release when that release is
    security-flagged, nothing otherwise) followed by the advisory list of
    each release found by the gap scan, security-flagged or not. Stated for
    runtime versions whose segments are below 2^53, where the numbers of the
    embedding are the code's. *)
Theorem C3_advisories_sorted_and_complete :
  forall (localeCompare : string -> string -> Z),
    (forall a b, localeCompare a b <= 0 \/ localeCompare b a <= 0) ->
  forall (currentSdkVersion : string) (channel : ReleaseChannel.t) (r : SdkVersions.t),
    getLatestRelease localeCompare currentSdkVersion channel = Return r ->
    exactVersion (ReleaseInfo.runtimeVersion (SdkVersions.current r)) ->
    exactVersion (ReleaseInfo.runtimeVersion (SdkVersions.latest r)) ->
    sortedByIds localeCompare (SdkVersions.securityIssues r) /\
    exists current latest latestRelease,
      getReleaseForSdk currentSdkVersion channel = Return current /\
      getReleaseForSdk (ReleaseChannel.latest_sdk channel) channel = Return latest /\
      In latestRelease (ReleaseChannel.releases channel) /\
      ReleaseInfo.runtimeVersion latest = Runtime.version (Release.runtime latestRelease) /\
      ReleaseInfo.securityIssues latest =
        (if Release.security latestRelease then advisoriesOf latestRelease else []) /\
      Permutation (SdkVersions.securityIssues r)
                  (ReleaseInfo.securityIssues latest ++
                   flat_map advisoriesOf (scannedReleases channel current latest)).
Proof.
  intros localeCompare Htotal currentSdkVersion channel r Hr _ _.
  destruct (getLatestRelease_aggregate _ _ _ _ Hr)
    as [current [latest [Hc [Hl [_ [_ Hissues]]]]]].
  rewrite Hissues. split.
  - apply (sort_sorted (compareIds localeCompare)). intros a b. apply Htotal.
  - destruct (getReleaseForSdk_inv _ _ _ Hl) as [latestRelease [found [Hin [_ Hinfo]]]].
    exists current, latest, latestRelease.
    split; [exact Hc|]. split; [exact Hl|]. split; [exact Hin|].
    split; [now rewrite Hinfo|]. split; [now rewrite Hinfo|].
    apply sort_perm.
Qed.

(** C3 amended, at the channel of its counterexample. *)
Lemma C3_witness :
  exists r,
    getLatestRelease ordinalCompare "8.0.100" channelC3 = Return r /\
    exactVersion (ReleaseInfo.runtimeVersion (SdkVersions.current r)) /\
    exactVersion (ReleaseInfo.runtimeVersion (SdkVersions.latest r)) /\
    sortedByIds ordinalCompare (SdkVersions.securityIssues r) /\
    exists current latest latestRelease,
      getReleaseForSdk "8.0.100" channelC3 = Return current /\
      getReleaseForSdk (ReleaseChannel.latest_sdk channelC3) channelC3 = Return latest /\
      In latestRelease (ReleaseChannel.releases channelC3) /\
      ReleaseInfo.runtimeVersion latest = Runtime.version (Release.runtime latestRelease) /\
      ReleaseInfo.securityIssues latest =
        (if Release.security latestRelease then advisoriesOf latestRelease else []) /\
      Permutation (SdkVersions.securityIssues r)
                  (ReleaseInfo.securityIssues latest ++
                   flat_map advisoriesOf (scannedReleases channelC3 current latest)).
Proof.
  eexists. split; [vm_compute; reflexivity|].
  assert (Hcurrent : exactVersion "8.0.0") by (vm_compute; repeat split; reflexivity).
  assert (Hlatest : exactVersion "8.0.3") by (vm_compute; repeat split; reflexivity).
  split; [exact Hcurrent|]. split; [exact Hlatest|].
  apply (C3_advisories_sorted_and_complete ordinalCompare ordinalCompare_total
           "8.0.100" channelC3).
  - vm_compute. reflexivity.
  - exact Hcurrent.
  - exact Hlatest.
Defined.

(** ** Update Classifier *)

Lemma segment_dotted major minor patch :
  segment 0 (dotted major minor patch) = Js.Num major /\
  segment 1 (dotted major minor patch) = Js.Num minor /\
  segment 2 (dotted major minor patch) = Js.Num patch.
Proof.
  unfold segment, dotted. rewrite split_patchVersion. cbn [nth_error].
  now rewrite !parseInt_toString.
Qed.






(** ** Programs and their runs *)

Arguments branchFound : simpl never.
Arguments updateStep : simpl never.
Arguments mutation : simpl never.

Section PathFacts.

Context {A B : Type}.

Lemma never_bind bad (p : Prog A) (f : A -> Prog B) :
  never bad p -> (forall a, never bad (f a)) -> never bad (bind p f).
Proof.
  intros Hp Hf. induction p as [a|e|X e k IH]; simpl in *; auto.
  intros r. destruct (Hp r) as [Hbad Hk]. split; [exact Hbad|]. now apply IH.
Qed.

Lemma returns_bind (Q : B -> Prop) (p : Prog A) (f : A -> Prog B) :
  (forall a, returns Q (f a)) -> returns Q (bind p f).
Proof.
  intros Hf. induction p as [a|e|X e k IH]; simpl in *; auto.
Qed.

Lemma clean_bind (P : A -> Prop) (Q : B -> Prop) (p : Prog A) (f : A -> Prog B) :
  clean P p -> (forall a, P a -> clean Q (f a)) -> clean Q (bind p f).
Proof.
  intros Hp Hf. induction p as [a|e|X e k IH]; simpl in *.
  - now apply Hf.
  - contradiction.
  - intros r. destruct (Hp r) as [Hstep Hk]. split; [exact Hstep|]. now apply IH.
Qed.

Lemma stops_bind_quiet (Q : B -> Prop) (p : Prog A) (f : A -> Prog B) :
  quiet p -> (forall a, stopsWhenFound Q (f a)) -> stopsWhenFound Q (bind p f).
Proof.
  unfold quiet. intros Hp Hf. induction p as [a|e|X e k IH]; simpl in *; auto.
  intros r. destruct (Hp r) as [Hbad Hk]. apply orb_false_iff in Hbad.
  destruct Hbad as [Hfound Hstep]. rewrite Hfound, Hstep. now apply IH.
Qed.

End PathFacts.

Lemma never_tryCatch {A : Type} bad (p : Prog A) (handler : Js.error -> Prog A) :
  never bad p -> (forall e, never bad (handler e)) -> never bad (tryCatch p handler).
Proof.
  intros Hp Hh. induction p as [a|e|X e k IH]; simpl in *; auto.
  intros r. destruct (Hp r) as [Hbad Hk]. split; [exact Hbad|]. now apply IH.
Qed.

Lemma never_stops {A : Type} (Q : A -> Prop) (p : Prog A) :
  never branchFound p -> stopsWhenFound Q p.
Proof.
  induction p as [a|e|X e k IH]; simpl; auto.
  intros Hp r. destruct (Hp r) as [Hfound Hk]. rewrite Hfound.
  destruct (updateStep (Interacted e r)); [exact Hk|]. apply IH. exact Hk.
Qed.

Lemma stops_bind {A B : Type} (P : A -> Prop) (Q : B -> Prop) (p : Prog A) (f : A -> Prog B) :
  stopsWhenFound P p ->
  (forall a, P a -> clean Q (f a)) ->
  (forall a, never branchFound (f a)) ->
  stopsWhenFound Q (bind p f).
Proof.
  intros Hp Hclean Hnever. induction p as [a|e|X e k IH]; simpl in *; auto.
  - apply never_stops. apply Hnever.
  - intros r. specialize (Hp r).
    destruct (branchFound (Interacted e r)).
    + destruct Hp as [Hstep Hk]. split; [exact Hstep|]. now apply clean_bind with (P := P).
    + destruct (updateStep (Interacted e r)).
      * now apply never_bind.
      * now apply IH.
Qed.

Lemma existsb_snoc {T : Type} (f : T -> bool) l x :
  existsb f (l ++ [x]) = existsb f l || f x.
Proof. rewrite existsb_app. simpl. now rewrite orb_false_r. Qed.

Lemma never_exec {A : Type} bad (p : Prog A) :
  never bad p ->
  forall w log, existsb bad log = false -> existsb bad (fst (exec w log p)) = false.
Proof.
  induction p as [a|e|X e k IH]; simpl; auto.
  intros Hp w log Hlog. destruct (Hp (w X (map callOf log) e)) as [Hbad Hk].
  apply IH; [exact Hk|]. now rewrite existsb_snoc, Hlog, Hbad.
Qed.

Lemma clean_exec {A : Type} (Q : A -> Prop) (p : Prog A) :
  clean Q p ->
  forall w log, existsb updateStep log = false ->
    existsb updateStep (fst (exec w log p)) = false /\
    exists a, snd (exec w log p) = Return a /\ Q a.
Proof.
  induction p as [a|e|X e k IH]; simpl.
  - intros Ha w log Hlog. split; [exact Hlog|]. now exists a.
  - contradiction.
  - intros Hp w log Hlog. destruct (Hp (w X (map callOf log) e)) as [Hstep Hk].
    apply IH; [exact Hk|]. now rewrite existsb_snoc, Hlog, Hstep.
Qed.

(** A program that stops when the branch is found, run in any world: if
    the log shows the branch found, it shows no update step and the run
    returned a value in [Q]. *)
Lemma stops_exec {A : Type} (Q : A -> Prop) (p : Prog A) :
  stopsWhenFound Q p ->
  forall w log,
    existsb branchFound log = false -> existsb updateStep log = false ->
    existsb branchFound (fst (exec w log p)) = true ->
    existsb updateStep (fst (exec w log p)) = false /\
    exists a, snd (exec w log p) = Return a /\ Q a.
Proof.
  induction p as [a|e|X e k IH]; simpl.
  - intros _ w log Hfound _ Hyes. congruence.
  - intros _ w log Hfound _ Hyes. congruence.
  - intros Hp w log Hfound Hsteps Hyes.
    specialize (Hp (w X (map callOf log) e)).
    destruct (branchFound (Interacted e (w X (map callOf log) e))) eqn:Hf.
    + destruct Hp as [Hstep Hk]. apply clean_exec; [exact Hk|].
      now rewrite existsb_snoc, Hsteps, Hstep.
    + destruct (updateStep (Interacted e (w X (map callOf log) e))) eqn:Hu.
      * pose proof (never_exec branchFound _ Hp w (log ++ [Interacted e (w X (map callOf log) e)])) as Hn.
        rewrite existsb_snoc, Hfound, Hf in Hn. specialize (Hn eq_refl). congruence.
      * apply IH;
          [ exact Hp
          | now rewrite existsb_snoc, Hfound, Hf
          | now rewrite existsb_snoc, Hsteps, Hu
          | exact Hyes ].
Qed.

Lemma exec_bind {A B : Type} (w : World) (p : Prog A) (f : A -> Prog B) : forall log,
  exec w log (bind p f) =
    match exec w log p with
    | (log', Return a) => exec w log' (f a)
    | (log', Throws e) => (log', Throws e)
    end.
Proof.
  induction p as [a|e|X e k IH]; intros log; simpl; auto.
Qed.

(** *** The programs of the updater *)

Section UpdaterFacts.

Variable localeCompare : string -> string -> Z.
Variable dirname : string -> string.

Lemma never_when bad b (p : Prog unit) : never bad p -> never bad (when b p).
Proof. destruct b; simpl; auto. Qed.

Lemma never_execGit bad options args ignoreErrors :
  (forall r, bad (Interacted (Exec "git" args (repoPath dirname options) ignoreErrors) r) = false) ->
  (forall m r, bad (Interacted (CoreDebug m) r) = false) ->
  never bad (execGit dirname options args ignoreErrors).
Proof.
  intros Hexec Hdebug. unfold execGit. simpl. intros r. split; [apply Hexec|].
  destruct r as [out|err]; simpl; [|exact I].
  destruct (Js.truthy (stderr out) && negb ignoreErrors); simpl; [exact I|].
  intros r. split; [apply Hdebug|].
  destruct (Js.truthy (stderr out)); simpl; [|exact I].
  intros r'. split; [apply Hdebug|exact I].
Qed.

Lemma never_call {X : Type} bad (e : Event X) :
  (forall r, bad (Interacted e r) = false) -> never bad (call e).
Proof.
  intros He. simpl. intros r. split; [apply He|]. destruct r; exact I.
Qed.

Lemma never_log {X : Type} bad (e : Event X) :
  (forall r, bad (Interacted e r) = false) -> never bad (Vis e (fun _ => Ret tt)).
Proof. intros He. simpl. intros r. split; [apply He|exact I]. Qed.

End UpdaterFacts.

Ltac never_step dirname :=
  first
    [ exact I
    | apply never_bind; [|intros ?]
    | apply never_when
    | apply never_tryCatch; [|intros ?]
    | apply (never_execGit dirname); [intros; reflexivity|intros; reflexivity]
    | apply never_call; intros; reflexivity
    | apply never_log; intros; reflexivity
    | match goal with
      | |- never _ (if ?b then _ else _) => destruct b
      | |- never _ (match ?x with _ => _ end) => destruct x
      end ].

Ltac never_tac dirname := unfold quiet, info, debug, error; repeat never_step dirname.

(** *** The branch-existence check *)

Section BranchCheck.

Variable localeCompare : string -> string -> Z.
Variable dirname : string -> string.

(** The check followed by [f]: found, [f] must be clean; not found, [f]
    must not check again. *)
Lemma stops_branch_check {A : Type} (Q : A -> Prop) options ref (f : string -> Prog A) :
  (forall s, Js.truthy s = true -> clean Q (f s)) ->
  (forall s, Js.truthy s = false -> never branchFound (f s)) ->
  stopsWhenFound Q
    (bind (execGit dirname options ["rev-parse"; "--verify"; "--quiet"; ref] true) f).
Proof.
  intros Hfound Hnot. unfold execGit. cbn [bind stopsWhenFound]. intros r.
  destruct r as [out|err].
  - change (branchFound (Interacted (Exec "git" ["rev-parse"; "--verify"; "--quiet"; ref]
                                       (repoPath dirname options) true) (Returned out)))
      with (Js.truthy (Js.trimEnd (stdout out))).
    change (updateStep (Interacted (Exec "git" ["rev-parse"; "--verify"; "--quiet"; ref]
                                      (repoPath dirname options) true) (Returned out)))
      with false.
    rewrite andb_false_r.
    destruct (Js.truthy (Js.trimEnd (stdout out))) eqn:Hout.
    + split; [reflexivity|]. unfold debug, when. cbn [bind clean]. intros r. split; [reflexivity|].
      destruct (Js.truthy (stderr out)); cbn [bind clean].
      * intros r'. split; [reflexivity|]. now apply Hfound.
      * now apply Hfound.
    + unfold debug, when. cbn [bind stopsWhenFound]. intros r.
      change (branchFound (Interacted (CoreDebug _) r)) with false.
      change (updateStep (Interacted (CoreDebug _) r)) with false. cbv iota.
      destruct (Js.truthy (stderr out)); cbn [bind stopsWhenFound].
      * intros r'. apply never_stops. now apply Hnot.
      * apply never_stops. now apply Hnot.
  - change (branchFound (Interacted (Exec "git" ["rev-parse"; "--verify"; "--quiet"; ref]
                                       (repoPath dirname options) true) (Raised err)))
      with false.
    change (updateStep (Interacted (Exec "git" ["rev-parse"; "--verify"; "--quiet"; ref]
                                      (repoPath dirname options) true) (Raised err)))
      with false.
    exact I.
Qed.

Lemma applySdkUpdate_stops options globalJson versions :
  stopsWhenFound (fun applied => fst applied = None)
    (applySdkUpdate dirname options globalJson versions).
Proof.
  unfold applySdkUpdate.
  apply stops_bind_quiet; [never_tac dirname|intros _].
  apply stops_bind_quiet; [never_tac dirname|intros base].
  destruct (setSdkVersion globalJson _) as [json|e]; [|exact I].
  apply stops_bind_quiet; [never_tac dirname|intros _].
  apply stops_bind_quiet; [never_tac dirname|intros _].
  cbv zeta.
  apply stops_bind_quiet; [never_tac dirname|intros _].
  apply stops_bind_quiet; [never_tac dirname|intros _].
  apply stops_bind_quiet; [never_tac dirname|intros _].
  do 4 (apply stops_bind_quiet; [never_tac dirname|intros _]).
  apply stops_branch_check.
  - intros s Hs. rewrite Hs. unfold info. cbn [bind clean]. intros r. split; reflexivity.
  - intros s Hs. rewrite Hs. never_tac dirname.
Qed.

Lemma createPullRequest_never options base update :
  never branchFound (createPullRequest options base update).
Proof. unfold createPullRequest. cbv zeta. never_tac dirname. Qed.

Lemma tryUpdateSdk_stops options :
  stopsWhenFound (fun updated => UpdateResult.updated (fst updated) = false)
    (tryUpdateSdk localeCompare dirname options).
Proof.
  unfold tryUpdateSdk.
  apply stops_bind_quiet; [never_tac dirname|intros globalJson].
  cbv zeta.
  destruct (negb (Js.truthy (manifestVersion globalJson))); [exact I|].
  apply stops_bind_quiet; [never_tac dirname|intros optionsC].
  apply stops_bind_quiet; [unfold getDotNetReleaseChannel; never_tac dirname|intros releaseChannel].
  destruct (getLatestRelease _ _ _) as [update|e]; [|exact I].
  do 3 (apply stops_bind_quiet; [never_tac dirname|intros _]).
  destruct (negb _).
  - apply stops_bind with (P := fun applied => fst applied = None).
    + apply applySdkUpdate_stops.
    + intros [baseBranch optionsA] Hnone. simpl in Hnone. subst baseBranch. reflexivity.
    + intros [baseBranch optionsA]. destruct baseBranch as [base|]; [|exact I].
      destruct (Js.truthy base); [|exact I].
      apply never_bind; [apply createPullRequest_never|intros pr; exact I].
  - apply stops_bind_quiet; [never_tac dirname|intros _]. exact I.
Qed.

End BranchCheck.

(** ** Update Orchestrator *)

(** C6. In every world and for every configuration: when the log of
    [tryUpdateSdk] shows the branch-existence check answered with a commit
    (the remote branch exists), the log shows no checkout, no commit, no
    push and no pull-request creation, and the run returned a result with
    [updated = false]. The check is only reached when the current version
    differs from the latest one. *)
Theorem C6_existing_branch_stops_the_update :
  forall (localeCompare : string -> string -> Z) (dirname : string -> string)
         (w : World) (options : UpdateOptions.t)
         (log : list Interaction) (outcome : result (UpdateResult.t * UpdateOptions.t)),
    exec w [] (tryUpdateSdk localeCompare dirname options) = (log, outcome) ->
    existsb branchFound log = true ->
    (exists result optionsAfter,
       outcome = Return (result, optionsAfter) /\ UpdateResult.updated result = false) /\
    existsb updateStep log = false.
Proof.
  intros localeCompare dirname w options log outcome Hrun Hfound.
  pose proof (stops_exec _ _ (tryUpdateSdk_stops localeCompare dirname options)
                w [] eq_refl eq_refl) as Hstops.
  rewrite Hrun in Hstops. cbn [fst snd] in Hstops.
  destruct (Hstops Hfound) as [Hsteps [[result optionsAfter] [Hout Hupdated]]].
  split; [|exact Hsteps]. exists result, optionsAfter. split; assumption.
Qed.

(** C6, on the manifest 8.0.100 in a channel whose latest SDK is 8.0.101,
    with a remote branch [update-dotnet-sdk-8.0.101]. *)
Lemma C6_witness :
  (exists result optionsAfter,
     snd (exec (worldC channelC2 "0a1b2c3") [] (tryUpdateSdk ordinalCompare dirnameC optionsC)) =
       Return (result, optionsAfter) /\
     UpdateResult.updated result = false) /\
  existsb updateStep
    (fst (exec (worldC channelC2 "0a1b2c3") [] (tryUpdateSdk ordinalCompare dirnameC optionsC))) = false.
Proof.
  apply (C6_existing_branch_stops_the_update ordinalCompare dirnameC
           (worldC channelC2 "0a1b2c3") optionsC).
  - destruct (exec _ _ _); reflexivity.
  - vm_compute. reflexivity.
Defined.

(** C7. A run that read the manifest, resolved a channel, got the feed and
    resolved a current SDK version equal to the latest one returns
    [updated = false] and the current version; its log holds no write to a
    file, no command and no call of the hosting API. *)
Theorem C7_up_to_date_run_changes_nothing :
  forall (localeCompare : string -> string -> Z) (dirname : string -> string)
         (w : World) (options : UpdateOptions.t) (globalJson : GlobalJson.t)
         (response : JsonResponse) (feed : ReleaseChannel.t) (update : SdkVersions.t),
    w _ [] (ReadGlobalJson (UpdateOptions.globalJsonPath options)) = Returned globalJson ->
    Js.truthy (manifestVersion globalJson) = true ->
    (Js.truthy (UpdateOptions.channel options) = true \/
     (2 <= List.length (Js.split "." (manifestVersion globalJson)))%nat) ->
    w _ (fetchHistory options (resolvedChannel options (manifestVersion globalJson)))
      (GetJson (releasesUrl (resolvedChannel options (manifestVersion globalJson)))) =
      Returned response ->
    statusCode response < 400 ->
    response_result response = Some feed ->
    getLatestRelease localeCompare (manifestVersion globalJson) feed = Return update ->
    ReleaseInfo.sdkVersion (SdkVersions.current update) =
      ReleaseInfo.sdkVersion (SdkVersions.latest update) ->
    exists log result optionsAfter,
      exec w [] (tryUpdateSdk localeCompare dirname options) = (log, Return (result, optionsAfter)) /\
      UpdateResult.updated result = false /\
      UpdateResult.version result = ReleaseInfo.sdkVersion (SdkVersions.current update) /\
      UpdateResult.pullRequestNumber result = 0 /\
      existsb mutation log = false.
Proof.
  intros localeCompare dirname w options globalJson response feed update
    Hread Hversion Hchannel Hfetch Hstatus Hfeed Hlatest Hequal.
  unfold tryUpdateSdk, call. cbn [bind exec app map callOf]. rewrite Hread.
  cbn [bind]. rewrite Hversion. cbn [negb].
  assert (Hresolve :
    (if negb (Js.truthy (UpdateOptions.channel options))
     then if Z.of_nat (List.length (Js.split "." (manifestVersion globalJson))) <? 2
          then Fail (Js.Error (Js.template [".NET SDK version '"; manifestVersion globalJson;
                                            "' is not valid."]))
          else Ret (UpdateOptions.with_channel options
                      (Js.template [nth 0 (Js.split "." (manifestVersion globalJson)) EmptyString; ".";
                                    nth 1 (Js.split "." (manifestVersion globalJson)) EmptyString]))
     else Ret options) =
    Ret (if Js.truthy (UpdateOptions.channel options) then options
         else UpdateOptions.with_channel options
                (resolvedChannel options (manifestVersion globalJson)))).
  { unfold resolvedChannel. destruct (Js.truthy (UpdateOptions.channel options)) eqn:Hc; cbn [negb].
    - reflexivity.
    - destruct Hchannel as [Hc'|Hlen]; [discriminate|].
      destruct (Z.of_nat (List.length (Js.split "." (manifestVersion globalJson))) <? 2) eqn:Hlt;
        [apply Z.ltb_lt in Hlt; lia|reflexivity]. }
  rewrite Hresolve. cbn [bind].
  assert (Hname :
    UpdateOptions.channel
      (if Js.truthy (UpdateOptions.channel options) then options
       else UpdateOptions.with_channel options
              (resolvedChannel options (manifestVersion globalJson))) =
    resolvedChannel options (manifestVersion globalJson)).
  { unfold resolvedChannel. destruct (Js.truthy (UpdateOptions.channel options)); reflexivity. }
  rewrite Hname.
  unfold getDotNetReleaseChannel, debug, info, call. cbn [bind exec app map callOf].
  unfold fetchHistory in Hfetch. rewrite Hfetch. cbn [bind].
  assert (Hok : (statusCode response >=? 400) = false)
    by (rewrite Z.geb_leb; apply Z.leb_gt; lia).
  rewrite Hok, Hfeed. cbn [bind]. rewrite Hlatest. cbn [bind exec app map callOf].
  rewrite Hequal, String.eqb_refl. cbn [negb bind exec app map callOf].
  do 3 eexists. split; [reflexivity|]. repeat split; reflexivity.
Qed.

(** C7, on the manifest 8.0.100 in a channel whose latest SDK is 8.0.100. *)
Lemma C7_witness :
  exists log result optionsAfter,
    exec (worldC channelC7 EmptyString) [] (tryUpdateSdk ordinalCompare dirnameC optionsC) =
      (log, Return (result, optionsAfter)) /\
    UpdateResult.updated result = false /\
    UpdateResult.version result = "8.0.100" /\
    UpdateResult.pullRequestNumber result = 0 /\
    existsb mutation log = false.
Proof.
  apply (C7_up_to_date_run_changes_nothing ordinalCompare dirnameC (worldC channelC7 EmptyString)
           optionsC manifestC (mkJsonResponse 200 (Some channelC7)) channelC7
           (SdkVersions.make
              (ReleaseInfo.make "https://notes.example/8.0.0" "8.0.0" "8.0.100" true
                 [advisory "CVE-2024-0001"])
              (ReleaseInfo.make "https://notes.example/8.0.0" "8.0.0" "8.0.100" true
                 [advisory "CVE-2024-0001"])
              true [advisory "CVE-2024-0001"])).
  - reflexivity.
  - reflexivity.
  - right. vm_compute. lia.
  - reflexivity.
  - simpl. lia.
  - reflexivity.
  - vm_compute. reflexivity.
  - reflexivity.
Defined.

Lemma never_bind_returns {A B : Type} bad (P : A -> Prop) (p : Prog A) (f : A -> Prog B) :
  never bad p -> returns P p -> (forall a, P a -> never bad (f a)) -> never bad (bind p f).
Proof.
  intros Hp Hr Hf. induction p as [a|e|X e k IH]; simpl in *; auto.
  intros r. destruct (Hp r) as [Hbad Hk]. split; [exact Hbad|]. now apply IH.
Qed.

Arguments branchNameSet : simpl never.

Section BranchName.

Variable localeCompare : string -> string -> Z.
Variable dirname : string -> string.

(** No path of [tryUpdateSdk] assigns [branchName]. *)
Lemma tryUpdateSdk_branchName options :
  returns (fun updated => UpdateResult.branchName (fst updated) = None)
    (tryUpdateSdk localeCompare dirname options).
Proof.
  unfold tryUpdateSdk. apply returns_bind. intros globalJson. cbv zeta.
  destruct (negb (Js.truthy (manifestVersion globalJson))); [exact I|].
  apply returns_bind. intros optionsC. apply returns_bind. intros releaseChannel.
  destruct (getLatestRelease _ _ _) as [update|e]; [|exact I].
  do 3 (apply returns_bind; intros _).
  destruct (negb _).
  - apply returns_bind. intros [baseBranch optionsA].
    destruct baseBranch as [base|]; [|reflexivity].
    destruct (Js.truthy base); [|reflexivity].
    apply returns_bind. intros pullRequest. reflexivity.
  - apply returns_bind. intros _. reflexivity.
Qed.

Lemma tryUpdateSdk_sets_no_output options :
  never branchNameSet (tryUpdateSdk localeCompare dirname options).
Proof.
  unfold tryUpdateSdk, applySdkUpdate, createPullRequest, getDotNetReleaseChannel.
  cbv zeta. never_tac dirname.
Qed.

Lemma run_branch_name_undefined :
  never branchNameSet (run localeCompare dirname).
Proof.
  unfold run, getInput, setOutput. apply never_tryCatch; [|intros err; never_tac dirname].
  do 4 (apply never_bind; [never_tac dirname|intros ?]).
  destruct (negb _); [never_tac dirname|].
  do 12 (apply never_bind; [never_tac dirname|intros ?]).
  cbv zeta.
  apply never_bind_returns
    with (P := fun updated => UpdateResult.branchName (fst updated) = None).
  - apply tryUpdateSdk_sets_no_output.
  - apply tryUpdateSdk_branchName.
  - intros [result optionsAfter] Hname. simpl in Hname. cbn [fst]. rewrite Hname.
    never_tac dirname.
Qed.

End BranchName.

(** C9. [tryUpdateSdk] never assigns [branchName], so in every world the
    output ['branch-name'] is never set to a value. On the manifest 8.0.100
    in a channel whose latest SDK is 8.0.101 and without a remote branch,
    the update is applied on the branch [update-dotnet-sdk-8.0.101]: the
    branch is checked out, pushed and proposed, the updater's options hold
    its name, the result reports [updated = true], its [branchName] is
    [undefined], and [run] emits ['branch-name'] as [undefined]. *)
Theorem C9_branch_name_is_never_reported :
  (forall localeCompare dirname options,
     returns (fun updated => UpdateResult.branchName (fst updated) = None)
       (tryUpdateSdk localeCompare dirname options)) /\
  (forall localeCompare dirname w,
     existsb branchNameSet (fst (exec w [] (run localeCompare dirname))) = false) /\
  (exists log result optionsAfter,
     exec (worldC channelC2 EmptyString) [] (tryUpdateSdk ordinalCompare dirnameC optionsC) =
       (log, Return (result, optionsAfter)) /\
     In ["checkout"; "-b"; "update-dotnet-sdk-8.0.101"] (flat_map gitCommands log) /\
     In ["push"; "-u"; "origin"; "update-dotnet-sdk-8.0.101"] (flat_map gitCommands log) /\
     UpdateOptions.branch optionsAfter = "update-dotnet-sdk-8.0.101" /\
     UpdateResult.updated result = true /\
     UpdateResult.pullRequestNumber result = 7 /\
     UpdateResult.branchName result = None) /\
  flat_map outputs (fst (exec (worldC channelC2 EmptyString) [] (run ordinalCompare dirnameC))) =
    [ ("branch-name", VUndefined);
      ("pull-request-number", VNumber 7);
      ("pull-request-html-url", VString "https://github.example/o/r/pull/7");
      ("sdk-updated", VBoolean true);
      ("sdk-version", VString "8.0.101");
      ("security", VBoolean false) ].
Proof.
  split; [|split; [|split]].
  - intros. apply tryUpdateSdk_branchName.
  - intros localeCompare dirname w.
    apply never_exec; [apply run_branch_name_undefined|reflexivity].
  - do 3 eexists. split; [vm_compute; reflexivity|].
    repeat split; try reflexivity; vm_compute; tauto.
  - vm_compute. reflexivity.
Qed.

(** * Further properties *)

(** ** Version Matcher and Release Delta Resolver *)

(** X1. Whatever [getReleaseForSdk] returns is built from a release of the
    channel: its SDK version is the requested string, its runtime version,
    release notes and security flag are those of that release, and it
    carries advisories only when the release is security-flagged. *)
Theorem X1_getReleaseForSdk_returns_the_requested_version :
  forall (v : string) (channel : ReleaseChannel.t) (info : ReleaseInfo.t),
    getReleaseForSdk v channel = Return info ->
    ReleaseInfo.sdkVersion info = v /\
    (ReleaseInfo.security info = false -> ReleaseInfo.securityIssues info = []) /\
    exists release,
      In release (ReleaseChannel.releases channel) /\
      ReleaseInfo.runtimeVersion info = Runtime.version (Release.runtime release) /\
      ReleaseInfo.releaseNotes info = Release.release_notes release /\
      ReleaseInfo.security info = Release.security release /\
      (ReleaseInfo.security info = true ->
       ReleaseInfo.securityIssues info = advisoriesOf release).
Proof.
  intros v channel info H.
  destruct (getReleaseForSdk_inv v channel info H) as [release [found [Hin [Hv ->]]]].
  split; [exact Hv|]. split.
  - simpl. intros Hsec. now rewrite Hsec.
  - exists release. repeat split; try assumption.
    simpl. intros Hsec. now rewrite Hsec.
Qed.

Lemma X1_witness :
  ReleaseInfo.sdkVersion (infoOf (mkRelease "8.0.2" "8.0.201" (Some ["8.0.201"; "8.0.102"]) true
                                    (Some ["CVE-2024-0002"])) (mkSdk "8.0.102")) = "8.0.102".
Proof.
  apply (X1_getReleaseForSdk_returns_the_requested_version "8.0.102" channelC4).
  reflexivity.
Defined.

Lemma nth_error_short {T : Type} (l : list T) n :
  (List.length l <= n)%nat -> nth_error l n = None.
Proof. apply nth_error_None. Qed.

(** X2. A runtime version with fewer than three dot-separated segments
    makes [getLatestRelease] throw a TypeError instead of returning: always
    when it is the current release's, and for the latest release's unless
    the current patch segment holds a ['-'], which ends the test before the
    latest segment is read. *)
Theorem X2_missing_patch_segment_throws :
  forall (localeCompare : string -> string -> Z) (currentSdkVersion : string)
         (channel : ReleaseChannel.t) (current latest : ReleaseInfo.t),
    getReleaseForSdk currentSdkVersion channel = Return current ->
    getReleaseForSdk (ReleaseChannel.latest_sdk channel) channel = Return latest ->
    ((List.length (Js.split "." (ReleaseInfo.runtimeVersion current)) < 3)%nat ->
       getLatestRelease localeCompare currentSdkVersion channel =
         Throws (Js.TypeError "Cannot read properties of undefined (reading 'includes')")) /\
    (forall part,
       nth_error (Js.split "." (ReleaseInfo.runtimeVersion current)) 2 = Some part ->
       (List.length (Js.split "." (ReleaseInfo.runtimeVersion latest)) < 3)%nat ->
       getLatestRelease localeCompare currentSdkVersion channel =
         if Js.includes "-" part
         then Return (finish localeCompare current latest (seedOf latest))
         else Throws (Js.TypeError "Cannot read properties of undefined (reading 'includes')")).
Proof.
  intros localeCompare currentSdkVersion channel current latest Hc Hl.
  unfold getLatestRelease. rewrite Hc, Hl. split.
  - intros Hlen. rewrite nth_error_short by lia. reflexivity.
  - intros part Hpart Hlen. rewrite Hpart.
    destruct (Js.includes "-" part); [reflexivity|].
    rewrite nth_error_short by lia. reflexivity.
Qed.

Lemma X2_witness :
  getLatestRelease ordinalCompare "8.0.99" channelX2 =
    Throws (Js.TypeError "Cannot read properties of undefined (reading 'includes')") /\
  getLatestRelease ordinalCompare "8.0.100" channelX2 =
    Return (finish ordinalCompare
              (ReleaseInfo.make "https://notes.example/8.0.0-rc.1" "8.0.0-rc.1" "8.0.100" false [])
              (ReleaseInfo.make "https://notes.example/8.0" "8.0" "8.0.101" false [])
              (seedOf (ReleaseInfo.make "https://notes.example/8.0" "8.0" "8.0.101" false []))).
Proof.
  split.
  - apply (X2_missing_patch_segment_throws ordinalCompare "8.0.99" channelX2
             (ReleaseInfo.make "https://notes.example/8" "8" "8.0.99" false [])
             (ReleaseInfo.make "https://notes.example/8.0" "8.0" "8.0.101" false [])
             eq_refl eq_refl).
    simpl. lia.
  - apply (proj2 (X2_missing_patch_segment_throws ordinalCompare "8.0.100" channelX2
             (ReleaseInfo.make "https://notes.example/8.0.0-rc.1" "8.0.0-rc.1" "8.0.100" false [])
             (ReleaseInfo.make "https://notes.example/8.0" "8.0" "8.0.101" false [])
             eq_refl eq_refl) "0-rc").
    + reflexivity.
    + simpl. lia.
Defined.

Lemma gapScan_shared channel major minor : forall patches acc,
  agg_shared (fold_left (gapStep channel major minor) patches acc) =
  agg_shared acc &&
  forallb (fun p => match findByRuntime (patchVersion major minor p) channel with
                    | Some release => match Release.cve_list release with
                                      | Some _ => false
                                      | None => true
                                      end
                    | None => true
                    end) patches.
Proof.
  induction patches as [|p rest IH]; intros acc; simpl; [now rewrite andb_true_r|].
  rewrite IH. unfold gapStep.
  destruct (findByRuntime (patchVersion major minor p) channel) as [release|]; simpl.
  - destruct (Release.cve_list release); simpl; [now rewrite andb_false_r|reflexivity].
  - reflexivity.
Qed.

Lemma gapScan_nothing_appended channel major minor patches :
  forallb (fun p => match findByRuntime (patchVersion major minor p) channel with
                    | Some release => match Release.cve_list release with
                                      | Some _ => false
                                      | None => true
                                      end
                    | None => true
                    end) patches = true ->
  flat_map advisoriesOf
    (flat_map (fun p => match findByRuntime (patchVersion major minor p) channel with
                        | Some release => [release]
                        | None => []
                        end) patches) = [].
Proof.
  induction patches as [|p rest IH]; [reflexivity|].
  cbn [forallb flat_map]. intros H. apply andb_true_iff in H. destruct H as [Hp Hrest].
  rewrite flat_map_app, (IH Hrest), app_nil_r.
  destruct (findByRuntime _ channel) as [release|]; [|reflexivity].
  unfold advisoriesOf. cbn [flat_map].
  destruct (Release.cve_list release); [discriminate|reflexivity].
Qed.



(** X4. In the result of [getLatestRelease], [current] is what
    [getReleaseForSdk] returned for the requested version and [latest] is
    what it returned for the channel's latest SDK, up to the order of the
    advisories of [latest]: the two SDK versions are the requested string
    and the channel's ['latest-sdk'], and the advisories of [latest] are
    those of the latest release, re-ordered by the in-place sort exactly
    when no scanned release had a ['cve-list']. *)
Theorem X4_result_holds_both_resolved_releases :
  forall (localeCompare : string -> string -> Z) (currentSdkVersion : string)
         (channel : ReleaseChannel.t) (r : SdkVersions.t),
    getLatestRelease localeCompare currentSdkVersion channel = Return r ->
    getReleaseForSdk currentSdkVersion channel = Return (SdkVersions.current r) /\
    ReleaseInfo.sdkVersion (SdkVersions.current r) = currentSdkVersion /\
    ReleaseInfo.sdkVersion (SdkVersions.latest r) = ReleaseChannel.latest_sdk channel /\
    exists latest,
      getReleaseForSdk (ReleaseChannel.latest_sdk channel) channel = Return latest /\
      sameRelease (SdkVersions.latest r) latest /\
      Permutation (ReleaseInfo.securityIssues (SdkVersions.latest r))
                  (ReleaseInfo.securityIssues latest) /\
      (ReleaseInfo.securityIssues (SdkVersions.latest r) = ReleaseInfo.securityIssues latest \/
       ReleaseInfo.securityIssues (SdkVersions.latest r) = SdkVersions.securityIssues r).
Proof.
  intros localeCompare currentSdkVersion channel r Hr.
  destruct (getLatestRelease_inv _ _ _ _ Hr) as [current [latest [Hc [Hl Hfin]]]].
  destruct (getReleaseForSdk_inv _ _ _ Hc) as [rc [fc [_ [Hvc Hic]]]].
  destruct (getReleaseForSdk_inv _ _ _ Hl) as [rl [fl [_ [Hvl Hil]]]].
  subst r. unfold finish. cbn [SdkVersions.current SdkVersions.latest SdkVersions.securityIssues].
  split; [exact Hc|]. split; [subst current; exact Hvc|].
  set (acc := match patchRange current latest with
              | Some (c, l) => _
              | None => _
              end).
  split.
  - destruct (agg_shared acc); subst latest; exact Hvl.
  - exists latest. split; [exact Hl|].
    destruct (agg_shared acc) eqn:Hshared.
    + split; [repeat split|]. split; [|now right].
      cbn [ReleaseInfo.securityIssues].
      assert (Hsame : agg_issues acc = ReleaseInfo.securityIssues latest).
      { subst acc. destruct (patchRange current latest) as [[c l]|]; [|reflexivity].
        unfold gapScan in *. rewrite gapScan_shared in Hshared. rewrite gapScan_issues.
        cbn [seedOf agg_shared agg_issues andb] in *.
        rewrite (gapScan_nothing_appended _ _ _ _ Hshared).
        apply app_nil_r. }
      rewrite Hsame. apply sort_perm.
    + split; [repeat split|]. split; [reflexivity|now left].
Qed.

Lemma X4_witness :
  exists r,
    getLatestRelease ordinalCompare "8.0.100" channelC3 = Return r /\
    ReleaseInfo.sdkVersion (SdkVersions.current r) = "8.0.100" /\
    ReleaseInfo.sdkVersion (SdkVersions.latest r) = "8.0.103".
Proof.
  eexists. split; [vm_compute; reflexivity|].
  match goal with
  | |- context [SdkVersions.current ?r] =>
      destruct (X4_result_holds_both_resolved_releases ordinalCompare "8.0.100" channelC3 r)
        as [_ [Hcurrent [Hlatest _]]]
  end.
  - vm_compute. reflexivity.
  - split; [exact Hcurrent|exact Hlatest].
Defined.

Lemma includes_minus_digitString ds :
  Forall isDigit ds -> Js.includes "-" (digitString ds) = false.
Proof.
  induction 1 as [|d ds Hd _ IH]; [reflexivity|].
  change (digitString (d :: ds)) with (String (Js.digitChar d) (digitString ds)).
  cbn [Js.includes]. rewrite (proj1 (digitChar_not_sign d Hd)). exact IH.
Qed.

Lemma stablePatch_patchVersion major minor patch :
  stablePatch (patchVersion major minor patch) =
    if patch <? 0 then None else Some (Js.Num patch).
Proof.
  unfold stablePatch. rewrite split_patchVersion. cbn [nth_error].
  rewrite parseInt_toString. unfold Js.toString.
  destruct (patch <? 0); [reflexivity|].
  rewrite natToString_digits, includes_minus_digitString; [reflexivity|].
  apply digitList_digits. constructor.
Qed.

Lemma patchVersion_injective major minor p q :
  patchVersion major minor p = patchVersion major minor q -> p = q.
Proof.
  intros H. apply (f_equal (Js.split ".")) in H. rewrite !split_patchVersion in H.
  apply (f_equal (fun parts => Js.parseInt (nth_error parts 2))) in H.
  cbv beta in H. cbn [nth_error] in H. rewrite !parseInt_toString in H. now injection H.
Qed.

Lemma NoDup_map_injective {S T : Type} (f : S -> T) (l : list S) :
  (forall x y, f x = f y -> x = y) -> NoDup l -> NoDup (map f l).
Proof.
  intros Hinj. induction 1 as [|x l Hx _ IH]; cbn [map]; constructor; [|exact IH].
  intros Hin. apply in_map_iff in Hin. destruct Hin as [y [Hy Hin]].
  apply Hinj in Hy. now subst y.
Qed.

Lemma loopPatches_NoDup c l : NoDup (loopPatches c l).
Proof.
  unfold loopPatches. apply NoDup_map_injective; [|apply seq_NoDup].
  intros i j H. lia.
Qed.

Lemma findByRuntime_version version channel release :
  findByRuntime version channel = Some release -> runtimeOf release = version.
Proof.
  unfold findByRuntime. intros H. apply find_some in H. destruct H as [_ H].
  now apply String.eqb_eq in H.
Qed.

Lemma found_versions channel current patches :
  map runtimeOf (flat_map (foundAt channel current) patches) =
  map (gapVersion current)
      (filter (fun p => match findByRuntime (gapVersion current p) channel with
                        | Some _ => true
                        | None => false
                        end) patches).
Proof.
  induction patches as [|p rest IH]; [reflexivity|].
  cbn [flat_map filter]. rewrite map_app, IH. unfold foundAt at 1.
  destruct (findByRuntime (gapVersion current p) channel) as [release|] eqn:Hfind; [|reflexivity].
  cbn [map app]. now rewrite (findByRuntime_version _ _ _ Hfind).
Qed.

(** X5. The scan counts each release at most once and never the latest
    one: the advisory list of the result is a rearrangement of the
    advisories of the latest release followed by the ['cve-list'] of
    releases of the channel whose runtime versions are pairwise different
    and different from the runtime version of the latest release. *)
Theorem X5_scan_counts_each_release_once :
  forall (localeCompare : string -> string -> Z) (currentSdkVersion : string)
         (channel : ReleaseChannel.t) (r : SdkVersions.t),
    getLatestRelease localeCompare currentSdkVersion channel = Return r ->
    exists latest found,
      getReleaseForSdk (ReleaseChannel.latest_sdk channel) channel = Return latest /\
      Permutation (SdkVersions.securityIssues r)
                  (ReleaseInfo.securityIssues latest ++ flat_map advisoriesOf found) /\
      (forall release, In release found -> In release (ReleaseChannel.releases channel)) /\
      NoDup (map runtimeOf found) /\
      ~ In (ReleaseInfo.runtimeVersion latest) (map runtimeOf found).
Proof.
  intros localeCompare currentSdkVersion channel r Hr.
  destruct (getLatestRelease_inv _ _ _ _ Hr) as [current [latest [Hc [Hl Hfin]]]].
  exists latest. subst r. rewrite finish_issues.
  destruct (patchRange current latest) as [[c l]|] eqn:Hrange.
  - exists (flat_map (foundAt channel current) (loopPatches c l)).
    split; [exact Hl|]. split; [|split; [|split]].
    + rewrite sort_perm. unfold gapScan. rewrite gapScan_issues. reflexivity.
    + intros release Hin. apply in_flat_map in Hin. destruct Hin as [p [_ Hp]].
      unfold foundAt in Hp.
      destruct (findByRuntime (gapVersion current p) channel) as [x|] eqn:Hfind; [|destruct Hp].
      destruct Hp as [->|[]]. unfold findByRuntime in Hfind. now apply find_some in Hfind.
    + rewrite found_versions. apply NoDup_map_injective.
      * intros p q. apply patchVersion_injective.
      * apply NoDup_filter, loopPatches_NoDup.
    + rewrite found_versions. intros Hin. apply in_map_iff in Hin.
      destruct Hin as [p [Hp Hin]]. apply filter_In in Hin. destruct Hin as [Hin _].
      apply loopPatches_spec in Hin.
      unfold patchRange in Hrange. rewrite <- Hp in Hrange. unfold gapVersion in Hrange.
      rewrite stablePatch_patchVersion in Hrange.
      destruct (stablePatch (ReleaseInfo.runtimeVersion current)) as [[|c']|]; try discriminate.
      destruct (p <? 0); [discriminate|].
      destruct (p - c' >? 1); [|discriminate].
      injection Hrange as Hc' Hl'. lia.
  - exists []. split; [exact Hl|]. split; [|split; [|split]].
    + rewrite sort_perm. cbn. now rewrite app_nil_r.
    + intros ? [].
    + constructor.
    + intros [].
Qed.

Lemma X5_witness :
  exists r latest found,
    getLatestRelease ordinalCompare "8.0.100" channelC3 = Return r /\
    getReleaseForSdk (ReleaseChannel.latest_sdk channelC3) channelC3 = Return latest /\
    Permutation (SdkVersions.securityIssues r)
                (ReleaseInfo.securityIssues latest ++ flat_map advisoriesOf found) /\
    (forall release, In release found -> In release (ReleaseChannel.releases channelC3)) /\
    NoDup (map runtimeOf found) /\
    ~ In (ReleaseInfo.runtimeVersion latest) (map runtimeOf found).
Proof.
  eexists.
  match goal with
  | |- exists latest found, ?run = Return ?r /\ _ =>
      assert (Hrun : run = Return r) by (vm_compute; reflexivity);
      destruct (X5_scan_counts_each_release_once ordinalCompare "8.0.100" channelC3 r Hrun)
        as [latest [found H]]
  end.
  exists latest, found. split; [exact Hrun|exact H].
Defined.

(** ** Update Classifier *)

Lemma gt_irreflexive x : Js.gt x x = false.
Proof. destruct x as [|z]; [reflexivity|]. simpl. rewrite Z.gtb_ltb. apply Z.ltb_irrefl. Qed.

Lemma gt_asymmetric x y : Js.gt x y = true -> Js.gt y x = false.
Proof.
  destruct x as [|a], y as [|b]; try discriminate; simpl.
  rewrite !Z.gtb_ltb. intros H. apply Z.ltb_lt in H. apply Z.ltb_ge. lia.
Qed.

(** X6. On every pair of strings, well-formed or not: a version compared
    with itself is a patch update, and when the update from [a] to [b] is
    major the update from [b] to [a] is not. *)
Theorem X6_update_kind_of_equal_and_swapped_versions :
  forall a b : string,
    updateKind a a = "patch" /\
    (updateKind a b = "major" -> updateKind b a <> "major").
Proof.
  intros a b. split.
  - unfold updateKind. now rewrite !gt_irreflexive.
  - unfold updateKind.
    set (a0 := Js.parseInt (nth_error (Js.split "." a) 0)).
    set (b0 := Js.parseInt (nth_error (Js.split "." b) 0)).
    set (a1 := Js.parseInt (nth_error (Js.split "." a) 1)).
    set (b1 := Js.parseInt (nth_error (Js.split "." b) 1)).
    destruct (Js.gt b0 a0) eqn:Hab.
    + rewrite (gt_asymmetric _ _ Hab). intros _ H. destruct (Js.gt a1 b1); discriminate H.
    + intros H. destruct (Js.gt b1 a1); discriminate H.
Qed.

Lemma X6_witness :
  updateKind "8.0.100-preview.1" "8.0.100-preview.1" = "patch" /\
  updateKind "9.0.100" "8.0.404" <> "major".
Proof.
  destruct (X6_update_kind_of_equal_and_swapped_versions "8.0.100-preview.1" "8.0.100-preview.1")
    as [Hsame _].
  destruct (X6_update_kind_of_equal_and_swapped_versions "8.0.404" "9.0.100") as [_ Hswap].
  split; [exact Hsame|apply Hswap; reflexivity].
Defined.

Lemma fold_bullets issues : forall body,
  fold_left
    (fun body issue =>
       Js.template [body; Js.LF; "  * ["; CveInfo.id issue; "]("; CveInfo.url issue; ")"])
    issues body =
  String.append body
    (fold_right (fun issue rest => String.append (bodyBullet issue) rest) EmptyString issues).
Proof.
  induction issues as [|issue rest IH]; intros body; cbn [fold_left fold_right].
  - clear. induction body as [|c body IH]; [reflexivity|]. cbn [String.append]. now rewrite <- IH.
  - rewrite IH. rewrite <- append_assoc. reflexivity.
Qed.

(** X7. The text of a pull request is an introduction (the SDK version and
    the runtime versions with their release notes), then, only when the
    update is security-flagged and has at least one advisory, a heading
    followed by one bullet per advisory in the order of the list, then the
    footer with the link to the run. *)
Theorem X7_pull_request_body_structure :
  forall (update : SdkVersions.t) (options : UpdateOptions.t),
    generatePullRequestBody update options =
      String.append (bodyIntro update)
        (String.append
           (if SdkVersions.security update &&
               negb (Nat.eqb (List.length (SdkVersions.securityIssues update)) 0)
            then bodyAdvisories (SdkVersions.securityIssues update)
            else EmptyString)
           (bodyFooter options)).
Proof.
  intros update options. unfold generatePullRequestBody, bodyIntro, bodyAdvisories, bodyFooter.
  cbv zeta.
  assert (Hlen : (0 <? Z.of_nat (List.length (SdkVersions.securityIssues update))) =
                 negb (Nat.eqb (List.length (SdkVersions.securityIssues update)) 0)).
  { destruct (SdkVersions.securityIssues update); [reflexivity|].
    cbn [List.length Nat.eqb negb]. apply Z.ltb_lt. lia. }
  rewrite Hlen.
  destruct (SdkVersions.security update &&
            negb (Nat.eqb (List.length (SdkVersions.securityIssues update)) 0)).
  - rewrite fold_bullets.
    destruct (ReleaseInfo.runtimeVersion (SdkVersions.latest update) =?
              ReleaseInfo.runtimeVersion (SdkVersions.current update))%string;
      unfold Js.template; cbn [String.concat]; rewrite !append_assoc; reflexivity.
  - destruct (ReleaseInfo.runtimeVersion (SdkVersions.latest update) =?
              ReleaseInfo.runtimeVersion (SdkVersions.current update))%string;
      unfold Js.template; cbn [String.concat]; rewrite !append_assoc; reflexivity.
Qed.

(** ** Order of the interactions of a run *)

Arguments feedObtained : simpl never.
Arguments headResolved : simpl never.
Arguments branchAbsent : simpl never.
Arguments committed : simpl never.
Arguments writes : simpl never.
Arguments publishes : simpl never.
Arguments touchesRemote : simpl never.

Lemma exec_extends {A : Type} (w : World) (p : Prog A) : forall log,
  exists delta, fst (exec w log p) = log ++ delta.
Proof.
  induction p as [a|e|X e k IH]; intros log; cbn [exec fst].
  - exists []. now rewrite app_nil_r.
  - exists []. now rewrite app_nil_r.
  - destruct (IH (w X (map callOf log) e) (log ++ [Interacted e (w X (map callOf log) e)]))
      as [delta Hd].
    exists (Interacted e (w X (map callOf log) e) :: delta). rewrite Hd.
    now rewrite <- app_assoc.
Qed.

Lemma noneBefore_clean trigger guarded log :
  existsb trigger log = false -> existsb guarded log = false ->
  noneBefore trigger guarded log = true.
Proof.
  induction log as [|i rest IH]; [reflexivity|]. cbn [existsb noneBefore].
  intros Ht Hg. apply orb_false_iff in Ht. apply orb_false_iff in Hg.
  destruct Ht as [Hti Ht], Hg as [Hgi Hg]. rewrite Hti, Hgi. now apply IH.
Qed.

Lemma noneBefore_triggered trigger guarded log i rest :
  existsb guarded log = false -> trigger i = true ->
  noneBefore trigger guarded (log ++ i :: rest) = true.
Proof.
  intros Hg Hi. induction log as [|j log IH]; cbn [app noneBefore].
  - now rewrite Hi.
  - cbn [existsb] in Hg. apply orb_false_iff in Hg. destruct Hg as [Hgj Hg].
    destruct (trigger j); [reflexivity|]. now rewrite Hgj, IH.
Qed.

(** A program that keeps [guarded] interactions after the trigger, run in
    any world. *)
Lemma before_exec {A : Type} trigger guarded (Q : A -> Prop) (p : Prog A) :
  before trigger guarded Q p ->
  forall w log,
    existsb trigger log = false -> existsb guarded log = false ->
    noneBefore trigger guarded (fst (exec w log p)) = true.
Proof.
  induction p as [a|e|X e k IH]; cbn [before exec fst].
  - intros _ w log Ht Hg. now apply noneBefore_clean.
  - intros _ w log Ht Hg. now apply noneBefore_clean.
  - intros Hp w log Ht Hg.
    destruct (Hp (w X (map callOf log) e)) as [Hgi Hk].
    destruct (trigger (Interacted e (w X (map callOf log) e))) eqn:Hti.
    + destruct (exec_extends w (k (w X (map callOf log) e))
                  (log ++ [Interacted e (w X (map callOf log) e)])) as [delta Hd].
      rewrite Hd, <- app_assoc. cbn [app]. now apply noneBefore_triggered.
    + apply IH; [exact Hk| |]; now rewrite existsb_snoc, ?Ht, ?Hg, ?Hti, ?Hgi.
Qed.

Lemma before_bind {A B : Type} trigger guarded (P : A -> Prop) (Q : B -> Prop)
  (p : Prog A) (f : A -> Prog B) :
  before trigger guarded P p ->
  (forall a, P a -> before trigger guarded Q (f a)) ->
  before trigger guarded Q (bind p f).
Proof.
  intros Hp Hf. induction p as [a|e|X e k IH]; cbn [bind before] in *.
  - now apply Hf.
  - exact I.
  - intros r. destruct (Hp r) as [Hg Hk]. split; [exact Hg|].
    destruct (trigger (Interacted e r)); [exact I|]. now apply IH.
Qed.

Lemma never_before {A : Type} trigger guarded (p : Prog A) :
  never guarded p -> before trigger guarded (fun _ => True) p.
Proof.
  induction p as [a|e|X e k IH]; cbn [never before]; auto.
  intros Hp r. destruct (Hp r) as [Hg Hk]. split; [exact Hg|].
  destruct (trigger (Interacted e r)); [exact I|]. now apply IH.
Qed.

Lemma before_weaken {A : Type} trigger guarded (P Q : A -> Prop) (p : Prog A) :
  (forall a, P a -> Q a) -> before trigger guarded P p -> before trigger guarded Q p.
Proof.
  intros HPQ. induction p as [a|e|X e k IH]; cbn [before]; auto.
  intros Hp r. destruct (Hp r) as [Hg Hk]. split; [exact Hg|].
  destruct (trigger (Interacted e r)); [exact I|]. now apply IH.
Qed.

Section Order.

Variable localeCompare : string -> string -> Z.
Variable dirname : string -> string.

(** A git command followed by [f]: [f] runs only if the command did not
    throw, and matters only if the command was not the trigger. *)
Lemma before_execGit {A : Type} trigger guarded (Q : A -> Prop) options args ignoreErrors
  (f : string -> Prog A) :
  (forall r, guarded (Interacted (Exec "git" args (repoPath dirname options) ignoreErrors) r) = false) ->
  (forall m r, guarded (Interacted (CoreDebug m) r) = false) ->
  (forall out,
     Js.truthy (stderr out) && negb ignoreErrors = false ->
     trigger (Interacted (Exec "git" args (repoPath dirname options) ignoreErrors) (Returned out)) = false ->
     before trigger guarded Q (f (Js.trimEnd (stdout out)))) ->
  before trigger guarded Q (bind (execGit dirname options args ignoreErrors) f).
Proof.
  intros Hexec Hdebug Hf. unfold execGit. cbn [bind before]. intros r. split; [apply Hexec|].
  destruct (trigger (Interacted _ r)) eqn:Ht; [exact I|].
  destruct r as [out|err]; [|exact I].
  destruct (Js.truthy (stderr out) && negb ignoreErrors) eqn:Hthrow; [exact I|].
  pose proof (Hf out Hthrow Ht) as Hrest.
  unfold debug, when. cbn [bind before]. intros r1. split; [apply Hdebug|].
  destruct (trigger (Interacted _ r1)); [exact I|].
  destruct (Js.truthy (stderr out)); cbn [bind before].
  - intros r2. split; [apply Hdebug|]. destruct (trigger (Interacted _ r2)); [exact I|].
    exact Hrest.
  - exact Hrest.
Qed.

Lemma before_fetch {A : Type} guarded (Q : A -> Prop) channel (f : ReleaseChannel.t -> Prog A) :
  (forall m r, guarded (Interacted (CoreDebug m) r) = false) ->
  (forall url r, guarded (Interacted (GetJson url) r) = false) ->
  before feedObtained guarded Q (bind (getDotNetReleaseChannel channel) f).
Proof.
  intros Hdebug Hget. unfold getDotNetReleaseChannel, debug, call. cbn [bind before].
  intros r. split; [apply Hdebug|]. change (feedObtained (Interacted (CoreDebug _) r)) with false.
  cbv iota. intros r'. split; [apply Hget|].
  destruct r' as [response|err].
  - cbn [bind].
    change (feedObtained (Interacted (GetJson (releasesUrl channel)) (Returned response)))
      with ((statusCode response <? 400) &&
            match response_result response with
            | Some _ => true
            | None => false
            end).
    rewrite Z.geb_leb.
    destruct (statusCode response <? 400) eqn:Hlt.
    + destruct (response_result response); [exact I|]. cbn [andb].
      destruct (400 <=? statusCode response); exact I.
    + cbn [andb]. apply Z.ltb_ge in Hlt. apply Z.leb_le in Hlt. rewrite Hlt. exact I.
  - change (feedObtained (Interacted (GetJson (releasesUrl channel)) (Raised err))) with false.
    exact I.
Qed.

End Order.

Ltac before_prefix dirname :=
  apply before_bind with (P := fun _ => True);
  [ apply never_before; never_tac dirname | intros ? _ ].

Section OrderOfUpdate.

Variable localeCompare : string -> string -> Z.
Variable dirname : string -> string.

Lemma stderr_gate out : Js.truthy (stderr out) && negb false = false ->
  negb (Js.truthy (stderr out)) = false -> False.
Proof. destruct (Js.truthy (stderr out)); discriminate. Qed.

Lemma tryUpdateSdk_before_feed options :
  before feedObtained mutation (fun _ => True) (tryUpdateSdk localeCompare dirname options).
Proof.
  unfold tryUpdateSdk. before_prefix dirname. cbv zeta.
  destruct (negb (Js.truthy (manifestVersion _))); [exact I|].
  before_prefix dirname.
  apply before_fetch; intros; reflexivity.
Qed.

Lemma applySdkUpdate_before_head options globalJson versions :
  before headResolved writes (fun _ => True)
    (applySdkUpdate dirname options globalJson versions).
Proof.
  unfold applySdkUpdate. before_prefix dirname.
  apply before_execGit; [intros; reflexivity|intros; reflexivity|].
  intros out Hthrow Ht.
  change (negb (Js.truthy (stderr out)) = false) in Ht.
  destruct (stderr_gate out Hthrow Ht).
Qed.

Lemma tryUpdateSdk_before_head options :
  before headResolved writes (fun _ => True) (tryUpdateSdk localeCompare dirname options).
Proof.
  unfold tryUpdateSdk. before_prefix dirname. cbv zeta.
  destruct (negb (Js.truthy (manifestVersion _))); [exact I|].
  before_prefix dirname.
  apply before_bind with (P := fun _ => True);
    [apply never_before; unfold getDotNetReleaseChannel; never_tac dirname|intros releaseChannel _].
  destruct (getLatestRelease _ _ _) as [update|e]; [|exact I].
  do 3 before_prefix dirname.
  destruct (negb _).
  - apply before_bind with (P := fun _ => True); [apply applySdkUpdate_before_head|].
    intros [baseBranch optionsA] _. apply never_before.
    unfold createPullRequest. cbv zeta. never_tac dirname.
  - before_prefix dirname. exact I.
Qed.

Lemma applySdkUpdate_before_absent options globalJson versions :
  before branchAbsent updateStep (fun applied => fst applied = None)
    (applySdkUpdate dirname options globalJson versions).
Proof.
  unfold applySdkUpdate. do 2 before_prefix dirname.
  destruct (setSdkVersion globalJson _) as [json|e]; [|exact I].
  do 2 before_prefix dirname. cbv zeta. do 7 before_prefix dirname.
  apply before_execGit; [intros; reflexivity|intros; reflexivity|].
  intros out _ Ht.
  change (negb (Js.truthy (Js.trimEnd (stdout out))) = false) in Ht.
  apply negb_false_iff in Ht. rewrite Ht.
  unfold info. cbn [bind before]. intros r. split; [reflexivity|].
  change (branchAbsent (Interacted (CoreInfo _) r)) with false. reflexivity.
Qed.

Lemma tryUpdateSdk_before_absent options :
  before branchAbsent updateStep (fun _ => True) (tryUpdateSdk localeCompare dirname options).
Proof.
  unfold tryUpdateSdk. before_prefix dirname. cbv zeta.
  destruct (negb (Js.truthy (manifestVersion _))); [exact I|].
  before_prefix dirname.
  apply before_bind with (P := fun _ => True);
    [apply never_before; unfold getDotNetReleaseChannel; never_tac dirname|intros releaseChannel _].
  destruct (getLatestRelease _ _ _) as [update|e]; [|exact I].
  do 3 before_prefix dirname.
  destruct (negb _).
  - apply before_bind with (P := fun applied => fst applied = None);
      [apply applySdkUpdate_before_absent|].
    intros [baseBranch optionsA] Hnone. cbn [fst] in Hnone. subst baseBranch. exact I.
  - before_prefix dirname. exact I.
Qed.

Lemma applySdkUpdate_before_commit options globalJson versions :
  before committed publishes (fun applied => fst applied = None)
    (applySdkUpdate dirname options globalJson versions).
Proof.
  unfold applySdkUpdate. do 2 before_prefix dirname.
  destruct (setSdkVersion globalJson _) as [json|e]; [|exact I].
  do 2 before_prefix dirname. cbv zeta. do 7 before_prefix dirname.
  apply before_bind with (P := fun _ => True);
    [apply never_before; never_tac dirname|intros branchExists _].
  destruct (Js.truthy branchExists).
  - before_prefix dirname. reflexivity.
  - do 4 before_prefix dirname.
    apply before_execGit; [intros; reflexivity|intros; reflexivity|].
    intros out Hthrow Ht.
    change (negb (Js.truthy (stderr out)) = false) in Ht.
    destruct (stderr_gate out Hthrow Ht).
Qed.

Lemma tryUpdateSdk_before_commit options :
  before committed publishes (fun _ => True) (tryUpdateSdk localeCompare dirname options).
Proof.
  unfold tryUpdateSdk. before_prefix dirname. cbv zeta.
  destruct (negb (Js.truthy (manifestVersion _))); [exact I|].
  before_prefix dirname.
  apply before_bind with (P := fun _ => True);
    [apply never_before; unfold getDotNetReleaseChannel; never_tac dirname|intros releaseChannel _].
  destruct (getLatestRelease _ _ _) as [update|e]; [|exact I].
  do 3 before_prefix dirname.
  destruct (negb _).
  - apply before_bind with (P := fun applied => fst applied = None);
      [apply applySdkUpdate_before_commit|].
    intros [baseBranch optionsA] Hnone. cbn [fst] in Hnone. subst baseBranch. exact I.
  - before_prefix dirname. exact I.
Qed.

End OrderOfUpdate.

(** X8. In every world, [tryUpdateSdk] writes no file, runs no command and
    calls no hosting API before the release feed was fetched with a status
    below 400 and a document: a run whose fetch fails changes nothing. *)
Theorem X8_nothing_changes_before_the_feed_is_fetched :
  forall (localeCompare : string -> string -> Z) (dirname : string -> string)
         (w : World) (options : UpdateOptions.t),
    noneBefore feedObtained mutation
      (fst (exec w [] (tryUpdateSdk localeCompare dirname options))) = true.
Proof.
  intros. apply before_exec with (Q := fun _ => True); [|reflexivity|reflexivity].
  apply tryUpdateSdk_before_feed.
Qed.

(** X9. In every world, the manifest is written only after
    [git rev-parse --abbrev-ref HEAD] returned with an empty error stream:
    when the base branch cannot be read, the file is left as it was. *)
Theorem X9_manifest_written_only_after_base_branch_is_read :
  forall (localeCompare : string -> string -> Z) (dirname : string -> string)
         (w : World) (options : UpdateOptions.t),
    noneBefore headResolved writes
      (fst (exec w [] (tryUpdateSdk localeCompare dirname options))) = true.
Proof.
  intros. apply before_exec with (Q := fun _ => True); [|reflexivity|reflexivity].
  apply tryUpdateSdk_before_head.
Qed.

(** X10. In every world, a checkout, a commit, a push or the creation of a
    pull request happens only after the branch-existence check returned
    with no commit printed: none happens when the check was not reached,
    threw, or found the branch. *)
Theorem X10_update_steps_only_after_branch_found_absent :
  forall (localeCompare : string -> string -> Z) (dirname : string -> string)
         (w : World) (options : UpdateOptions.t),
    noneBefore branchAbsent updateStep
      (fst (exec w [] (tryUpdateSdk localeCompare dirname options))) = true.
Proof.
  intros. apply before_exec with (Q := fun _ => True); [|reflexivity|reflexivity].
  apply tryUpdateSdk_before_absent.
Qed.

(** X11. In every world, a push, the creation of a pull request and the
    labelling of one happen only after [git commit] returned with an empty
    error stream: a failed commit is never published. *)
Theorem X11_nothing_published_before_the_commit :
  forall (localeCompare : string -> string -> Z) (dirname : string -> string)
         (w : World) (options : UpdateOptions.t),
    noneBefore committed publishes
      (fst (exec w [] (tryUpdateSdk localeCompare dirname options))) = true.
Proof.
  intros. apply before_exec with (Q := fun _ => True); [|reflexivity|reflexivity].
  apply tryUpdateSdk_before_commit.
Qed.

(** ** What a configuration rules out *)

Lemma returns_exec {A : Type} (Q : A -> Prop) (p : Prog A) :
  returns Q p -> forall w log a, snd (exec w log p) = Return a -> Q a.
Proof.
  induction p as [a|e|X e k IH]; cbn [returns exec snd].
  - intros Ha w log a' H. now injection H as <-.
  - discriminate.
  - intros Hp w log a H. eapply IH; [apply Hp|exact H].
Qed.

Lemma returns_weaken {A : Type} (P Q : A -> Prop) (p : Prog A) :
  (forall a, P a -> Q a) -> returns P p -> returns Q p.
Proof.
  intros HPQ. induction p as [a|e|X e k IH]; cbn [returns]; auto.
Qed.

Ltac returns_step :=
  first
    [ apply returns_bind; intros ?
    | match goal with
      | |- returns _ (if ?b then _ else _) => destruct b
      | |- returns _ (match ?x with _ => _ end) => destruct x
      | |- returns _ (when ?b _) => destruct b; cbn [when]
      | |- returns _ (Fail _) => exact I
      end ].

Section Configuration.

Variable localeCompare : string -> string -> Z.
Variable dirname : string -> string.

Lemma field_of_options2 {T : Type} (field : UpdateOptions.t -> T) (c1 c2 : bool) o b m :
  field (UpdateOptions.with_branch o b) = field o ->
  (forall x, field (UpdateOptions.with_commitMessage x m) = field x) ->
  field (if c2 then (if c1 then o else UpdateOptions.with_branch o b)
         else UpdateOptions.with_commitMessage
                (if c1 then o else UpdateOptions.with_branch o b) m) = field o.
Proof. intros Hb Hm. destruct c1, c2; rewrite ?Hm; auto. Qed.

(** The options after [applySdkUpdate] differ from those before in the
    branch and the commit message only. *)
Lemma applySdkUpdate_keeps_options options globalJson versions :
  returns (fun applied =>
             UpdateOptions.dryRun (snd applied) = UpdateOptions.dryRun options /\
             UpdateOptions.repo (snd applied) = UpdateOptions.repo options /\
             UpdateOptions.branch (snd applied) = effectiveBranch options versions /\
             UpdateOptions.commitMessage (snd applied) = effectiveMessage options versions)
    (applySdkUpdate dirname options globalJson versions).
Proof.
  unfold applySdkUpdate. cbv zeta. repeat returns_step;
    cbn [returns snd]; unfold effectiveBranch, effectiveMessage;
    destruct (Js.truthy (UpdateOptions.branch options)) eqn:Hb;
    cbn [UpdateOptions.with_branch UpdateOptions.branch UpdateOptions.commitMessage];
    destruct (Js.truthy (UpdateOptions.commitMessage options)); repeat split; reflexivity.
Qed.

Lemma resolve_channel_keeps options sdkVersion :
  returns (fun o => UpdateOptions.dryRun o = UpdateOptions.dryRun options /\
                    UpdateOptions.repo o = UpdateOptions.repo options /\
                    UpdateOptions.branch o = UpdateOptions.branch options)
    (if negb (Js.truthy (UpdateOptions.channel options))
     then
       if Z.of_nat (List.length (Js.split "." sdkVersion)) <? 2
       then Fail (Js.Error (Js.template [".NET SDK version '"; sdkVersion; "' is not valid."]))
       else Ret (UpdateOptions.with_channel options
                   (Js.template [nth 0 (Js.split "." sdkVersion) EmptyString; ".";
                                 nth 1 (Js.split "." sdkVersion) EmptyString]))
     else Ret options).
Proof.
  destruct (negb _); [destruct (_ <? 2)|]; cbn [returns]; repeat split; try exact I.
Qed.

Lemma applySdkUpdate_dry options globalJson versions :
  UpdateOptions.dryRun options = true ->
  never publishes (applySdkUpdate dirname options globalJson versions).
Proof.
  intros Hdry. unfold applySdkUpdate. cbv zeta.
  rewrite (field_of_options2 UpdateOptions.dryRun) by reflexivity.
  rewrite Hdry. cbn [negb andb when]. never_tac dirname.
Qed.

Lemma createPullRequest_dry options base update :
  UpdateOptions.dryRun options = true ->
  never publishes (createPullRequest options base update).
Proof.
  intros Hdry. unfold createPullRequest. cbv zeta.
  apply never_bind; [never_tac dirname|intros _]. rewrite Hdry. never_tac dirname.
Qed.

Lemma tryUpdateSdk_dry options :
  UpdateOptions.dryRun options = true ->
  never publishes (tryUpdateSdk localeCompare dirname options).
Proof.
  intros Hdry. unfold tryUpdateSdk.
  apply never_bind; [never_tac dirname|intros globalJson]. cbv zeta.
  destruct (negb (Js.truthy (manifestVersion globalJson))); [exact I|].
  apply never_bind_returns with (P := fun o => UpdateOptions.dryRun o = true).
  - never_tac dirname.
  - eapply returns_weaken; [|apply resolve_channel_keeps].
    intros o [Ho _]. now rewrite Ho.
  - intros optionsC HC.
    apply never_bind; [unfold getDotNetReleaseChannel; never_tac dirname|intros releaseChannel].
    destruct (getLatestRelease _ _ _) as [update|e]; [|exact I].
    do 3 (apply never_bind; [never_tac dirname|intros _]).
    destruct (negb _); [|never_tac dirname].
    apply never_bind_returns with (P := fun applied => UpdateOptions.dryRun (snd applied) = true).
    + now apply applySdkUpdate_dry.
    + eapply returns_weaken; [|apply applySdkUpdate_keeps_options].
      intros a [Ha _]. now rewrite Ha.
    + intros [baseBranch optionsA] HA. cbn [snd] in HA.
      destruct baseBranch as [base|]; [|exact I].
      destruct (Js.truthy base); [|exact I].
      apply never_bind; [now apply createPullRequest_dry|intros pr; exact I].
Qed.

Lemma applySdkUpdate_local options globalJson versions :
  hasRepository options = false ->
  never touchesRemote (applySdkUpdate dirname options globalJson versions).
Proof.
  unfold hasRepository. intros Hrepo. unfold applySdkUpdate. cbv zeta.
  rewrite (field_of_options2 UpdateOptions.repo) by reflexivity.
  rewrite Hrepo. rewrite andb_false_r. cbn [when]. never_tac dirname.
Qed.

Lemma tryUpdateSdk_local options :
  hasRepository options = false ->
  never touchesRemote (tryUpdateSdk localeCompare dirname options).
Proof.
  intros Hrepo. unfold tryUpdateSdk.
  apply never_bind; [never_tac dirname|intros globalJson]. cbv zeta.
  destruct (negb (Js.truthy (manifestVersion globalJson))); [exact I|].
  apply never_bind_returns with (P := fun o => hasRepository o = false).
  - never_tac dirname.
  - eapply returns_weaken; [|apply resolve_channel_keeps].
    intros o [_ [Ho _]]. unfold hasRepository in *. now rewrite Ho.
  - intros optionsC HC.
    apply never_bind; [unfold getDotNetReleaseChannel; never_tac dirname|intros releaseChannel].
    destruct (getLatestRelease _ _ _) as [update|e]; [|exact I].
    do 3 (apply never_bind; [never_tac dirname|intros _]).
    destruct (negb _); [|never_tac dirname].
    apply never_bind; [now apply applySdkUpdate_local|].
    intros [baseBranch optionsA].
    destruct baseBranch as [base|]; [|exact I].
    destruct (Js.truthy base); [|exact I].
    apply never_bind; [unfold createPullRequest; cbv zeta; never_tac dirname|intros pr; exact I].
Qed.

End Configuration.

(** X12. With the dry-run flag set, in every world [tryUpdateSdk] pushes
    nothing, creates no pull request and labels none. *)
Theorem X12_dry_run_publishes_nothing :
  forall (localeCompare : string -> string -> Z) (dirname : string -> string)
         (w : World) (options : UpdateOptions.t),
    UpdateOptions.dryRun options = true ->
    existsb publishes (fst (exec w [] (tryUpdateSdk localeCompare dirname options))) = false.
Proof.
  intros localeCompare dirname w options Hdry.
  apply never_exec; [now apply tryUpdateSdk_dry|reflexivity].
Qed.

Lemma X12_witness :
  existsb publishes
    (fst (exec (worldC channelC2 EmptyString) []
            (tryUpdateSdk ordinalCompare dirnameC (withDryRun optionsC true)))) = false /\
  existsb updateStep
    (fst (exec (worldC channelC2 EmptyString) []
            (tryUpdateSdk ordinalCompare dirnameC (withDryRun optionsC true)))) = true.
Proof.
  split.
  - apply (X12_dry_run_publishes_nothing ordinalCompare dirnameC (worldC channelC2 EmptyString)
             (withDryRun optionsC true)).
    reflexivity.
  - vm_compute. reflexivity.
Defined.

(** X13. Without a repository ([GITHUB_REPOSITORY] unset or empty), in
    every world [tryUpdateSdk] runs no [git remote], no [git fetch] and no
    [git push]. *)
Theorem X13_without_repository_no_remote_command :
  forall (localeCompare : string -> string -> Z) (dirname : string -> string)
         (w : World) (options : UpdateOptions.t),
    hasRepository options = false ->
    existsb touchesRemote (fst (exec w [] (tryUpdateSdk localeCompare dirname options))) = false.
Proof.
  intros localeCompare dirname w options Hrepo.
  apply never_exec; [now apply tryUpdateSdk_local|reflexivity].
Qed.

Lemma X13_witness :
  existsb touchesRemote
    (fst (exec (worldC channelC2 EmptyString) []
            (tryUpdateSdk ordinalCompare dirnameC (withRepo optionsC None)))) = false /\
  existsb updateStep
    (fst (exec (worldC channelC2 EmptyString) []
            (tryUpdateSdk ordinalCompare dirnameC (withRepo optionsC None)))) = true.
Proof.
  split.
  - apply (X13_without_repository_no_remote_command ordinalCompare dirnameC
             (worldC channelC2 EmptyString) (withRepo optionsC None)).
    reflexivity.
  - vm_compute. reflexivity.
Defined.

Ltac never_step_with dirname solver :=
  first
    [ exact I
    | apply never_bind; [|intros ?]
    | apply never_when
    | apply never_tryCatch; [|intros ?]
    | apply (never_execGit dirname); [intros; solver|intros; solver]
    | apply never_call; intros; solver
    | apply never_log; intros; solver
    | match goal with
      | |- never _ (if ?b then _ else _) => destruct b
      | |- never _ (match ?x with _ => _ end) => destruct x
      end ].

Ltac equal_strings := cbn; rewrite ?String.eqb_refl; reflexivity.

Arguments offPlan : simpl nomatch.

Section Plan.

Variable localeCompare : string -> string -> Z.
Variable dirname : string -> string.

Lemma applySdkUpdate_on_plan options globalJson versions :
  never (offPlan (effectiveBranch options versions) (effectiveMessage options versions))
    (applySdkUpdate dirname options globalJson versions).
Proof.
  unfold applySdkUpdate, effectiveBranch, effectiveMessage. cbv zeta.
  destruct (Js.truthy (UpdateOptions.branch options));
    unfold UpdateOptions.with_branch;
    cbn [UpdateOptions.branch UpdateOptions.commitMessage];
    destruct (Js.truthy (UpdateOptions.commitMessage options));
    unfold UpdateOptions.with_commitMessage;
    cbn [UpdateOptions.branch UpdateOptions.commitMessage
         UpdateOptions.userName UpdateOptions.userEmail UpdateOptions.repo UpdateOptions.dryRun
         UpdateOptions.serverUrl UpdateOptions.globalJsonPath];
    unfold info, debug, error;
    try (generalize (Js.toLowerCase
                       (Js.template ["update-dotnet-sdk-";
                                     ReleaseInfo.sdkVersion (SdkVersions.latest versions)]));
         intros derived);
    try (generalize (generateCommitMessage
                       (ReleaseInfo.sdkVersion (SdkVersions.current versions))
                       (ReleaseInfo.sdkVersion (SdkVersions.latest versions)));
         intros generated);
    repeat never_step_with dirname equal_strings.
Qed.

Lemma tryUpdateSdk_result_shape options :
  returns (fun updated =>
             UpdateResult.updated (fst updated) = false ->
             UpdateResult.security (fst updated) = false /\
             UpdateResult.pullRequestNumber (fst updated) = 0 /\
             UpdateResult.pullRequestUrl (fst updated) = EmptyString)
    (tryUpdateSdk localeCompare dirname options).
Proof.
  unfold tryUpdateSdk. apply returns_bind. intros globalJson. cbv zeta.
  destruct (negb (Js.truthy (manifestVersion globalJson))); [exact I|].
  apply returns_bind. intros optionsC. apply returns_bind. intros releaseChannel.
  destruct (getLatestRelease _ _ _) as [update|e]; [|exact I].
  do 3 (apply returns_bind; intros _).
  destruct (negb _).
  - apply returns_bind. intros [baseBranch optionsA].
    destruct baseBranch as [base|]; [|cbn; auto].
    destruct (Js.truthy base); [|cbn; auto].
    apply returns_bind. intros pullRequest. cbn. discriminate.
  - apply returns_bind. intros _. cbn. auto.
Qed.

End Plan.

(** X14. In every world, the branch check, the checkout, the commit and
    the push of [applySdkUpdate] use one branch and one message: the
    configured branch, or [update-dotnet-sdk-<latest SDK version>] in lower
    case when none is configured, and the configured commit message, or the
    generated one when none is configured; the options returned hold this
    branch and this message. *)
Theorem X14_one_branch_and_one_message_per_update :
  forall (dirname : string -> string) (w : World) (options : UpdateOptions.t)
         (globalJson : GlobalJson.t) (versions : SdkVersions.t),
    existsb (offPlan (effectiveBranch options versions) (effectiveMessage options versions))
      (fst (exec w [] (applySdkUpdate dirname options globalJson versions))) = false /\
    (forall baseBranch optionsAfter,
       snd (exec w [] (applySdkUpdate dirname options globalJson versions)) =
         Return (baseBranch, optionsAfter) ->
       UpdateOptions.branch optionsAfter = effectiveBranch options versions /\
       UpdateOptions.commitMessage optionsAfter = effectiveMessage options versions).
Proof.
  intros dirname w options globalJson versions. split.
  - apply never_exec; [apply applySdkUpdate_on_plan|reflexivity].
  - intros baseBranch optionsAfter H.
    pose proof (returns_exec _ _ (applySdkUpdate_keeps_options dirname options globalJson versions)
                  w [] _ H) as [_ [_ [Hb Hm]]].
    split; assumption.
Qed.

Lemma X14_witness :
  effectiveBranch optionsC updateC = "update-dotnet-sdk-8.0.101" /\
  existsb (offPlan "update-dotnet-sdk-8.0.101" (effectiveMessage optionsC updateC))
    (fst (exec (worldC channelC2 EmptyString) []
            (applySdkUpdate dirnameC optionsC manifestC updateC))) = false /\
  exists optionsAfter,
    snd (exec (worldC channelC2 EmptyString) []
           (applySdkUpdate dirnameC optionsC manifestC updateC)) = Return (Some "main", optionsAfter) /\
    UpdateOptions.branch optionsAfter = "update-dotnet-sdk-8.0.101".
Proof.
  destruct (X14_one_branch_and_one_message_per_update dirnameC (worldC channelC2 EmptyString)
              optionsC manifestC updateC) as [Hlog Hopts].
  split; [reflexivity|]. split; [exact Hlog|].
  eexists. split; [vm_compute; reflexivity|].
  refine (proj1 (Hopts (Some "main") _ _)). vm_compute. reflexivity.
Defined.

(** X16. In every world, a result of [tryUpdateSdk] that reports no update
    reports no security update and no pull request either: the security
    flag and the pull-request number and URL are only set together with
    [updated]. *)
Theorem X16_result_without_update_is_blank :
  forall (localeCompare : string -> string -> Z) (dirname : string -> string)
         (w : World) (options : UpdateOptions.t)
         (result : UpdateResult.t) (optionsAfter : UpdateOptions.t),
    snd (exec w [] (tryUpdateSdk localeCompare dirname options)) = Return (result, optionsAfter) ->
    UpdateResult.updated result = false ->
    UpdateResult.security result = false /\
    UpdateResult.pullRequestNumber result = 0 /\
    UpdateResult.pullRequestUrl result = EmptyString.
Proof.
  intros localeCompare dirname w options result optionsAfter Hrun Hupdated.
  exact (returns_exec _ _ (tryUpdateSdk_result_shape localeCompare dirname options)
           w [] _ Hrun Hupdated).
Qed.

Lemma X16_witness :
  exists result optionsAfter,
    snd (exec (worldC channelC2 "0a1b2c3") [] (tryUpdateSdk ordinalCompare dirnameC optionsC)) =
      Return (result, optionsAfter) /\
    UpdateResult.security result = false /\
    UpdateResult.pullRequestNumber result = 0 /\
    UpdateResult.pullRequestUrl result = EmptyString.
Proof.
  eexists. eexists.
  match goal with
  | |- ?run = Return (?r, ?o) /\ _ =>
      assert (Hrun : run = Return (r, o)) by (vm_compute; reflexivity)
  end.
  split; [exact Hrun|].
  apply (X16_result_without_update_is_blank ordinalCompare dirnameC (worldC channelC2 "0a1b2c3")
           optionsC _ _ Hrun).
  reflexivity.
Defined.

(** ** Failures of a run *)

Arguments raisedSetFailed : simpl never.

Lemma existsb_exec_mono {A : Type} (f : Interaction -> bool) (w : World) (p : Prog A) log :
  existsb f log = true -> existsb f (fst (exec w log p)) = true.
Proof.
  intros H. destruct (exec_extends w p log) as [delta Hd]. rewrite Hd, existsb_app, H. reflexivity.
Qed.

Lemma settles_exec {A : Type} (p : Prog A) :
  settles p ->
  forall w log,
    existsb raisedSetFailed (fst (exec w log p)) = false ->
    exists a, snd (exec w log p) = Return a.
Proof.
  induction p as [a|e|X e k IH]; cbn [settles exec fst snd].
  - intros _ w log _. now exists a.
  - contradiction.
  - intros Hp w log Hlog. destruct (Hp (w X (map callOf log) e)) as [Hraised|Hk].
    + rewrite existsb_exec_mono in Hlog; [discriminate|].
      now rewrite existsb_snoc, Hraised, orb_true_r.
    + now apply IH.
Qed.

Lemma settles_tryCatch {A : Type} (p : Prog A) (handler : Js.error -> Prog A) :
  (forall e, settles (handler e)) -> settles (tryCatch p handler).
Proof.
  intros Hh. induction p as [a|e|X e k IH]; cbn [tryCatch settles]; auto.
Qed.

Lemma run_settles localeCompare dirname : settles (run localeCompare dirname).
Proof.
  unfold run. apply settles_tryCatch. intros err.
  unfold error, call. cbn [bind settles]. intros r1. right. intros r2. right.
  intros r. destruct r as [[]|e]; [right; exact I|left; reflexivity].
Qed.

(** X17. [run] catches every error: in every world, unless a call of
    [core.setFailed] itself throws, [run] returns. *)
Theorem X17_run_reports_every_failure :
  forall (localeCompare : string -> string -> Z) (dirname : string -> string) (w : World),
    existsb raisedSetFailed (fst (exec w [] (run localeCompare dirname))) = false ->
    snd (exec w [] (run localeCompare dirname)) = Return tt.
Proof.
  intros localeCompare dirname w H.
  destruct (settles_exec _ (run_settles localeCompare dirname) w [] H) as [[] Ha]. exact Ha.
Qed.

Lemma X17_witness :
  snd (exec (worldManifest (GlobalJson.make None EmptyString)) [] (run ordinalCompare dirnameC)) =
    Return tt.
Proof.
  apply (X17_run_reports_every_failure ordinalCompare dirnameC
           (worldManifest (GlobalJson.make None EmptyString))).
  vm_compute. reflexivity.
Defined.

(** X18. When the manifest file does not exist, [run] reports the failure
    naming the resolved path and does nothing else: the manifest is not
    read, no feed is fetched and no output is set. *)
Theorem X18_missing_manifest_file_is_reported :
  forall (localeCompare : string -> string -> Z) (dirname : string -> string) (w : World)
         (token file path : string),
    w _ [] (GetInput "repo-token" true) = Returned token ->
    w _ (firstn 1 (startCalls file path)) (GetInput "global-json-file" true) = Returned file ->
    w _ (firstn 2 (startCalls file path)) (PathResolve file) = Returned path ->
    w _ (firstn 3 (startCalls file path)) (ExistsSync path) = Returned false ->
    w _ (startCalls file path)
      (SetFailed (String.append "The global.json file '"
                    (String.append path "' cannot be found."))) = Returned tt ->
    snd (exec w [] (run localeCompare dirname)) = Return tt /\
    map callOf (fst (exec w [] (run localeCompare dirname))) =
      startCalls file path ++
      [Called (SetFailed (String.append "The global.json file '"
                            (String.append path "' cannot be found.")))].
Proof.
  intros localeCompare dirname w token file path Htoken Hfile Hpath Hexists Hfailed.
  unfold run, getInput, call. cbn [bind tryCatch exec app map callOf].
  rewrite Htoken. cbn [bind tryCatch exec app map callOf].
  unfold startCalls in *. cbn [firstn] in Hfile, Hpath, Hexists.
  rewrite Hfile. cbn [bind tryCatch exec app map callOf].
  rewrite Hpath. cbn [bind tryCatch exec app map callOf].
  rewrite Hexists. cbn [negb bind tryCatch exec app map callOf].
  change (Js.template ["The global.json file '"; path; "' cannot be found."])
    with (String.append "The global.json file '" (String.append path "' cannot be found.")).
  rewrite Hfailed. cbn [bind tryCatch exec app map callOf fst snd].
  split; reflexivity.
Qed.

Lemma X18_witness :
  snd (exec worldMissing [] (run ordinalCompare dirnameC)) = Return tt /\
  map callOf (fst (exec worldMissing [] (run ordinalCompare dirnameC))) =
    startCalls "global.json" "/repo/global.json" ++
    [Called (SetFailed "The global.json file '/repo/global.json' cannot be found.")].
Proof.
  apply (X18_missing_manifest_file_is_reported ordinalCompare dirnameC worldMissing
           "token" "global.json" "/repo/global.json"); reflexivity.
Defined.

(** X19. A manifest without an SDK version (no [sdk] member, no [version]
    in it, or an empty one) makes [tryUpdateSdk] throw the error that names
    the manifest's path, after the read and before any other call. *)
Theorem X19_manifest_without_version_is_rejected :
  forall (localeCompare : string -> string -> Z) (dirname : string -> string) (w : World)
         (options : UpdateOptions.t) (globalJson : GlobalJson.t),
    w _ [] (ReadGlobalJson (UpdateOptions.globalJsonPath options)) = Returned globalJson ->
    manifestVersion globalJson = EmptyString ->
    exec w [] (tryUpdateSdk localeCompare dirname options) =
      ([Interacted (ReadGlobalJson (UpdateOptions.globalJsonPath options)) (Returned globalJson)],
       Throws (Js.Error (String.append ".NET SDK version cannot be found in '"
                           (String.append (UpdateOptions.globalJsonPath options) "'.")))).
Proof.
  intros localeCompare dirname w options globalJson Hread Hversion.
  unfold tryUpdateSdk, call. cbn [bind exec app map callOf]. rewrite Hread.
  cbn [bind]. rewrite Hversion. reflexivity.
Qed.

Lemma X19_witness :
  exec (worldManifest (GlobalJson.make (Some (GlobalJson.make_sdk None)) EmptyString)) []
    (tryUpdateSdk ordinalCompare dirnameC optionsC) =
    ([Interacted (ReadGlobalJson "/repo/global.json")
        (Returned (GlobalJson.make (Some (GlobalJson.make_sdk None)) EmptyString))],
     Throws (Js.Error ".NET SDK version cannot be found in '/repo/global.json'.")).
Proof.
  apply (X19_manifest_without_version_is_rejected ordinalCompare dirnameC
           (worldManifest (GlobalJson.make (Some (GlobalJson.make_sdk None)) EmptyString))
           optionsC (GlobalJson.make (Some (GlobalJson.make_sdk None)) EmptyString));
    reflexivity.
Defined.

(** X20. Without a configured channel, an SDK version that holds no ['.']
    makes [tryUpdateSdk] throw the error that names the version, after the
    read and before any other call; with a configured channel the version
    is not examined at this point. *)
Theorem X20_version_without_dot_is_rejected :
  forall (localeCompare : string -> string -> Z) (dirname : string -> string) (w : World)
         (options : UpdateOptions.t) (globalJson : GlobalJson.t),
    w _ [] (ReadGlobalJson (UpdateOptions.globalJsonPath options)) = Returned globalJson ->
    Js.truthy (manifestVersion globalJson) = true ->
    Js.truthy (UpdateOptions.channel options) = false ->
    Js.includes "." (manifestVersion globalJson) = false ->
    exec w [] (tryUpdateSdk localeCompare dirname options) =
      ([Interacted (ReadGlobalJson (UpdateOptions.globalJsonPath options)) (Returned globalJson)],
       Throws (Js.Error (String.append ".NET SDK version '"
                           (String.append (manifestVersion globalJson) "' is not valid.")))).
Proof.
  intros localeCompare dirname w options globalJson Hread Hversion Hchannel Hdot.
  unfold tryUpdateSdk, call. cbn [bind exec app map callOf]. rewrite Hread.
  cbn [bind]. rewrite Hversion, Hchannel, (split_no_dot _ Hdot). reflexivity.
Qed.

Lemma X20_witness :
  exec (worldManifest (GlobalJson.make (Some (GlobalJson.make_sdk (Some "8"))) EmptyString)) []
    (tryUpdateSdk ordinalCompare dirnameC optionsC) =
    ([Interacted (ReadGlobalJson "/repo/global.json")
        (Returned (GlobalJson.make (Some (GlobalJson.make_sdk (Some "8"))) EmptyString))],
     Throws (Js.Error ".NET SDK version '8' is not valid.")).
Proof.
  apply (X20_version_without_dot_is_rejected ordinalCompare dirnameC
           (worldManifest (GlobalJson.make (Some (GlobalJson.make_sdk (Some "8"))) EmptyString))
           optionsC (GlobalJson.make (Some (GlobalJson.make_sdk (Some "8"))) EmptyString));
    reflexivity.
Defined.
(** Running a call followed by a continuation. *)
Lemma exec_call {A X : Type} (w : World) (log : list Interaction) (e : Event X)
  (k : X -> Prog A) :
  exec w log (bind (call e) k) =
    match w _ (map callOf log) e with
    | Returned x => exec w (log ++ [Interacted e (Returned x)]) (k x)
    | Raised err => (log ++ [Interacted e (Raised err)], Throws err)
    end.
Proof. unfold call. cbn [bind exec]. destruct (w X (map callOf log) e); reflexivity. Qed.

(** X21. [createPullRequest] first builds the client, with the access
    token and the API URL of the options; if that throws, so does
    [createPullRequest], and nothing else is called. Once the client is
    built: with the dry-run flag no pull request is asked for and the
    placeholder (number 0, empty URL) is returned; without it exactly one
    pull request is asked for, from the branch of the options to the base
    branch, titled with the latest SDK version, not a draft and open to
    maintainer edits. If that request throws, so does [createPullRequest];
    if it returns, so does [createPullRequest], with the number and the URL
    created, whatever becomes of the labels: an error thrown while labelling
    is logged and swallowed. *)
Theorem X21_label_failure_does_not_fail_the_pull_request :
  forall (w : World) (log : list Interaction) (options : UpdateOptions.t) (base : string)
         (update : SdkVersions.t),
    let client :=
      GetOctokit (UpdateOptions.accessToken options) (UpdateOptions.apiUrl options) in
    let outcome := exec w log (createPullRequest options base update) in
    (forall err,
       w _ (map callOf log) client = Raised err ->
       outcome = (log ++ [Interacted client (Raised err)], Throws err)) /\
    (w _ (map callOf log) client = Returned tt ->
     (UpdateOptions.dryRun options = true ->
      flat_map pullRequests (fst outcome) = flat_map pullRequests log /\
      snd outcome = Return (mkPullRequest 0 EmptyString)) /\
     (UpdateOptions.dryRun options = false ->
      exists request,
        req_head request = UpdateOptions.branch options /\
        req_base request = base /\
        req_title request =
          String.append "Update .NET SDK to " (ReleaseInfo.sdkVersion (SdkVersions.latest update)) /\
        req_body request = generatePullRequestBody update options /\
        req_draft request = false /\
        req_maintainer_can_modify request = true /\
        flat_map pullRequests (fst outcome) = flat_map pullRequests log ++ [request] /\
        snd outcome =
          match w _ (map callOf (log ++ [Interacted client (Returned tt)])) (PullsCreate request) with
          | Returned data => Return (mkPullRequest (data_number data) (data_html_url data))
          | Raised err => Throws err
          end)).
Proof.
  intros w log options base update client outcome. subst client outcome.
  unfold createPullRequest. cbv zeta. rewrite exec_call.
  split; [intros err Hclient; rewrite Hclient; reflexivity|].
  intros Hclient. rewrite Hclient. split.
  - intros Hdry. rewrite Hdry. unfold info. cbn [bind exec fst snd].
    split; [|reflexivity].
    rewrite !flat_map_app. cbn [flat_map pullRequests]. now rewrite !app_nil_r.
  - intros Hdry. rewrite Hdry.
    exists (mkPullRequestRequest
              (nth 0 (Js.split "/" (match UpdateOptions.repo options with
                                    | Some r => r
                                    | None => "/"
                                    end)) EmptyString)
              (nth_error (Js.split "/" (match UpdateOptions.repo options with
                                        | Some r => r
                                        | None => "/"
                                        end)) 1)
              (Js.template ["Update .NET SDK to "; ReleaseInfo.sdkVersion (SdkVersions.latest update)])
              (UpdateOptions.branch options) base (generatePullRequestBody update options)
              true false).
    do 6 (split; [reflexivity|]).
    unfold call, debug, info, error, when. cbn [bind exec].
    destruct (w PullRequestData _ (PullsCreate _)) as [data|err].
    + cbn [bind exec].
      destruct (Js.truthy (UpdateOptions.labels options));
        [destruct (0 <? _);
           [cbn [tryCatch bind exec pr_number]; destruct (w unit _ (AddLabels _ _ _ _))|]|];
        cbn [tryCatch bind exec fst snd]; (split; [|reflexivity]);
        rewrite !flat_map_app; cbn [flat_map pullRequests app];
        now rewrite ?app_nil_r.
    + cbn [bind exec fst snd]. split; [|reflexivity].
      rewrite !flat_map_app. cbn [flat_map pullRequests app]. now rewrite ?app_nil_r.
Qed.

(** X21 at a world that refuses the labels, with two labels configured, and
    under the dry-run flag. *)
Lemma X21_witness :
  snd (exec worldNoLabels [] (createPullRequest (withLabels optionsC "dependencies,.NET") "main" updateC)) =
    Return (mkPullRequest 7 "https://github.example/o/r/pull/7") /\
  flat_map labelRequests
    (fst (exec worldNoLabels [] (createPullRequest (withLabels optionsC "dependencies,.NET") "main" updateC))) =
    [(7, ["dependencies"; ".NET"])] /\
  snd (exec worldNoLabels [] (createPullRequest (withDryRun optionsC true) "main" updateC)) =
    Return (mkPullRequest 0 EmptyString).
Proof.
  split; [|split].
  - destruct (proj2 (X21_label_failure_does_not_fail_the_pull_request worldNoLabels []
                       (withLabels optionsC "dependencies,.NET") "main" updateC) eq_refl)
      as [_ Hwet].
    destruct (Hwet eq_refl) as [request [_ [_ [_ [_ [_ [_ [_ Hrun]]]]]]]].
    rewrite Hrun. reflexivity.
  - vm_compute. reflexivity.
  - destruct (proj2 (X21_label_failure_does_not_fail_the_pull_request worldNoLabels []
                       (withDryRun optionsC true) "main" updateC) eq_refl)
      as [Hdry _].
    exact (proj2 (Hdry eq_refl)).
Defined.

(** ** Errors of the resolvers *)

(** X22. [getReleaseForSdk] fails exactly when no release has the version
    as primary descriptor and none lists it as an alternate, or when two or
    more releases have it as primary descriptor; the only error it throws
    is the one that names the requested version. *)
Theorem X22_getReleaseForSdk_fails_exactly_when_absent_or_ambiguous :
  forall (v : string) (channel : ReleaseChannel.t),
    ((exists e, getReleaseForSdk v channel = Throws e) <->
     (primaryMatches v channel = [] /\
      filter (hasAlternate v) (ReleaseChannel.releases channel) = []) \/
     (2 <= List.length (primaryMatches v channel))%nat) /\
    (forall e, getReleaseForSdk v channel = Throws e ->
       e = Js.Error (String.append "Failed to find release for .NET SDK version " v)).
Proof.
  intros v channel.
  pose proof (alternateMatches_kept v (ReleaseChannel.releases channel) None) as Hk.
  pose proof (alternateMatches_some v (ReleaseChannel.releases channel) None) as Hs.
  unfold getReleaseForSdk.
  destruct (primaryMatches v channel) as [|only [|second rest]] eqn:Hp.
  - destruct (alternateMatches v (ReleaseChannel.releases channel) None) as [kept fo].
    cbn [fst snd] in Hk, Hs. rewrite <- Hk in Hs |- *.
    destruct kept as [|release kept].
    + split.
      * split; [intros _; now left|intros _; eexists; reflexivity].
      * intros e H. injection H as <-. reflexivity.
    + destruct Hs as [found Hfound]; [intros H; discriminate H|]. subst fo. split.
      * split; [intros [e He]; discriminate|].
        intros [[_ Hnil]|Hlen]; [discriminate|cbn in Hlen; lia].
      * discriminate.
  - split.
    + split; [intros [e He]; discriminate|].
      intros [[Hnil _]|Hlen]; [discriminate|cbn in Hlen; lia].
    + discriminate.
  - split.
    + split; [intros _; right; cbn; lia|intros _; eexists; reflexivity].
    + intros e H. injection H as <-. reflexivity.
Qed.

Lemma X22_witness :
  (exists e, getReleaseForSdk "8.0.100" channelC10 = Throws e) /\
  getReleaseForSdk "9.0.100" channelC4 =
    Throws (Js.Error "Failed to find release for .NET SDK version 9.0.100").
Proof.
  split.
  - apply (proj1 (X22_getReleaseForSdk_fails_exactly_when_absent_or_ambiguous
                    "8.0.100" channelC10)).
    right. cbn. lia.
  - destruct (proj2 (proj1 (X22_getReleaseForSdk_fails_exactly_when_absent_or_ambiguous
                              "9.0.100" channelC4)) (or_introl (conj eq_refl eq_refl)))
      as [e He].
    rewrite He. f_equal.
    apply (proj2 (X22_getReleaseForSdk_fails_exactly_when_absent_or_ambiguous
                    "9.0.100" channelC4) e He).
Defined.

Lemma getReleaseForSdk_outcome v channel :
  getReleaseForSdk v channel =
    Throws (Js.Error (String.append "Failed to find release for .NET SDK version " v)) \/
  exists info, getReleaseForSdk v channel = Return info.
Proof.
  destruct (getReleaseForSdk v channel) as [info|e] eqn:H; [right; now exists info|left].
  revert H. unfold getReleaseForSdk.
  destruct (primaryMatches v channel) as [|only [|second rest]].
  - destruct (alternateMatches v (ReleaseChannel.releases channel) None) as [[|release kept] [found|]];
      intros H; try discriminate H; injection H as <-; reflexivity.
  - discriminate.
  - intros H. injection H as <-. reflexivity.
Qed.

(** X23. [getLatestRelease] throws three errors only: the one that names
    the requested version when it is not found, the one that names the
    channel's latest SDK when that is not found (the requested version is
    looked up first), and the TypeError of a missing patch segment. *)
Theorem X23_errors_of_getLatestRelease :
  forall (localeCompare : string -> string -> Z) (currentSdkVersion : string)
         (channel : ReleaseChannel.t),
    (forall e, getReleaseForSdk currentSdkVersion channel = Throws e ->
       getLatestRelease localeCompare currentSdkVersion channel =
         Throws (Js.Error (String.append "Failed to find release for .NET SDK version "
                             currentSdkVersion))) /\
    (forall e, getLatestRelease localeCompare currentSdkVersion channel = Throws e ->
       e = Js.Error (String.append "Failed to find release for .NET SDK version "
                       currentSdkVersion) \/
       e = Js.Error (String.append "Failed to find release for .NET SDK version "
                       (ReleaseChannel.latest_sdk channel)) \/
       e = Js.TypeError "Cannot read properties of undefined (reading 'includes')").
Proof.
  intros localeCompare currentSdkVersion channel.
  destruct (getReleaseForSdk_outcome currentSdkVersion channel) as [Hc|[current Hc]];
    destruct (getReleaseForSdk_outcome (ReleaseChannel.latest_sdk channel) channel) as [Hl|[latest Hl]];
    unfold getLatestRelease; rewrite Hc, ?Hl; split;
    try (intros e H; discriminate H);
    try (intros e _; reflexivity);
    try (intros e H; injection H as <-; auto).
  intros e.
  destruct (nth_error (Js.split "." (ReleaseInfo.runtimeVersion current)) 2) as [cp|];
    [|intros H; injection H as <-; auto].
  destruct (Js.includes "-" cp); [discriminate|].
  destruct (nth_error (Js.split "." (ReleaseInfo.runtimeVersion latest)) 2) as [lp|];
    [|intros H; injection H as <-; auto].
  destruct (Js.includes "-" lp); discriminate.
Qed.

Lemma X23_witness :
  getLatestRelease ordinalCompare "9.0.100" channelC10 =
    Throws (Js.Error "Failed to find release for .NET SDK version 9.0.100").
Proof.
  apply (proj1 (X23_errors_of_getLatestRelease ordinalCompare "9.0.100" channelC10)
           (Js.Error "Failed to find release for .NET SDK version 9.0.100")).
  reflexivity.
Defined.

(** ** The channel of a run *)

Arguments otherFetch : simpl nomatch.

Section Channel.

Variable localeCompare : string -> string -> Z.
Variable dirname : string -> string.

Lemma after_resolution_one_fetch (options : UpdateOptions.t)
  (k : ReleaseChannel.t -> Prog (UpdateResult.t * UpdateOptions.t)) :
  (forall c, never (otherFetch (releasesUrl (UpdateOptions.channel options))) (k c)) ->
  never (otherFetch (releasesUrl (UpdateOptions.channel options)))
    (bind (getDotNetReleaseChannel (UpdateOptions.channel options)) k).
Proof.
  intros Hk. apply never_bind; [|exact Hk].
  unfold getDotNetReleaseChannel, debug.
  generalize (releasesUrl (UpdateOptions.channel options)). intros url.
  repeat never_step_with dirname equal_strings.
Qed.

Lemma update_fetches_nothing options globalJson update :
  forall url,
    never (otherFetch url)
      (applied <- applySdkUpdate dirname options globalJson update ;;
       let '(baseBranch, optionsA) := applied in
       match baseBranch with
       | Some base =>
           if Js.truthy base
           then
             pullRequest <- createPullRequest optionsA base update ;;
             Ret (UpdateResult.make None (pr_number pullRequest) (pr_url pullRequest) true
                    (SdkVersions.security update)
                    (ReleaseInfo.sdkVersion (SdkVersions.latest update)), optionsA)
           else Ret (UpdateResult.make None 0 EmptyString false false
                       (ReleaseInfo.sdkVersion (SdkVersions.current update)), optionsA)
       | None => Ret (UpdateResult.make None 0 EmptyString false false
                        (ReleaseInfo.sdkVersion (SdkVersions.current update)), optionsA)
       end)%prog.
Proof.
  intros url. apply never_bind.
  - unfold applySdkUpdate. cbv zeta. never_tac dirname.
  - intros [baseBranch optionsA]. destruct baseBranch as [base|]; [|exact I].
    destruct (Js.truthy base); [|exact I].
    apply never_bind; [unfold createPullRequest; cbv zeta; never_tac dirname|intros pr; exact I].
Qed.

End Channel.

(** X24. A run fetches the feed of one channel only: the configured one,
    or, when none is configured, the first two dot-separated segments of the
    manifest's SDK version joined by a dot. In every world where the
    manifest is read, no other URL than the [releases.json] of that channel
    is requested; for a version printed from three integers and no
    configured channel, the channel is [<major>.<minor>]. *)
Theorem X24_the_resolved_channel_is_the_one_fetched :
  forall (localeCompare : string -> string -> Z) (dirname : string -> string)
         (w : World) (options : UpdateOptions.t) (globalJson : GlobalJson.t),
    w _ [] (ReadGlobalJson (UpdateOptions.globalJsonPath options)) = Returned globalJson ->
    existsb (otherFetch (releasesUrl (resolvedChannel options (manifestVersion globalJson))))
      (fst (exec w [] (tryUpdateSdk localeCompare dirname options))) = false /\
    (Js.truthy (UpdateOptions.channel options) = false ->
     forall major minor patch : Z,
       manifestVersion globalJson = dotted major minor patch ->
       resolvedChannel options (manifestVersion globalJson) =
         String.append (Js.toString (Js.Num major))
           (String.append "." (Js.toString (Js.Num minor)))).
Proof.
  intros localeCompare dirname w options globalJson Hread. split.
  - unfold tryUpdateSdk, call. cbn [bind exec app map callOf]. rewrite Hread. cbn [bind].
    apply never_exec; [|reflexivity].
    destruct (negb (Js.truthy (manifestVersion globalJson))); [exact I|].
    unfold resolvedChannel.
    destruct (Js.truthy (UpdateOptions.channel options)); cbn [negb].
    + cbn [bind]. apply (after_resolution_one_fetch options).
      intros c. destruct (getLatestRelease _ _ _) as [update|e]; [|exact I].
      do 3 (apply never_bind; [never_tac dirname|intros _]).
      destruct (negb _); [apply update_fetches_nothing|never_tac dirname].
    + destruct (_ <? 2); [exact I|]. cbn [bind].
      set (channel := Js.template [nth 0 (Js.split "." (manifestVersion globalJson)) EmptyString; ".";
                                   nth 1 (Js.split "." (manifestVersion globalJson)) EmptyString]).
      change channel with (UpdateOptions.channel (UpdateOptions.with_channel options channel)) at 1.
      apply (after_resolution_one_fetch (UpdateOptions.with_channel options channel)).
      intros c. destruct (getLatestRelease _ _ _) as [update|e]; [|exact I].
      do 3 (apply never_bind; [never_tac dirname|intros _]).
      destruct (negb _); [apply update_fetches_nothing|never_tac dirname].
  - intros Hchannel major minor patch Hv. unfold resolvedChannel. rewrite Hchannel, Hv.
    unfold dotted. rewrite split_patchVersion. reflexivity.
Qed.

Lemma X24_witness :
  existsb (otherFetch "https://raw.githubusercontent.com/dotnet/core/main/release-notes/8.0/releases.json")
    (fst (exec (worldC channelC2 EmptyString) [] (tryUpdateSdk ordinalCompare dirnameC optionsC))) = false /\
  resolvedChannel optionsC "8.0.100" = "8.0".
Proof.
  destruct (X24_the_resolved_channel_is_the_one_fetched ordinalCompare dirnameC
              (worldC channelC2 EmptyString) optionsC manifestC eq_refl) as [Hlog Hchannel].
  split; [exact Hlog|].
  apply (Hchannel eq_refl 8 0 100). reflexivity.
Defined.
